(** * Big Dawgs backend: shallow embedding of the request handlers

    The handlers of the Express/Supabase backend are modelled as functions
    of the request, the database rows they read and write, and the outside
    world (database faults, randomness, clock, configuration). *)

From Stdlib Require Import String Ascii List ZArith Bool Lia.
Import ListNotations.
Open Scope string_scope.
Open Scope Z_scope.

(** ** JavaScript string and number primitives used by the handlers *)
Module Js.

(** Whitespace removed by [String.prototype.trim] (ASCII part). *)
Definition is_ws (c : ascii) : bool :=
  let n := nat_of_ascii c in
  (n =? 32)%nat || (n =? 9)%nat || (n =? 10)%nat || (n =? 11)%nat
  || (n =? 12)%nat || (n =? 13)%nat.

Fixpoint drop_ws (l : list ascii) : list ascii :=
  match l with
  | [] => []
  | c :: r => if is_ws c then drop_ws r else l
  end.

(** [s.trim()] *)
Definition trim (s : string) : string :=
  string_of_list_ascii (rev (drop_ws (rev (drop_ws (list_ascii_of_string s))))).

Definition lower_char (c : ascii) : ascii :=
  let n := nat_of_ascii c in
  if (65 <=? n)%nat && (n <=? 90)%nat then ascii_of_nat (n + 32) else c.

(** [s.toLowerCase()] (ASCII part) *)
Definition toLowerCase (s : string) : string :=
  string_of_list_ascii (map lower_char (list_ascii_of_string s)).

(** [s.startsWith(p)] *)
Definition startsWith (s p : string) : bool := String.prefix p s.

(** [s.slice(n)] *)
Fixpoint slice (n : nat) (s : string) : string :=
  match n, s with
  | O, _ => s
  | S _, EmptyString => EmptyString
  | S m, String _ r => slice m r
  end.

(** Truthiness of an optional string field of a JSON body:
    [undefined] and [""] are falsy. *)
Definition truthy (o : option string) : bool :=
  match o with
  | Some s => negb (String.eqb s "")
  | None => false
  end.

Definition digit_char (d : Z) : ascii := ascii_of_nat (48 + Z.to_nat d).

Fixpoint digits_aux (fuel : nat) (n : Z) (acc : list ascii) : list ascii :=
  match fuel with
  | O => acc
  | S f =>
      let acc' := digit_char (n mod 10) :: acc in
      if n <? 10 then acc' else digits_aux f (n / 10) acc'
  end.

(** [Number.prototype.toString()] on an integer (base 10). A number has at
    most [log2 n + 1] decimal digits, which bounds the recursion. *)
Definition number_to_string (n : Z) : string :=
  if n <? 0
  then String "-" (string_of_list_ascii
                     (digits_aux (S (Z.to_nat (Z.log2 (- n)))) (- n) []))
  else string_of_list_ascii (digits_aux (S (Z.to_nat (Z.log2 n))) n []).

Definition is_digit (c : ascii) : bool :=
  (48 <=? nat_of_ascii c)%nat && (nat_of_ascii c <=? 57)%nat.

(** Value of a string of decimal digits. *)
Definition digits_val (l : list ascii) : Z :=
  fold_left (fun a c => a * 10 + (Z.of_nat (nat_of_ascii c) - 48)) l 0.

(** The email test [/^[^\s@]+@[^\s@]+\.[^\s@]+$/]: one [@], a non-empty
    local part, and a domain with a dot that is neither first nor last,
    no whitespace anywhere. *)
Definition is_at (c : ascii) : bool := (nat_of_ascii c =? 64)%nat.
Definition is_dot (c : ascii) : bool := (nat_of_ascii c =? 46)%nat.

(** A dot followed by at least one character. *)
Fixpoint dot_before_end (l : list ascii) : bool :=
  match l with
  | [] => false
  | c :: r =>
      match r with
      | [] => false
      | _ :: _ => is_dot c || dot_before_end r
      end
  end.

Fixpoint split_at_at (l : list ascii) : list ascii * option (list ascii) :=
  match l with
  | [] => ([], None)
  | c :: r =>
      if is_at c then ([], Some r)
      else let '(a, b) := split_at_at r in (c :: a, b)
  end.

Definition email_regex_test (s : string) : bool :=
  let l := list_ascii_of_string s in
  if existsb is_ws l then false
  else
    match split_at_at l with
    | (_ :: _, Some rest) =>
        negb (existsb is_at rest)
        && match rest with [] => false | _ :: dom => dot_before_end dom end
    | _ => false
    end.

End Js.

(** ** The OTP lifecycle: [users], [admin_users] and [otp_codes] *)
Module Otp.
Import Js.

Record user_row := mkUser {
  u_id : string; u_email : option string; u_phone : option string;
  u_full_name : option string }.

Record admin_row := mkAdmin {
  a_id : string; a_email : string; a_is_active : bool; a_admin_key : string }.

Record otp_row := mkOtp {
  o_id : nat; o_user_id : string; o_code : string; o_expires_at : Z;
  o_used : bool }.

(** Outcome of a call to an outside service. The Supabase client reports a
    failure in the [error] field of its result; the mail clients may also
    throw. *)
Inductive outcome := Done | Fails | Throws.

(** The database. [next_id] is the serial used for new row ids;
    [queries] records the tables each request touched, most recent first. *)
Record db := mkDb {
  users : list user_row; admin_users : list admin_row;
  otp_codes : list otp_row; next_id : nat; queries : list string }.

(** The outside world: outcomes of the next service calls (an exhausted list
    means the calls succeed), the values drawn by [crypto.randomInt], the
    clock in milliseconds, and [process.env] ([""] when unset). *)
Record env := mkEnv {
  faults : list outcome; rand : list Z; clock : Z;
  JWT_SECRET : string; RESEND_API_KEY : string }.

Record world := mkWorld { w_db : db; w_env : env }.

(** Requests run in a state monad over the world. *)
Definition M (A : Type) := world -> A * world.
Definition ret {A} (a : A) : M A := fun w => (a, w).
Definition bind {A B} (m : M A) (k : A -> M B) : M B :=
  fun w => let (a, w1) := m w in k a w1.
Notation "x <- m ;; k" := (bind m (fun x => k))
  (at level 61, m at next level, right associativity).

Definition get_db : M db := fun w => (w_db w, w).
Definition put_db (d : db) : M unit := fun w => (tt, mkWorld d (w_env w)).
Definition config : M env := fun w => (w_env w, w).
(** [new Date()] / [Date.now()] *)
Definition now : M Z := fun w => (clock (w_env w), w).

Definition next_outcome : M outcome := fun w =>
  let e := w_env w in
  match faults e with
  | [] => (Done, w)
  | o :: r =>
      (o, mkWorld (w_db w) (mkEnv r (rand e) (clock e) (JWT_SECRET e)
                                 (RESEND_API_KEY e)))
  end.

(** [crypto.randomInt(min, max)]: an integer in [\[min, max)]. *)
Definition randomInt (lo hi : Z) : M Z := fun w =>
  let e := w_env w in
  match rand e with
  | [] => (lo, w)
  | r :: rs =>
      (lo + r mod (hi - lo),
       mkWorld (w_db w) (mkEnv (faults e) rs (clock e) (JWT_SECRET e)
                               (RESEND_API_KEY e)))
  end.

Definition opt_str (o : option string) : string :=
  match o with Some s => s | None => "" end.

Definition opt_eqb (a b : option string) : bool :=
  match a, b with
  | Some x, Some y => String.eqb x y
  | None, None => true
  | _, _ => false
  end.

(** Result of a Supabase query: [data] or [error]. *)
Inductive qres (A : Type) := QOk (a : A) | QErr.
Arguments QOk {A} a.
Arguments QErr {A}.

(** [.maybeSingle()] and [.single()] *)
Definition maybeSingle {A} (l : list A) : qres (option A) :=
  match l with
  | [] => QOk None
  | [x] => QOk (Some x)
  | _ => QErr
  end.

Definition single {A} (l : list A) : qres A :=
  match l with
  | [x] => QOk x
  | _ => QErr
  end.

(** Every database call names its table and may fail. *)
Definition touch (table : string) : M bool :=
  d <- get_db ;;
  _ <- put_db (mkDb (users d) (admin_users d) (otp_codes d) (next_id d)
                    (table :: queries d)) ;;
  o <- next_outcome ;;
  ret (match o with Done => false | _ => true end).

(** *** [users] *)

(** [.select("*").or("email.eq.E,phone.eq.P").maybeSingle()], with only the
    parts whose value is truthy. *)
Definition users_find_email_or_phone (email phone : option string)
  : M (qres (option user_row)) :=
  e <- touch "users" ;;
  d <- get_db ;;
  ret (if e then QErr
       else maybeSingle
              (filter (fun u => (truthy email && opt_eqb (u_email u) email)
                                || (truthy phone && opt_eqb (u_phone u) phone))
                      (users d))).

(** [.update({ full_name }).eq("id", id).select().single()] *)
Definition users_update_full_name (id : string) (name : option string)
  : M (qres user_row) :=
  e <- touch "users" ;;
  d <- get_db ;;
  if e then ret QErr
  else
    let us := map (fun u => if String.eqb (u_id u) id
                            then mkUser (u_id u) (u_email u) (u_phone u) name
                            else u) (users d) in
    _ <- put_db (mkDb us (admin_users d) (otp_codes d) (next_id d) (queries d)) ;;
    ret (single (filter (fun u => String.eqb (u_id u) id) us)).

(** The database's generated id: a value distinct from every id already in
    the table (modelled as a string longer than all of them). *)
Definition fresh_user_id (us : list user_row) : string :=
  String "u" (String.concat "" (map u_id us)).

(** [.insert({ email, phone, full_name }).select().single()] *)
Definition users_insert (email phone name : option string) : M (qres user_row) :=
  e <- touch "users" ;;
  d <- get_db ;;
  if e then ret QErr
  else
    let u := mkUser (fresh_user_id (users d)) email phone name in
    _ <- put_db (mkDb (users d ++ [u]) (admin_users d) (otp_codes d) (next_id d)
                      (queries d)) ;;
    ret (QOk u).

(** [.select("id").eq("email", email).maybeSingle()] *)
Definition users_by_email (email : string) : M (qres (option user_row)) :=
  e <- touch "users" ;;
  d <- get_db ;;
  ret (if e then QErr
       else maybeSingle (filter (fun u => opt_eqb (u_email u) (Some email)) (users d))).

(** [.select("*").eq("id", id).single()] *)
Definition users_by_id (id : string) : M (qres user_row) :=
  e <- touch "users" ;;
  d <- get_db ;;
  ret (if e then QErr
       else single (filter (fun u => String.eqb (u_id u) id) (users d))).

(** *** [admin_users] *)

Definition admin_users_by_email (email : string) : M (qres (option admin_row)) :=
  e <- touch "admin_users" ;;
  d <- get_db ;;
  ret (if e then QErr
       else maybeSingle (filter (fun a => String.eqb (a_email a) email)
                                (admin_users d))).

Definition admin_users_by_id (id : string) : M (qres (option admin_row)) :=
  e <- touch "admin_users" ;;
  d <- get_db ;;
  ret (if e then QErr
       else maybeSingle (filter (fun a => String.eqb (a_id a) id) (admin_users d))).

(** *** [otp_codes]

    The table's [user_id] carries the unique key that the customer upsert's
    [onConflict: "user_id"] names: an insert that would repeat a [user_id]
    fails. *)

Definition of_user (uid : string) (r : otp_row) : bool := String.eqb (o_user_id r) uid.

(** [.upsert({ user_id, code, expires_at, used: false }, { onConflict: "user_id" })] *)
Definition otp_codes_upsert (uid code : string) (expires : Z) : M bool :=
  e <- touch "otp_codes" ;;
  d <- get_db ;;
  if e then ret true
  else
    let os := otp_codes d in
    if existsb (of_user uid) os
    then
      _ <- put_db (mkDb (users d) (admin_users d)
                        (map (fun r => if of_user uid r
                                       then mkOtp (o_id r) uid code expires false
                                       else r) os)
                        (next_id d) (queries d)) ;;
      ret false
    else
      _ <- put_db (mkDb (users d) (admin_users d)
                        (os ++ [mkOtp (next_id d) uid code expires false])
                        (S (next_id d)) (queries d)) ;;
      ret false.

(** [.insert({ user_id, code, expires_at, used: false })]; [true] on error. *)
Definition otp_codes_insert (uid code : string) (expires : Z) : M bool :=
  e <- touch "otp_codes" ;;
  d <- get_db ;;
  if e || existsb (of_user uid) (otp_codes d) then ret true
  else
    _ <- put_db (mkDb (users d) (admin_users d)
                      (otp_codes d ++ [mkOtp (next_id d) uid code expires false])
                      (S (next_id d)) (queries d)) ;;
    ret false.

(** [.delete().eq("user_id", uid)] *)
Definition otp_codes_delete_user (uid : string) : M bool :=
  e <- touch "otp_codes" ;;
  d <- get_db ;;
  if e then ret true
  else
    _ <- put_db (mkDb (users d) (admin_users d)
                      (filter (fun r => negb (of_user uid r)) (otp_codes d))
                      (next_id d) (queries d)) ;;
    ret false.

(** [.update({ used: true }).eq("id", id)] *)
Definition otp_codes_mark_used (id : nat) : M bool :=
  e <- touch "otp_codes" ;;
  d <- get_db ;;
  if e then ret true
  else
    _ <- put_db (mkDb (users d) (admin_users d)
                      (map (fun r => if Nat.eqb (o_id r) id
                                     then mkOtp (o_id r) (o_user_id r) (o_code r)
                                                (o_expires_at r) true
                                     else r) (otp_codes d))
                      (next_id d) (queries d)) ;;
    ret false.

(** [.order("expires_at", { ascending: false }).limit(1)]: the first row
    with the greatest [expires_at]. *)
Definition latest (l : list otp_row) : option otp_row :=
  fold_left (fun acc r => match acc with
                          | None => Some r
                          | Some b => if o_expires_at b <? o_expires_at r
                                      then Some r else acc
                          end) l None.

Definition unused_of (uid : string) (os : list otp_row) : list otp_row :=
  filter (fun r => of_user uid r && negb (o_used r)) os.

(** [.select("*").eq("user_id", uid).eq("used", false)
     .order("expires_at", { ascending: false }).limit(1).maybeSingle()] *)
Definition otp_codes_latest_unused (uid : string) : M (qres (option otp_row)) :=
  e <- touch "otp_codes" ;;
  d <- get_db ;;
  ret (if e then QErr else QOk (latest (unused_of uid (otp_codes d)))).

(** *** Mail services: Resend (customers) and nodemailer (admins) *)
Definition resend_emails_send : M outcome := next_outcome.
Definition transporter_sendMail : M outcome := next_outcome.

(** *** Responses *)

(** [jwt.sign(payload, secret, { expiresIn })] *)
Inductive token := jwt_sign (claims : list (string * string)) (secret : string)
                            (expiresIn : string).

Inductive body :=
| ErrorMsg (message : string)
| OtpSent (userId : string)
| Verified (tok : token) (user : user_row)
| AdminOtpSent (userId : string) (message : string)
| AdminVerified (tok : token) (email : string).

Record response := mkResp { status : Z; resp_body : body }.

Definition err (code : Z) (msg : string) : response := mkResp code (ErrorMsg msg).

(** *** utils/otp.ts *)

Definition generateOTP : M string :=
  n <- randomInt 100000 999999 ;;
  ret (number_to_string n).

Definition otpExpiresAt : M Z :=
  t <- now ;;
  ret (t + 10 * 60 * 1000).

(** ** POST /api/auth/send-otp *)

Record send_req := mkSendReq {
  sr_email : option string; sr_phone : option string; sr_name : option string }.

(** Input validation, OTP generation and "find or create user". *)
Definition sendOTP_user (req : send_req) : M (response + (user_row * string * Z)) :=
  let email := sr_email req in
  let phone := sr_phone req in
  let name := sr_name req in
  if negb (truthy email) && negb (truthy phone)
  then ret (inl (err 400 "Email or phone required"))
  else if truthy email && negb (email_regex_test (opt_str email))
  then ret (inl (err 400 "Invalid email format"))
  else
    otp <- generateOTP ;;
    expires <- otpExpiresAt ;;
    existingUser <- users_find_email_or_phone email phone ;;
    match existingUser with
    | QOk (Some existing) =>
        r <- users_update_full_name (u_id existing)
               (if truthy name then name else u_full_name existing) ;;
        match r with
        | QOk user => ret (inr (user, otp, expires))
        | QErr => ret (inl (err 500 "Failed to update user record"))
        end
    | _ =>
        r <- users_insert (if truthy email then email else None)
                          (if truthy phone then phone else None)
                          (if truthy name then name else None) ;;
        match r with
        | QOk user => ret (inr (user, otp, expires))
        | QErr => ret (inl (err 500 "Failed to create user record"))
        end
    end.

Definition sendOTP (req : send_req) : M response :=
  v <- sendOTP_user req ;;
  match v with
  | inl resp => ret resp
  | inr (user, otp, expires) =>
      otpError <- otp_codes_upsert (u_id user) otp expires ;;
      if otpError then ret (err 500 "Failed to store OTP")
      else if truthy (sr_email req) then
        cfg <- config ;;
        if String.eqb (RESEND_API_KEY cfg) "" then ret (mkResp 200 (OtpSent (u_id user)))
        else
          o <- resend_emails_send ;;
          match o with
          | Done => ret (mkResp 200 (OtpSent (u_id user)))
          | Fails => ret (err 500 "Email delivery failed")
          | Throws => ret (err 500 "Email service error")
          end
      else ret (mkResp 200 (OtpSent (u_id user)))
  end.

(** ** OTP checks shared by both verify handlers: fetch the latest unused
    record, check expiry, check the code. *)
Inductive otp_check := FetchError | NoRecord | Expired | Mismatch | Passed (rec : otp_row).

Definition fetch_and_check (target otp : string) : M otp_check :=
  r <- otp_codes_latest_unused target ;;
  match r with
  | QErr => ret FetchError
  | QOk None => ret NoRecord
  | QOk (Some otpRecord) =>
      t <- now ;;
      if o_expires_at otpRecord <? t then ret Expired
      else if negb (String.eqb (trim (o_code otpRecord)) (trim otp)) then ret Mismatch
      else ret (Passed otpRecord)
  end.

(** ** POST /api/auth/verify-otp *)

Record verify_req := mkVerifyReq {
  vr_email : option string; vr_userId : option string; vr_otp : option string }.

(** Input validation and "Resolve userId". *)
Definition verifyOTP_target (req : verify_req) : M (response + string) :=
  let otp := vr_otp req in
  let userId := vr_userId req in
  let email := vr_email req in
  if negb (truthy otp) || negb (Nat.eqb (String.length (trim (opt_str otp))) 6)
  then ret (inl (err 400 "A 6-digit OTP is required"))
  else if negb (truthy userId) && negb (truthy email)
  then ret (inl (err 400 "userId or email is required"))
  else if truthy userId then ret (inr (opt_str userId))
  else
    r <- users_by_email (opt_str email) ;;
    match r with
    | QOk (Some foundUser) => ret (inr (u_id foundUser))
    | _ => ret (inl (err 400 "User not found"))
    end.

Definition verifyOTP (req : verify_req) : M response :=
  v <- verifyOTP_target req ;;
  match v with
  | inl resp => ret resp
  | inr targetUserId =>
      c <- fetch_and_check targetUserId (opt_str (vr_otp req)) ;;
      match c with
      | FetchError | NoRecord =>
          ret (err 400 "No active OTP found. Please request a new one.")
      | Expired => ret (err 400 "OTP has expired. Please request a new one.")
      | Mismatch => ret (err 400 "Incorrect OTP. Please try again.")
      | Passed otpRecord =>
          _ <- otp_codes_mark_used (o_id otpRecord) ;;  (* non-fatal *)
          cfg <- config ;;
          (* jwt.sign throws on an empty secret; the catch answers 500 *)
          if String.eqb (JWT_SECRET cfg) "" then ret (err 500 "Verification failed")
          else
            let tok := jwt_sign [("userId", targetUserId)] (JWT_SECRET cfg) "7d" in
            u <- users_by_id targetUserId ;;
            match u with
            | QOk user => ret (mkResp 200 (Verified tok user))
            | QErr => ret (err 500 "Verified but could not load user data")
            end
      end
  end.

(** ** POST /api/auth/admin-send-otp *)

Record admin_send_req := mkAdminSendReq { as_email : option string }.

Definition vague_success : response :=
  mkResp 200 (AdminOtpSent "invalid" "OTP sent if email is registered").

(** [crypto.randomInt(100000, 999999).toString()] in [adminSendOTP]. *)
Definition admin_otp : M string :=
  n <- randomInt 100000 999999 ;;
  ret (number_to_string n).

Definition adminSendOTP (req : admin_send_req) : M response :=
  let email := as_email req in
  if negb (truthy email) || String.eqb (trim (opt_str email)) ""
  then ret (err 400 "Email is required")
  else
    let normalizedEmail := trim (toLowerCase (opt_str email)) in
    r <- admin_users_by_email normalizedEmail ;;
    match r with
    | QErr => ret vague_success
    | QOk None => ret vague_success
    | QOk (Some adminUser) =>
        if negb (a_is_active adminUser) then ret vague_success
        else
          otp <- admin_otp ;;
          t <- now ;;
          let expiresAt := t + 10 * 60 * 1000 in
          _ <- otp_codes_delete_user (a_id adminUser) ;;   (* result unchecked *)
          insertError <- otp_codes_insert (a_id adminUser) otp expiresAt ;;
          if insertError then ret (err 500 "Failed to generate OTP")
          else
            o <- transporter_sendMail ;;
            match o with
            | Done => ret (mkResp 200 (AdminOtpSent (a_id adminUser) "OTP sent"))
            | _ => ret (err 500 "Email delivery failed")
            end
    end.

(** ** POST /api/auth/admin-verify-otp *)

Record admin_verify_req := mkAdminVerifyReq {
  av_userId : option string; av_otp : option string }.

(** Input validation and the fake userId guard. *)
Definition adminVerifyOTP_target (req : admin_verify_req) : M (response + string) :=
  let userId := av_userId req in
  let otp := av_otp req in
  if negb (truthy userId) || negb (truthy otp)
  then ret (inl (err 400 "userId and otp are required"))
  else if negb (Nat.eqb (String.length (trim (opt_str otp))) 6)
  then ret (inl (err 400 "OTP must be 6 digits"))
  else if String.eqb (opt_str userId) "invalid"
  then ret (inl (err 401 "Invalid or expired OTP"))
  else ret (inr (opt_str userId)).

Definition adminVerifyOTP (req : admin_verify_req) : M response :=
  v <- adminVerifyOTP_target req ;;
  match v with
  | inl resp => ret resp
  | inr userId =>
      c <- fetch_and_check userId (opt_str (av_otp req)) ;;
      match c with
      | FetchError => ret (err 500 "Failed to verify OTP")
      | NoRecord => ret (err 400 "No active OTP found. Please request a new one.")
      | Expired => ret (err 400 "OTP has expired. Please request a new one.")
      | Mismatch => ret (err 400 "Incorrect OTP. Please try again.")
      | Passed otpRecord =>
          _ <- otp_codes_mark_used (o_id otpRecord) ;;  (* non-fatal *)
          a <- admin_users_by_id userId ;;
          match a with
          | QOk (Some adminUser) =>
              cfg <- config ;;
              let secret := if String.eqb (JWT_SECRET cfg) "" then "secret"
                            else JWT_SECRET cfg in
              ret (mkResp 200
                     (AdminVerified
                        (jwt_sign [("userId", a_id adminUser); ("email", a_email adminUser);
                                   ("role", "admin")] secret "8h")
                        (a_email adminUser)))
          | _ => ret (err 401 "Admin user not found")
          end
      end
  end.

End Otp.

(** ** Sequences of requests against one database *)
Module OtpRun.
Import Js Otp.

Inductive op :=
| CustSend (r : send_req)
| CustVerify (r : verify_req)
| AdminSend (r : admin_send_req)
| AdminVerify (r : admin_verify_req)
| SetEnv (e : env).   (** time passes, new faults and random values *)

Definition step (o : op) (w : world) : world :=
  match o with
  | CustSend r => snd (sendOTP r w)
  | CustVerify r => snd (verifyOTP r w)
  | AdminSend r => snd (adminSendOTP r w)
  | AdminVerify r => snd (adminVerifyOTP r w)
  | SetEnv e => mkWorld (w_db w) e
  end.

(** The OTP row a verify request accepts: the one that passes the lookup,
    expiry and code checks and is then marked used. *)
Definition accepted_row (o : op) (w : world) : option otp_row :=
  match o with
  | CustVerify r =>
      let (v, w1) := verifyOTP_target r w in
      match v with
      | inr t => match fst (fetch_and_check t (opt_str (vr_otp r)) w1) with
                 | Passed rec => Some rec
                 | _ => None
                 end
      | inl _ => None
      end
  | AdminVerify r =>
      let (v, w1) := adminVerifyOTP_target r w in
      match v with
      | inr t => match fst (fetch_and_check t (opt_str (av_otp r)) w1) with
                 | Passed rec => Some rec
                 | _ => None
                 end
      | inl _ => None
      end
  | _ => None
  end.

(** The checks of the verify handlers, as the claims state them. *)
Definition otp_decision (os : list otp_row) (t : Z) (uid otp : string) : otp_check :=
  match latest (unused_of uid os) with
  | None => NoRecord
  | Some r =>
      if o_expires_at r <? t then Expired
      else if negb (String.eqb (trim (o_code r)) (trim otp)) then Mismatch
      else Passed r
  end.

Definition ids_wf (d : db) : Prop :=
  NoDup (map o_id (otp_codes d)) /\ Forall (fun r => (o_id r < next_id d)%nat) (otp_codes d).

Definition one_row_per_user (d : db) : Prop := NoDup (map o_user_id (otp_codes d)).

(** The claim's invariant: at most one unused row per user. *)
Definition one_unused_per_user (d : db) : Prop :=
  forall u, (length (unused_of u (otp_codes d)) <= 1)%nat.

Definition preserves (P : world -> Prop) {A} (m : M A) : Prop :=
  forall w, P w -> P (snd (m w)).

(** Whether the next outside call fails, and the environment once it has
    been made. *)
Definition fault_now (e : env) : bool :=
  match faults e with
  | [] => false
  | Done :: _ => false
  | _ :: _ => true
  end.

Definition pop_env (e : env) : env :=
  mkEnv (tl (faults e)) (rand e) (clock e) (JWT_SECRET e) (RESEND_API_KEY e).

(** The database once a query on [table] has been logged. *)
Definition log_query (table : string) (d : db) : db :=
  mkDb (users d) (admin_users d) (otp_codes d) (next_id d) (table :: queries d).

(** Row [x] belongs to user [u], and every row with id [x] is marked used. *)
Definition consumed (x : nat) (u : string) (w : world) : Prop :=
  (x < next_id (w_db w))%nat
  /\ forall r, In r (otp_codes (w_db w)) -> o_id r = x -> o_user_id r = u /\ o_used r = true.

(** [m] leaves the [otp_codes] table and its id serial as they are. *)
Definition keeps_otp {A} (m : M A) : Prop :=
  forall w, otp_codes (w_db (snd (m w))) = otp_codes (w_db w)
            /\ next_id (w_db (snd (m w))) = next_id (w_db w).

(** [P] only looks at the [otp_codes] table and its id serial. *)
Definition otp_only (P : world -> Prop) : Prop :=
  forall w w', otp_codes (w_db w) = otp_codes (w_db w') ->
               next_id (w_db w) = next_id (w_db w') -> P w -> P w'.

(** A customer send-otp re-arms user [u]'s row when its upsert for [u]
    runs and rewrites an existing row of [u] (the [on conflict] branch),
    which sets a new code and [used = false]. An upsert that fails or
    inserts a fresh row leaves the rows of [u] as they are. *)
Definition rearms (o : op) (w : world) (u : string) : bool :=
  match o with
  | CustSend r =>
      match sendOTP_user r w with
      | (inr (user, _, _), w1) =>
          String.eqb (u_id user) u && negb (fault_now (w_env w1))
          && existsb (of_user (u_id user)) (otp_codes (w_db w1))
      | (inl _, _) => false
      end
  | _ => false
  end.

(** Row [x] of user [u] is accepted again by some request of [ops] before
    any customer send-otp re-arms it. *)
Fixpoint reaccepted (x : nat) (u : string) (ops : list op) (w : world) : Prop :=
  match ops with
  | [] => False
  | o :: os =>
      (exists rec, accepted_row o w = Some rec /\ o_id rec = x)
      \/ (rearms o w u = false /\ reaccepted x u os (step o w))
  end.

End OtpRun.

(** ** POST /api/orders/verify-payment *)
Module Payment.
Import Js.

Record item := mkItem { item_id : string; item_quantity : Z; item_price : Z }.

(** [orderData]; [od_items = None] when [orderData.items] is not iterable.
    An element of [items] is an object ([Some]) or [null] ([None]), on
    which [item.id] throws. *)
Record order_data := mkOrderData {
  od_userId : option string; od_totalAmount : Z; od_shippingAddress : string;
  od_items : option (list (option item)) }.

Record verify_payment_req := mkVPReq {
  razorpay_order_id : option string; razorpay_payment_id : option string;
  razorpay_signature : option string; orderData : option order_data }.

Record order_row := mkOrder {
  ord_id : nat; ord_user_id : option string; ord_status : string; ord_total : Z;
  ord_shipping : string; ord_razorpay_order_id : option string;
  ord_razorpay_payment_id : option string }.

Record order_item_row := mkOrderItem {
  oi_order_id : nat; oi_product_id : string; oi_quantity : Z; oi_price : Z }.

Record payment_row := mkPayment {
  pay_order_id : nat; pay_amount : Z; pay_status : string;
  pay_razorpay_order_id : option string; pay_razorpay_payment_id : option string;
  pay_razorpay_signature : option string }.

(** Tables, the next order id, the outcome of the next database calls
    ([true]: the call fails; an exhausted list means success), and the
    product ids whose stock update was sent (its value, the serialised
    [supabase.rpc] builder, is not modelled). *)
Record pdb := mkPdb {
  orders : list order_row; order_items : list order_item_row;
  payments : list payment_row; next_order_id : nat; db_faults : list bool;
  stock_updates : list string }.

Definition pop_fault (d : pdb) : bool * pdb :=
  match db_faults d with
  | [] => (false, d)
  | f :: r => (f, mkPdb (orders d) (order_items d) (payments d) (next_order_id d) r
                        (stock_updates d))
  end.

Inductive presp :=
| PaymentOk (orderId : nat)
| PaymentErr (status : Z) (message : string).

Definition presp_status (r : presp) : Z :=
  match r with PaymentOk _ => 200 | PaymentErr s _ => s end.

(** A template literal [`${x}`] of an optional field. *)
Definition js_template (o : option string) : string :=
  match o with Some s => s | None => "undefined" end.

Section VerifyPayment.

(** [crypto.createHmac("sha256", key).update(msg).digest("hex")] *)
Variable hmac_sha256_hex : string -> string -> string.
(** [process.env.RAZORPAY_KEY_SECRET] *)
Variable RAZORPAY_KEY_SECRET : string.

Definition expected_signature (req : verify_payment_req) : string :=
  hmac_sha256_hex RAZORPAY_KEY_SECRET
    (js_template (razorpay_order_id req) ++ "|" ++ js_template (razorpay_payment_id req)).

(** One iteration of [for (const item of orderData.items)]: insert the
    order item, then send the stock update; both results are ignored. *)
Definition insert_item (oid : nat) (d : pdb) (it : item) : pdb :=
  let (f1, d1) := pop_fault d in
  let d2 := if f1 then d1
            else mkPdb (orders d1)
                       (order_items d1 ++ [mkOrderItem oid (item_id it) (item_quantity it)
                                                       (item_price it)])
                       (payments d1) (next_order_id d1) (db_faults d1) (stock_updates d1) in
  let (_, d3) := pop_fault d2 in
  mkPdb (orders d3) (order_items d3) (payments d3) (next_order_id d3) (db_faults d3)
        (stock_updates d3 ++ [item_id it]).

(** The loop [for (const item of orderData.items)]: [true] when it throws
    on a [null] element, which ends the loop; the rows of the items before
    it stay written. *)
Fixpoint insert_items (oid : nat) (items : list (option item)) (d : pdb) : bool * pdb :=
  match items with
  | [] => (false, d)
  | None :: _ => (true, d)
  | Some it :: r => insert_items oid r (insert_item oid d it)
  end.

Definition verifyPayment (req : verify_payment_req) (d : pdb) : presp * pdb :=
  if negb (Otp.opt_eqb (Some (expected_signature req)) (razorpay_signature req))
  then (PaymentErr 400 "Payment verification failed", d)
  else
    match orderData req with
    | None => (PaymentErr 500 "Cannot read properties of undefined", d)
    | Some od =>
        let (orderError, d1) := pop_fault d in
        if orderError then (PaymentErr 500 "order insert failed", d1)
        else
          let oid := next_order_id d1 in
          let order := mkOrder oid (od_userId od) "confirmed" (od_totalAmount od)
                               (od_shippingAddress od) (razorpay_order_id req)
                               (razorpay_payment_id req) in
          let d2 := mkPdb (orders d1 ++ [order]) (order_items d1) (payments d1)
                          (S oid) (db_faults d1) (stock_updates d1) in
          match od_items od with
          | None => (PaymentErr 500 "orderData.items is not iterable", d2)
          | Some items =>
              let (thrown, d3) := insert_items oid items d2 in
              if thrown then (PaymentErr 500 "Cannot read properties of null (reading 'id')", d3)
              else
                let (f, d4) := pop_fault d3 in
                let d5 := if f then d4
                          else mkPdb (orders d4) (order_items d4)
                                     (payments d4 ++ [mkPayment oid (od_totalAmount od) "success"
                                                        (razorpay_order_id req)
                                                        (razorpay_payment_id req)
                                                        (razorpay_signature req)])
                                     (next_order_id d4) (db_faults d4) (stock_updates d4) in
                (PaymentOk oid, d5)
          end
    end.

End VerifyPayment.
End Payment.

(** ** The admin router (routes/adminRoutes.ts) and its JWT middleware *)
Module AdminGuard.
Import Js.

(** The decoded token; [role] is [undefined] when the payload lacks it (a
    string payload has no [role] either). *)
Record AdminPayload := mkPayload {
  pl_userId : option string; pl_email : option string; pl_role : option string }.

Inductive mw_result :=
| Reject (status : Z) (error : string)
| Next (admin : AdminPayload).

Inductive middleware := MAdminAuth | MUpload | MHandler (name : string).

Record route := mkRoute { method : string; path : string; chain : list middleware }.

(** The routes registered on the router mounted at [/api/admin]. *)
Definition admin_routes : list route :=
  [ mkRoute "GET" "/stats" [MAdminAuth; MHandler "stats"];
    mkRoute "GET" "/products" [MAdminAuth; MHandler "listProducts"];
    mkRoute "POST" "/products" [MAdminAuth; MHandler "createProduct"];
    mkRoute "PUT" "/products/:id" [MAdminAuth; MHandler "updateProduct"];
    mkRoute "DELETE" "/products/:id" [MAdminAuth; MHandler "deleteProduct"];
    mkRoute "PUT" "/products/:id/stock" [MAdminAuth; MHandler "updateStock"];
    mkRoute "POST" "/upload-image" [MAdminAuth; MUpload; MHandler "uploadImage"];
    mkRoute "GET" "/orders" [MAdminAuth; MHandler "listOrders"];
    mkRoute "PUT" "/orders/:id/status" [MAdminAuth; MHandler "updateOrderStatus"] ].

(** What the router does with a request: a middleware answers it, or the
    rest of the chain runs with [req.admin] set (or unset). *)
Inductive dispatch_result :=
| Responded (status : Z) (error : string)
| Runs (rest : list middleware) (admin : option AdminPayload).

Section Guard.

(** [jwt.verify(token, secret)]: [None] when it throws. *)
Variable jwt_verify : string -> string -> option AdminPayload.

(** [process.env.JWT_SECRET || "secret"] *)
Definition admin_secret (JWT_SECRET : string) : string :=
  if String.eqb JWT_SECRET "" then "secret" else JWT_SECRET.

Definition adminAuth (authorization : option string) (JWT_SECRET : string) : mw_result :=
  match authorization with
  | Some auth =>
      if startsWith auth "Bearer " then
        match jwt_verify (slice 7 auth) (admin_secret JWT_SECRET) with
        | Some payload =>
            if Otp.opt_eqb (pl_role payload) (Some "admin") then Next payload
            else Reject 401 "Invalid or expired admin token"
        | None => Reject 401 "Invalid or expired admin token"
        end
      else Reject 401 "No admin token provided"
  | None => Reject 401 "No admin token provided"
  end.

Definition dispatch (r : route) (authorization : option string) (JWT_SECRET : string)
  : dispatch_result :=
  match chain r with
  | MAdminAuth :: rest =>
      match adminAuth authorization JWT_SECRET with
      | Reject s e => Responded s e
      | Next p => Runs rest (Some p)
      end
  | c => Runs c None
  end.

(** The claim's condition: a Bearer token that verifies against the secret
    and whose [role] is ["admin"]. *)
Definition carries_admin_token (authorization : option string) (JWT_SECRET : string)
  (p : AdminPayload) : Prop :=
  exists tok, authorization = Some ("Bearer " ++ tok)
              /\ jwt_verify tok (admin_secret JWT_SECRET) = Some p
              /\ pl_role p = Some "admin".

End Guard.
End AdminGuard.

(** ** Public catalog (controllers/inventoryController.ts) *)
Module Catalog.

Record category := mkCategory { c_id : string; c_name : string; c_slug : string }.

Record product := mkProduct {
  p_id : string; p_slug : string; p_name : string; p_price : Z;
  p_category_id : string; p_is_active : bool; p_is_featured : bool;
  p_created_at : Z }.

Record cdb := mkCdb { products : list product; categories : list category }.

Inductive cresp :=
| Listing (data : list (product * option category)) (page limit : Z)
| CategoryListing (data : list product) (cat : category)
| ProductData (data : product) (cat : option category)
| Featured (data : list (product * option category))
| CErr (status : Z) (message : string).

(** The embedded [categories(name, slug)] of a product. A filter on
    [categories.slug] applies to the embedded row, not to the product. *)
Definition embed (cats : list category) (slug_filter : option string) (p : product)
  : product * option category :=
  let c := find (fun c => String.eqb (c_id c) (p_category_id p)) cats in
  match slug_filter with
  | Some s => (p, match c with
                  | Some c' => if String.eqb (c_slug c') s then Some c' else None
                  | None => None
                  end)
  | None => (p, c)
  end.

Fixpoint insert_by (le : product -> product -> bool) (x : product) (l : list product)
  : list product :=
  match l with
  | [] => [x]
  | y :: r => if le x y then x :: l else y :: insert_by le x r
  end.

Definition sort_by (le : product -> product -> bool) (l : list product) : list product :=
  fold_right (insert_by le) [] l.

(** [.order("created_at", { ascending: false })], then the optional
    [.order("price", ...)] as a secondary key. *)
Definition order_le (sort : option string) (a b : product) : bool :=
  (p_created_at b <? p_created_at a)
  || ((p_created_at a =? p_created_at b)
      && match sort with
         | Some "price_asc" => p_price a <=? p_price b
         | Some "price_desc" => p_price b <=? p_price a
         | _ => true
         end).

Record products_query := mkQuery {
  q_category : option string; q_sort : option string;
  q_min_price : option Z; q_max_price : option Z; q_page : Z; q_limit : Z }.

(** GET /api/inventory; [queryError] is the outcome of the query. *)
Definition getAllProducts (q : products_query) (queryError : bool) (d : cdb) : cresp :=
  let rows := filter p_is_active (products d) in
  let rows := match q_min_price q with
              | Some m => filter (fun p => m <=? p_price p) rows
              | None => rows
              end in
  let rows := match q_max_price q with
              | Some m => filter (fun p => p_price p <=? m) rows
              | None => rows
              end in
  let rows := sort_by (order_le (q_sort q)) rows in
  let from := (q_page q - 1) * q_limit q in
  if queryError || (from <? 0) || (q_limit q <? 0) then CErr 500 "query failed"
  else
    Listing (map (embed (categories d) (q_category q))
                 (firstn (Z.to_nat (q_limit q)) (skipn (Z.to_nat from) rows)))
            (q_page q) (q_limit q).

(** GET /api/inventory/:category *)
Definition getByCategory (category : string) (catError productsError : bool) (d : cdb)
  : cresp :=
  match Otp.single (filter (fun c => String.eqb (c_slug c) category) (categories d)) with
  | Otp.QOk categoryData =>
      if catError then CErr 404 "Category not found"
      else if productsError then CErr 500 "query failed"
      else CategoryListing
             (sort_by (order_le None)
                (filter (fun p => p_is_active p
                                  && String.eqb (p_category_id p) (c_id categoryData))
                        (products d)))
             categoryData
  | Otp.QErr => CErr 404 "Category not found"
  end.

(** GET /api/inventory/:category/:slug *)
Definition getProductBySlug (slug : string) (queryError : bool) (d : cdb) : cresp :=
  match Otp.single (filter (fun p => String.eqb (p_slug p) slug && p_is_active p)
                           (products d)) with
  | Otp.QOk p =>
      if queryError then CErr 404 "Product not found"
      else ProductData p (snd (embed (categories d) None p))
  | Otp.QErr => CErr 404 "Product not found"
  end.

(** GET /api/inventory/featured *)
Definition getFeaturedProducts (queryError : bool) (d : cdb) : cresp :=
  if queryError then CErr 500 "query failed"
  else Featured (map (embed (categories d) None)
                     (firstn 8 (filter (fun p => p_is_active p && p_is_featured p)
                                       (products d)))).

(** Products a response hands out. *)
Definition returned (r : cresp) : list product :=
  match r with
  | Listing data _ _ => map fst data
  | CategoryListing data _ => data
  | ProductData p _ => [p]
  | Featured data => map fst data
  | CErr _ _ => []
  end.

End Catalog.

(** ** Sorted lists of products *)
Module CatalogSorted.
Import Catalog.

(** Every product is [le]-before the next one in the list. *)
Fixpoint adj_sorted (le : product -> product -> bool) (l : list product) : Prop :=
  match l with
  | [] => True
  | a :: r => match r with
              | [] => True
              | b :: _ => le a b = true /\ adj_sorted le r
              end
  end.

(** [y] is [le]-before the head of [l]. *)
Definition head_le (le : product -> product -> bool) (y : product) (l : list product) : Prop :=
  match l with [] => True | z :: _ => le y z = true end.

End CatalogSorted.

(** ** Retry helpers: [fetchWithRetry] (the Supabase client's fetch) and
    [withRetry] *)
Module Retry.
Import Js.

(** [s.includes(p)] *)
Fixpoint includes (s p : string) : bool :=
  String.prefix p s
  || match s with
     | EmptyString => false
     | String _ r => includes r p
     end.

(** [err?.message?.includes(p)]: [None] when the error has no message. *)
Definition msg_includes (m : option string) (p : string) : bool :=
  match m with
  | Some s => includes s p
  | None => false
  end.

(** *** [withRetry(fn, retries = 3, delayMs = 800)]

    [fn i] is what the call number [i] (from 0) of [fn] does: resolve with
    a value or reject with an error. *)
Inductive attempt (T : Type) := Ok (v : T) | Err (message : option string).
Arguments Ok {T} v.
Arguments Err {T} message.

Inductive retry_result (T : Type) :=
| Returned (v : T)
| Rethrown (message : option string)
| MaxRetries.   (** [throw new Error("Max retries reached")] *)
Arguments Returned {T} v.
Arguments Rethrown {T} message.
Arguments MaxRetries {T}.

Definition isSSLError (m : option string) : bool :=
  msg_includes m "525" || msg_includes m "SSL" || msg_includes m "handshake".

(** The loop from iteration [i], with [fuel] iterations left. The result,
    the number of calls of [fn], and the waits of [setTimeout] in order. *)
Fixpoint withRetry_loop {T} (fn : nat -> attempt T) (retries delayMs : Z)
  (i fuel : nat) : retry_result T * nat * list Z :=
  match fuel with
  | O => (MaxRetries, O, [])
  | S f =>
      match fn i with
      | Ok v => (Returned v, 1%nat, [])
      | Err m =>
          if (Z.of_nat i <? retries - 1) && isSSLError m
          then let '(r, n, ds) := withRetry_loop fn retries delayMs (S i) f in
               (r, S n, delayMs * Z.of_nat (S i) :: ds)
          else (Rethrown m, 1%nat, [])
      end
  end.

(** [for (let i = 0; i < retries; i++)] runs [retries] iterations. *)
Definition withRetry {T} (fn : nat -> attempt T) (retries delayMs : Z)
  : retry_result T * nat * list Z :=
  withRetry_loop fn retries delayMs 0 (Z.to_nat retries).

(** *** [fetchWithRetry(url, options, retries = 3, delayMs = 800)]

    [fetch_at k] is what the [fetch] of attempt [k] (from 1) does: answer
    with a status, or throw. *)
Inductive fetch_outcome := FResponse (status : Z) | FThrows (message : option string).

Inductive fetch_result :=
| Response (status : Z)
| FRethrown (message : option string)
| FailedAfterMax.   (** ["Supabase request failed after maximum retries"] *)

Definition retry_statuses : list Z := [500; 502; 503; 504; 525].

Definition isNetworkError (m : option string) : bool :=
  msg_includes m "SSL" || msg_includes m "525" || msg_includes m "handshake"
  || msg_includes m "ECONNRESET" || msg_includes m "fetch failed".

Fixpoint fetchWithRetry_loop (fetch_at : nat -> fetch_outcome) (retries delayMs : Z)
  (attempt fuel : nat) : fetch_result * nat * list Z :=
  match fuel with
  | O => (FailedAfterMax, O, [])
  | S f =>
      match fetch_at attempt with
      | FResponse s =>
          if existsb (Z.eqb s) retry_statuses && (Z.of_nat attempt <? retries)
          then let '(r, n, ds) := fetchWithRetry_loop fetch_at retries delayMs (S attempt) f in
               (r, S n, delayMs * Z.of_nat attempt :: ds)
          else (Response s, 1%nat, [])
      | FThrows m =>
          if isNetworkError m && (Z.of_nat attempt <? retries)
          then let '(r, n, ds) := fetchWithRetry_loop fetch_at retries delayMs (S attempt) f in
               (r, S n, delayMs * Z.of_nat attempt :: ds)
          else (FRethrown m, 1%nat, [])
      end
  end.

(** [for (let attempt = 1; attempt <= retries; attempt++)] *)
Definition fetchWithRetry (fetch_at : nat -> fetch_outcome) (retries delayMs : Z)
  : fetch_result * nat * list Z :=
  fetchWithRetry_loop fetch_at retries delayMs 1 (Z.to_nat retries).

(** An attempt [fetchWithRetry] retries after: a retryable status or a
    network error. *)
Definition retryable (o : fetch_outcome) : Prop :=
  (exists s, o = FResponse s /\ In s retry_statuses)
  \/ (exists m, o = FThrows m /\ isNetworkError m = true).

End Retry.

(** ** POST /api/contact *)
Module Contact.
Import Js.

(** A field of the JSON body: a string, or anything else (absent, a number,
    an object, ...). *)
Inductive field := FStr (s : string) | FOther.

Record contact_row := mkContact {
  cm_name : string; cm_email : string; cm_phone : string; cm_message : string }.

(** The [contact_messages] table and the outcome of the next inserts
    ([true]: the insert fails; an exhausted list means success). *)
Record contact_db := mkContactDb {
  contact_messages : list contact_row; insert_faults : list bool }.

Inductive contact_resp := ContactOk | ContactErr (status : Z) (error : string).

Definition pop_insert (d : contact_db) : bool * contact_db :=
  match insert_faults d with
  | [] => (false, d)
  | f :: r => (f, mkContactDb (contact_messages d) r)
  end.

Definition postContact (name email phone message : field) (d : contact_db)
  : contact_resp * contact_db :=
  match name, email, phone, message with
  | FStr n, FStr e, FStr p, FStr m =>
      if String.eqb (trim n) "" || String.eqb (trim e) "" || String.eqb (trim p) ""
         || String.eqb (trim m) ""
      then (ContactErr 400 "All fields are required", d)
      else
        let (error, d1) := pop_insert d in
        if error then (ContactErr 500 "Failed to save message", d1)
        else (ContactOk,
              mkContactDb (contact_messages d1 ++ [mkContact (trim n) (trim e) (trim p) (trim m)])
                          (insert_faults d1))
  | _, _, _, _ => (ContactErr 400 "All fields are required", d)
  end.

(** The row the handler stores: every field trimmed and not blank. *)
Definition clean_field (s : string) : Prop := trim s = s /\ s <> "".

Definition clean_row (r : contact_row) : Prop :=
  clean_field (cm_name r) /\ clean_field (cm_email r)
  /\ clean_field (cm_phone r) /\ clean_field (cm_message r).

End Contact.

(** ** [requireApiKey] (src/index.ts) *)
Module ApiKey.
Import Js.

Inductive key_result := KeyPass | KeyReject (status : Z) (message : string).

(** [key] is the [x-api-key] header, [API_SECRET_KEY] the variable of
    [process.env]. *)
Definition requireApiKey (key API_SECRET_KEY : option string) : key_result :=
  if negb (truthy key) || negb (Otp.opt_eqb key API_SECRET_KEY)
  then KeyReject 401 "Unauthorized"
  else KeyPass.

End ApiKey.

(** ** Admin panel: stats and orders (src/routes/adminRoutes.ts) *)
Module AdminOrders.
Import Js Payment.

Record stats := mkStats {
  total_orders : nat; total_revenue : Z; total_products : Z; pending_orders : nat }.

(** GET /stats. [ordersRes] is the [data] of the orders query ([None] when
    it fails), [productsCount] the [count] of the products query. The
    totals are numbers, so [Number(o.total_amount || 0)] is the total. *)
Definition getStats (ordersRes : option (list order_row)) (productsCount : option Z) : stats :=
  let orders := match ordersRes with Some l => l | None => [] end in
  let totalRevenue :=
    fold_left (fun sum o => sum + ord_total o)
              (filter (fun o => negb (String.eqb (ord_status o) "cancelled")) orders) 0 in
  mkStats (length orders) totalRevenue
          (match productsCount with Some c => c | None => 0 end)
          (length (filter (fun o => String.eqb (ord_status o) "pending") orders)).

Definition validStatuses : list string :=
  ["pending"; "confirmed"; "shipped"; "delivered"; "cancelled"].

Inductive order_resp :=
| OrderUpdated (order : order_row)
| InvalidStatus                (** 400 ["Invalid status"] *)
| OrderDbError.                (** 500 with the database's message *)

Definition set_status (id : nat) (s : string) (o : order_row) : order_row :=
  if Nat.eqb (ord_id o) id
  then mkOrder (ord_id o) (ord_user_id o) s (ord_total o) (ord_shipping o)
               (ord_razorpay_order_id o) (ord_razorpay_payment_id o)
  else o.

(** PUT /orders/:id/status. [id] is the row id the path names; the
    [updated_at] column is not part of the order rows modelled here. The
    update is [.update(..).eq("id", id).select().single()]: it fails when
    the call fails and when no row (or more than one) is updated. *)
Definition updateOrderStatus (id : nat) (status : option string) (d : pdb)
  : order_resp * pdb :=
  match status with
  | Some s =>
      if existsb (String.eqb s) validStatuses then
        let (error, d1) := pop_fault d in
        if error then (OrderDbError, d1)
        else
          let os := map (set_status id s) (orders d1) in
          let d2 := mkPdb os (order_items d1) (payments d1) (next_order_id d1)
                          (db_faults d1) (stock_updates d1) in
          match Otp.single (filter (fun o => Nat.eqb (ord_id o) id) os) with
          | Otp.QOk o => (OrderUpdated o, d2)
          | Otp.QErr => (OrderDbError, d2)
          end
      else (InvalidStatus, d)
  | None => (InvalidStatus, d)
  end.

(** What an order adds to the revenue of GET /stats. *)
Definition counted (o : order_row) : Z :=
  if String.eqb (ord_status o) "cancelled" then 0 else ord_total o.

(** Every order row has one of the statuses the admin panel accepts. *)
Definition statuses_valid (d : pdb) : Prop :=
  Forall (fun o => In (ord_status o) validStatuses) (orders d).

End AdminOrders.

(** ** Admin panel: products and images (src/routes/adminRoutes.ts) *)
Module AdminProducts.
Import Js.

(** *** The slug made from a name:
    [name.toLowerCase().replace(/\s+/g, "-").replace(/[^a-z0-9-]/g, "")] *)

(** [.replace(/\s+/g, "-")]; [in_ws] is set inside a run of whitespace. *)
Fixpoint dash_ws (in_ws : bool) (l : list ascii) : list ascii :=
  match l with
  | [] => []
  | c :: r =>
      if is_ws c
      then if in_ws then dash_ws true r else "-"%char :: dash_ws true r
      else c :: dash_ws false r
  end.

(** [[a-z0-9-]] *)
Definition slug_char (c : ascii) : bool :=
  let n := nat_of_ascii c in
  ((97 <=? n)%nat && (n <=? 122)%nat) || ((48 <=? n)%nat && (n <=? 57)%nat) || (n =? 45)%nat.

Definition slugify (name : string) : string :=
  string_of_list_ascii
    (filter slug_char (dash_ws false (list_ascii_of_string (toLowerCase name)))).

(** *** Rows

    A string field of the JSON body: absent ([undefined], dropped when the
    body is serialised), [null], or a string. Numbers of the body are
    numbers. *)
Inductive jstr := Undef | Null | JStr (s : string).

Definition jtruthy (j : jstr) : bool :=
  match j with JStr s => negb (String.eqb s "") | _ => false end.

(** The value an insert stores for a field ([null] when absent). *)
Definition col (j : jstr) : option string :=
  match j with JStr s => Some s | _ => None end.

(** The [images] field of the body: absent, [null], an array of urls, or
    another JSON value (a string, number, boolean or object). Of such a
    value the handlers only see whether it is truthy and whether
    [images.length > 0]; it has no [map] method. *)
Inductive images_val :=
| IUndef
| INull
| IArray (urls : list string)
| INonArray (truthy length_pos : bool).

Record product_body := mkProductBody {
  b_name : jstr; b_slug : jstr; b_category_id : jstr; b_brand : jstr;
  b_price : Z; b_compare_price : option Z; b_stock_qty : Z;
  b_description : jstr; b_specs : option (list (string * string));
  b_tags : option (list string); b_is_solar : option bool;
  b_is_featured : option bool; b_is_active : option bool;
  b_images : images_val }.

Record prow := mkProw {
  pr_id : nat; pr_name : option string; pr_slug : option string;
  pr_category_id : option string; pr_brand : string; pr_price : Z;
  pr_compare_price : option Z; pr_stock_qty : Z; pr_description : option string;
  pr_specs : list (string * string); pr_tags : list string; pr_is_solar : bool;
  pr_is_featured : bool; pr_is_active : bool; pr_updated_at : option Z }.

Record image_row := mkImage {
  im_product_id : nat; im_url : string; im_alt_text : option string; im_sort_order : Z }.

(** The [products] and [product_images] tables, the next product id, and
    the outcome of the next database calls ([true]: the call fails). *)
Record adb := mkAdb {
  products : list prow; product_images : list image_row; next_product_id : nat;
  afaults : list bool }.

Definition pop_call (d : adb) : bool * adb :=
  match afaults d with
  | [] => (false, d)
  | f :: r => (f, mkAdb (products d) (product_images d) (next_product_id d) r)
  end.

Inductive product_resp :=
| ProductSaved (status : Z) (p : prow)   (** 201 on create, 200 on update *)
| Deleted                                (** [{ success: true }] *)
| ProductDbError                         (** 500 with the database's message *)
| Unhandled.                             (** the handler throws: no response is sent *)

(** [brand || ""] *)
Definition brand_col (j : jstr) : string := match j with JStr s => s | _ => "" end.

(** [Boolean(x)] of an optional boolean field *)
Definition js_bool (b : option bool) : bool := match b with Some x => x | None => false end.

(** [compare_price ? Number(compare_price) : null] *)
Definition compare_col (c : option Z) : option Z :=
  match c with Some x => if x =? 0 then None else Some x | None => None end.

(** [images.map((url, index) => ({ product_id, url, alt_text: name, sort_order: index }))] *)
Fixpoint image_rows (pid : nat) (alt : option string) (idx : Z) (urls : list string)
  : list image_row :=
  match urls with
  | [] => []
  | u :: r => mkImage pid u alt idx :: image_rows pid alt (idx + 1) r
  end.

Definition insert_images (rows : list image_row) (d : adb) : adb :=
  let (error, d1) := pop_call d in
  if error then d1
  else mkAdb (products d1) (product_images d1 ++ rows) (next_product_id d1) (afaults d1).

Definition delete_images (pid : nat) (d : adb) : adb :=
  let (error, d1) := pop_call d in
  if error then d1
  else mkAdb (products d1)
             (filter (fun im => negb (Nat.eqb (im_product_id im) pid)) (product_images d1))
             (next_product_id d1) (afaults d1).

(** POST /products *)
Definition createProduct (body : product_body) (d : adb) : product_resp * adb :=
  let slug := if jtruthy (b_slug body) then Some (col (b_slug body))
              else match b_name body with
                   | JStr n => Some (Some (slugify n))
                   | _ => None   (* [productData.name.toLowerCase()] throws *)
                   end in
  match slug with
  | None => (Unhandled, d)
  | Some slug =>
      let (error, d1) := pop_call d in
      if error then (ProductDbError, d1)
      else
        let row := mkProw (next_product_id d1) (col (b_name body)) slug
                     (col (b_category_id body))
                     (brand_col (b_brand body))
                     (b_price body) (compare_col (b_compare_price body)) (b_stock_qty body)
                     (col (b_description body))
                     (match b_specs body with Some s => s | None => [] end)
                     (match b_tags body with Some t => t | None => [] end)
                     (js_bool (b_is_solar body)) (js_bool (b_is_featured body))
                     (match b_is_active body with Some false => false | _ => true end)
                     None in
        let d2 := mkAdb (products d1 ++ [row]) (product_images d1)
                        (S (next_product_id d1)) (afaults d1) in
        (* [if (images && images.length > 0)] *)
        match b_images body with
        | IArray ((_ :: _) as urls) =>
            (ProductSaved 201 row,
             insert_images (image_rows (pr_id row) (col (b_name body)) 0 urls) d2)
        | INonArray true true => (Unhandled, d2)   (* [images.map] is not a function *)
        | _ => (ProductSaved 201 row, d2)
        end
  end.

(** The value an update sets for a field: an absent field is not sent, so
    the column keeps its value. *)
Definition upd_col (j : jstr) (old : option string) : option string :=
  match j with Undef => old | Null => None | JStr s => Some s end.

Definition update_row (body : product_body) (now : Z) (p : prow) : prow :=
  mkProw (pr_id p) (upd_col (b_name body) (pr_name p)) (upd_col (b_slug body) (pr_slug p))
         (upd_col (b_category_id body) (pr_category_id p)) (brand_col (b_brand body))
         (b_price body) (compare_col (b_compare_price body)) (b_stock_qty body)
         (upd_col (b_description body) (pr_description p))
         (match b_specs body with Some s => s | None => [] end)
         (match b_tags body with Some t => t | None => [] end)
         (js_bool (b_is_solar body)) (js_bool (b_is_featured body))
         (match b_is_active body with Some false => false | _ => true end)
         (Some now).

(** PUT /products/:id; [now] is [new Date()]. *)
Definition updateProduct (id : nat) (body : product_body) (now : Z) (d : adb)
  : product_resp * adb :=
  let (error, d1) := pop_call d in
  if error then (ProductDbError, d1)
  else
    let ps := map (fun p => if Nat.eqb (pr_id p) id then update_row body now p else p)
                  (products d1) in
    let d2 := mkAdb ps (product_images d1) (next_product_id d1) (afaults d1) in
    match Otp.single (filter (fun p => Nat.eqb (pr_id p) id) ps) with
    | Otp.QErr => (ProductDbError, d2)
    | Otp.QOk p =>
        (* [if (images !== undefined)] *)
        match b_images body with
        | IUndef => (ProductSaved 200 p, d2)
        | INull => (Unhandled, delete_images id d2)   (* [images.length] of [null] throws *)
        | IArray urls =>
            let d3 := delete_images id d2 in
            match urls with
            | [] => (ProductSaved 200 p, d3)
            | _ :: _ =>
                (ProductSaved 200 p, insert_images (image_rows id (col (b_name body)) 0 urls) d3)
            end
        | INonArray _ length_pos =>
            let d3 := delete_images id d2 in
            if length_pos then (Unhandled, d3)   (* [images.map] is not a function *)
            else (ProductSaved 200 p, d3)
        end
    end.

(** DELETE /products/:id: the images first (result ignored), then the
    product. *)
Definition deleteProduct (id : nat) (d : adb) : product_resp * adb :=
  let d1 := delete_images id d in
  let (error, d2) := pop_call d1 in
  if error then (ProductDbError, d2)
  else (Deleted, mkAdb (filter (fun p => negb (Nat.eqb (pr_id p) id)) (products d2))
                       (product_images d2) (next_product_id d2) (afaults d2)).

(** *** POST /upload-image *)

(** [s.split(c)] *)
Fixpoint split_on (c : ascii) (l : list ascii) : list (list ascii) :=
  match l with
  | [] => [[]]
  | x :: r =>
      let segs := split_on c r in
      if Ascii.eqb x c then [] :: segs
      else match segs with
           | s :: ss => (x :: s) :: ss
           | [] => [[x]]
           end
  end.

(** [originalname.split(".").pop() || "jpg"] *)
Definition file_ext (originalname : string) : string :=
  let e := string_of_list_ascii (last (split_on "." (list_ascii_of_string originalname)) []) in
  if String.eqb e "" then "jpg" else e.

(** [`products/${Date.now()}-${Math.random().toString(36).slice(2)}.${ext}`];
    [rnd] is the random part. *)
Definition upload_path (now : Z) (rnd ext : string) : string :=
  "products/" ++ number_to_string now ++ "-" ++ rnd ++ "." ++ ext.

Record upload_file := mkFile { originalname : string; size : Z; mimetype : string }.

Inductive upload_resp :=
| Uploaded (url : string)
| NoFile         (** 400 ["No file provided"] *)
| TooLarge       (** multer's [LIMIT_FILE_SIZE] error, passed to [next] *)
| UploadError.   (** 500 with the storage error's message *)

Section Upload.

(** [getPublicUrl(path).data.publicUrl] *)
Variable publicUrl : string -> string.

(** [bucket] lists the paths stored in the [product-images] bucket;
    [fails] is the outcome of the storage call. With [upsert: false] an
    existing path is an error. *)
Definition uploadImage (file : option upload_file) (now : Z) (rnd : string)
  (bucket : list string) (fails : bool) : upload_resp * list string :=
  match file with
  | None => (NoFile, bucket)
  | Some f =>
      if 5 * 1024 * 1024 <? size f then (TooLarge, bucket)
      else
        let path := upload_path now rnd (file_ext (originalname f)) in
        if fails || existsb (String.eqb path) bucket then (UploadError, bucket)
        else (Uploaded (publicUrl path), (bucket ++ [path])%list)
  end.

End Upload.

(** The image rows of the products other than [id]. *)
Definition other_images (id : nat) (d : adb) : list image_row :=
  filter (fun im => negb (Nat.eqb (im_product_id im) id)) (product_images d).

(** The products other than [id]. *)
Definition other_products (id : nat) (d : adb) : list prow :=
  filter (fun p => negb (Nat.eqb (pr_id p) id)) (products d).

End AdminProducts.

(** * Sample data *)

(** A small shop used to run the handlers on concrete inputs. *)
Module Samples.
Import Js Otp OtpRun.

Definition customer : user_row :=
  mkUser "u1" (Some "ana@example.com") None (Some "Ana").

Definition pending_code : otp_row := mkOtp 0 "u1" "123456" 600000 false.

Definition shop_db : db :=
  mkDb [customer] [mkAdmin "a1" "boss@example.com" true "k1"] [pending_code] 1 [].

Definition calm_env : env := mkEnv [] [] 1000 "jwt-secret" "re_key".

Definition shop : world := mkWorld shop_db calm_env.

(** The same shop, unconfigured: [JWT_SECRET] is unset. *)
Definition shop_no_secret : world := mkWorld shop_db (mkEnv [] [] 1000 "" "re_key").

(** The same shop where the second database call (marking the code used)
    fails. *)
Definition shop_mark_fails : world :=
  mkWorld shop_db (mkEnv [Done; Fails] [] 1000 "jwt-secret" "re_key").

Definition login : verify_req := mkVerifyReq None (Some "u1") (Some "123456").

Definition short_login : verify_req := mkVerifyReq None (Some "u1") (Some "123").

Definition signup : send_req := mkSendReq (Some "new@example.com") None (Some "Bo").

(** An empty shop whose email provider fails: the user lookup, the user
    insert and the code upsert succeed, the Resend call fails. *)
Definition mail_down : world :=
  mkWorld (mkDb [] [] [] 0 []) (mkEnv [Done; Done; Done; Fails] [42] 1000 "jwt-secret" "re_key").

Definition stranger : admin_send_req := mkAdminSendReq (Some "Nobody@Example.com ").

Definition invalid_no_otp : admin_verify_req := mkAdminVerifyReq (Some "invalid") None.

Definition invalid_full : admin_verify_req := mkAdminVerifyReq (Some "invalid") (Some "123456").

(** Payments: a stand-in for the HMAC and a forged signature. *)
Definition toy_hmac (key msg : string) : string := (key ++ ":" ++ msg)%string.

Definition forged : Payment.verify_payment_req :=
  Payment.mkVPReq (Some "order_1") (Some "pay_1") (Some "forged")
    (Some (Payment.mkOrderData (Some "user_1") 499 "Pune" (Some []))).

Definition empty_pdb : Payment.pdb := Payment.mkPdb [] [] [] 0 [] [].

(** Admin guard: a verifier that accepts one token. *)
Definition toy_verify (tok secret : string) : option AdminGuard.AdminPayload :=
  if String.eqb tok "good"
  then Some (AdminGuard.mkPayload (Some "a1") (Some "boss@example.com") (Some "admin"))
  else None.

(** Catalog: one active and one hidden product. *)
Definition drone_cat : Catalog.category := Catalog.mkCategory "c1" "Drones" "drones".

Definition catalog : Catalog.cdb :=
  Catalog.mkCdb
    [Catalog.mkProduct "p1" "falcon" "Falcon" 4999 "c1" true true 2;
     Catalog.mkProduct "p2" "ghost" "Ghost" 2999 "c1" false false 1]
    [drone_cat].

End Samples.

(** More sample inputs: retries, a contact form, a paid order, products,
    an upload, the catalog and two wrong codes. *)
Module MoreSamples.
Import Js.

(** A call failing once with an SSL error, then returning 7. *)
Definition ssl_then_ok (i : nat) : Retry.attempt Z :=
  match i with O => Retry.Err (Some "SSL handshake failed") | _ => Retry.Ok 7 end.

(** A fetch answering 503 on the first attempt, then 200. *)
Definition busy_then_ok (k : nat) : Retry.fetch_outcome :=
  match k with 1%nat => Retry.FResponse 503 | _ => Retry.FResponse 200 end.

Definition empty_contacts : Contact.contact_db := Contact.mkContactDb [] [].

(** A paid order of one item, signed with the stand-in HMAC under key "k". *)
Definition paid : Payment.verify_payment_req :=
  Payment.mkVPReq (Some "order_1") (Some "pay_1") (Some (Samples.toy_hmac "k" "order_1|pay_1"))
    (Some (Payment.mkOrderData (Some "user_1") 499 "Pune" (Some [Some (Payment.mkItem "p1" 1 499)]))).

(** A product body with a name, no slug and two images. *)
Definition hawk : AdminProducts.product_body :=
  AdminProducts.mkProductBody (AdminProducts.JStr "Sky Hawk X") AdminProducts.Undef
    (AdminProducts.JStr "c1") (AdminProducts.JStr "Acme") 4999 None 3 AdminProducts.Undef
    None None None None None (AdminProducts.IArray ["a.jpg"; "b.jpg"]).

(** The same product with one new image. *)
Definition hawk_v2 : AdminProducts.product_body :=
  AdminProducts.mkProductBody (AdminProducts.JStr "Sky Hawk X") AdminProducts.Undef
    (AdminProducts.JStr "c1") (AdminProducts.JStr "Acme") 4599 None 3 AdminProducts.Undef
    None None None None None (AdminProducts.IArray ["c.jpg"]).

Definition empty_adb : AdminProducts.adb := AdminProducts.mkAdb [] [] 0 [].

(** The tables once [hawk] is created. *)
Definition hawk_adb : AdminProducts.adb := snd (AdminProducts.createProduct hawk empty_adb).

Definition photo : AdminProducts.upload_file := AdminProducts.mkFile "drone.photo.png" 1000 "image/png".

Definition cdn (path : string) : string := "https://cdn.example.com/" ++ path.

Definition first_page : Catalog.products_query :=
  Catalog.mkQuery None (Some "price_asc") None None 1 10.

Definition falcon : Catalog.product := Catalog.mkProduct "p1" "falcon" "Falcon" 4999 "c1" true true 2.

Definition wrong_code : Otp.verify_req := Otp.mkVerifyReq None (Some "u1") (Some "654321").

Definition admin_wrong_code : Otp.admin_verify_req :=
  Otp.mkAdminVerifyReq (Some "a1") (Some "654321").

End MoreSamples.

(** * Properties *)

(** ** Catalog *)
Module CatalogFacts.
Import Catalog.

Lemma in_insert_by (le : product -> product -> bool) (a x : product) (l : list product) :
  In x (insert_by le a l) <-> x = a \/ In x l.
Proof.
  induction l as [|y r IH]; simpl.
  - intuition congruence.
  - destruct (le a y); simpl; [intuition congruence|]. rewrite IH. intuition congruence.
Qed.

Lemma in_sort_by (le : product -> product -> bool) (x : product) (l : list product) :
  In x (sort_by le l) <-> In x l.
Proof.
  unfold sort_by. induction l as [|y r IH]; simpl; [tauto|].
  rewrite in_insert_by, IH. intuition congruence.
Qed.

Lemma in_firstn_l {A} (n : nat) (x : A) (l : list A) : In x (firstn n l) -> In x l.
Proof.
  intro H. rewrite <- (firstn_skipn n l). apply in_or_app. now left.
Qed.

Lemma in_skipn_l {A} (n : nat) (x : A) (l : list A) : In x (skipn n l) -> In x l.
Proof.
  intro H. rewrite <- (firstn_skipn n l). apply in_or_app. now right.
Qed.

Lemma map_fst_embed cats f (l : list product) : map fst (map (embed cats f) l) = l.
Proof.
  induction l as [|p r IH]; simpl; [reflexivity|].
  rewrite IH. unfold embed. destruct f; reflexivity.
Qed.

Lemma single_filter_in {A} (f : A -> bool) (l : list A) (x : A) :
  Otp.single (filter f l) = Otp.QOk x -> In x l /\ f x = true.
Proof.
  unfold Otp.single. destruct (filter f l) as [|y [|z r]] eqn:E; try discriminate.
  intro H; inversion H; subst. apply (filter_In f x l). rewrite E. now left.
Qed.

Lemma single_filter_nil {A} (f : A -> bool) (l : list A) :
  (forall x, In x l -> f x = false) -> Otp.single (filter f l) = Otp.QErr.
Proof.
  intro H. replace (filter f l) with (@nil A); [reflexivity|].
  induction l as [|y r IH]; simpl; [reflexivity|].
  rewrite (H y (or_introl eq_refl)). apply IH. intros x Hx. apply H. now right.
Qed.

(** C6: every public catalog read hands out active products only; an
    unknown category slug and a slug with no active product answer 404; the
    featured listing has at most 8 products. *)
Theorem public_catalog_active_only :
  (forall q e d p, In p (returned (getAllProducts q e d)) -> p_is_active p = true) /\
  (forall c e1 e2 d p, In p (returned (getByCategory c e1 e2 d)) -> p_is_active p = true) /\
  (forall s e d p, In p (returned (getProductBySlug s e d)) -> p_is_active p = true) /\
  (forall e d p, In p (returned (getFeaturedProducts e d)) -> p_is_active p = true) /\
  (forall c e1 e2 d, (forall cat, In cat (categories d) -> c_slug cat <> c) ->
     getByCategory c e1 e2 d = CErr 404 "Category not found") /\
  (forall s e d, (forall p, In p (products d) -> p_slug p = s -> p_is_active p = false) ->
     getProductBySlug s e d = CErr 404 "Product not found") /\
  (forall e d, (length (returned (getFeaturedProducts e d)) <= 8)%nat).
Proof.
  repeat split.
  - intros q e d p. unfold getAllProducts.
    destruct (_ || _ || _); simpl; [tauto|].
    rewrite map_fst_embed. intro H.
    apply in_firstn_l, in_skipn_l in H. apply in_sort_by in H.
    destruct (q_max_price q); [apply filter_In in H; destruct H as [H _]|];
    (destruct (q_min_price q); [apply filter_In in H; destruct H as [H _]|]);
    apply filter_In in H; tauto.
  - intros c e1 e2 d p. unfold getByCategory.
    destruct (Otp.single _); simpl; [|tauto].
    destruct e1, e2; simpl; try tauto.
    intro H. apply in_sort_by, filter_In in H. destruct H as [_ H].
    apply andb_prop in H. tauto.
  - intros s e d p. unfold getProductBySlug.
    destruct (Otp.single _) eqn:E; simpl; [|tauto].
    apply single_filter_in in E. destruct e; simpl; [tauto|].
    intros [<-|[]]. destruct E as [_ E]. apply andb_prop in E. tauto.
  - intros e d p. unfold getFeaturedProducts. destruct e; cbn -[firstn]; [tauto|].
    rewrite map_fst_embed. intro H. apply in_firstn_l, filter_In in H.
    destruct H as [_ H]. apply andb_prop in H. tauto.
  - intros c e1 e2 d H. unfold getByCategory.
    rewrite single_filter_nil; [reflexivity|].
    intros x Hx. apply String.eqb_neq. now apply H.
  - intros s e d H. unfold getProductBySlug.
    rewrite single_filter_nil; [reflexivity|].
    intros x Hx. destruct (String.eqb_spec (p_slug x) s) as [E|E]; simpl; [|reflexivity].
    now apply H.
  - intros e d. unfold getFeaturedProducts. destruct e; cbn -[firstn]; [lia|].
    rewrite map_fst_embed. apply firstn_le_length.
Qed.

(** An unknown category and a hidden product's slug both answer 404 on the
    sample catalog. *)
Lemma public_catalog_active_only_witness :
  getByCategory "boats" false false Samples.catalog = CErr 404 "Category not found"
  /\ getProductBySlug "ghost" false Samples.catalog = CErr 404 "Product not found".
Proof.
  destruct public_catalog_active_only as (_ & _ & _ & _ & Hc & Hs & _). split.
  - apply Hc. intros cat [<-|[]] E. cbv in E. discriminate E.
  - apply Hs. intros p [<-|[<-|[]]] E; cbv in E |- *; [discriminate E | reflexivity].
Defined.

End CatalogFacts.

(** ** Admin routes *)
Module AdminGuardFacts.
Import Js AdminGuard.


Lemma prefix_slice (p s : string) :
  String.prefix p s = true -> s = (p ++ slice (String.length p) s)%string.
Proof.
  revert s. induction p as [|a p IH]; intros s H; [reflexivity|].
  destruct s as [|b s]; simpl in H; [discriminate|].
  destruct (ascii_dec a b) as [<-|]; [|discriminate].
  simpl. f_equal. now apply IH.
Qed.

Lemma bearer_prefix (s : string) :
  startsWith s "Bearer " = true -> s = ("Bearer " ++ slice 7 s)%string.
Proof. apply prefix_slice. Qed.

Lemma bearer_token (tok : string) :
  startsWith ("Bearer " ++ tok) "Bearer " = true /\ slice 7 ("Bearer " ++ tok) = tok.
Proof. split; [destruct tok|]; reflexivity. Qed.

Lemma opt_eqb_some (a : option string) (b : string) :
  Otp.opt_eqb a (Some b) = true <-> a = Some b.
Proof.
  destruct a as [x|]; simpl; [|split; discriminate].
  split; intro H.
  - apply String.eqb_eq in H. congruence.
  - inversion H. apply String.eqb_refl.
Qed.

(** C5: on every route of the admin router, a request without a Bearer
    token that verifies against the secret and carries [role = "admin"] is
    answered 401 and the route handler does not run; with one, the rest of
    the chain runs with the decoded payload attached. *)
Theorem admin_routes_guarded :
  forall (jwt_verify : string -> string -> option AdminPayload) r authorization JWT_SECRET,
    In r admin_routes ->
    (forall p, carries_admin_token jwt_verify authorization JWT_SECRET p ->
       dispatch jwt_verify r authorization JWT_SECRET = Runs (tl (chain r)) (Some p)) /\
    ((~ exists p, carries_admin_token jwt_verify authorization JWT_SECRET p) ->
       exists e, dispatch jwt_verify r authorization JWT_SECRET = Responded 401 e).
Proof.
  intros jv r auth sec Hr.
  assert (Hc : exists rest, chain r = MAdminAuth :: rest).
  { simpl in Hr. repeat (destruct Hr as [<-|Hr]; [eexists; reflexivity|]). destruct Hr. }
  destruct Hc as [rest Hc].
  unfold dispatch. rewrite Hc. simpl tl. split.
  - intros p (tok & -> & Hv & Hrole). unfold adminAuth.
    rewrite (proj1 (bearer_token tok)), (proj2 (bearer_token tok)), Hv, Hrole.
    reflexivity.
  - intros Hn. unfold adminAuth.
    destruct auth as [a|]; [|eexists; reflexivity].
    destruct (startsWith a "Bearer ") eqn:Hs; [|eexists; reflexivity].
    destruct (jv (slice 7 a) (admin_secret sec)) as [p|] eqn:Hv; [|eexists; reflexivity].
    destruct (Otp.opt_eqb (pl_role p) (Some "admin")) eqn:Hrole; [|eexists; reflexivity].
    exfalso. apply Hn. exists p, (slice 7 a). repeat split.
    + now rewrite <- bearer_prefix.
    + exact Hv.
    + now apply opt_eqb_some.
Qed.

(** The sample token opens the stats route with its payload attached. *)
Lemma admin_routes_guarded_witness :
  dispatch Samples.toy_verify (mkRoute "GET" "/stats" [MAdminAuth; MHandler "stats"])
    (Some "Bearer good") "s"
  = Runs [MHandler "stats"] (Some (mkPayload (Some "a1") (Some "boss@example.com") (Some "admin"))).
Proof.
  refine (proj1 (admin_routes_guarded Samples.toy_verify _ (Some "Bearer good") "s" _) _ _).
  - left. reflexivity.
  - exists "good". split; [reflexivity | split; reflexivity].
Defined.

End AdminGuardFacts.

(** ** Payment verification *)
Module PaymentFacts.
Import Payment.

Lemma opt_eqb_some_l (e : string) (s : option string) :
  Otp.opt_eqb (Some e) s = true <-> s = Some e.
Proof.
  destruct s as [x|]; simpl; [|split; discriminate].
  split; intro H.
  - apply String.eqb_eq in H. congruence.
  - inversion H. apply String.eqb_refl.
Qed.

Lemma pop_fault_tables (d : pdb) :
  orders (snd (pop_fault d)) = orders d /\ order_items (snd (pop_fault d)) = order_items d
  /\ payments (snd (pop_fault d)) = payments d
  /\ next_order_id (snd (pop_fault d)) = next_order_id d.
Proof. unfold pop_fault. destruct (db_faults d); simpl; auto. Qed.

Lemma insert_item_orders (oid : nat) (d : pdb) (it : item) :
  orders (insert_item oid d it) = orders d.
Proof.
  unfold insert_item.
  destruct (pop_fault d) as [f1 d1] eqn:E1.
  pose proof (pop_fault_tables d) as T1. rewrite E1 in T1. simpl in T1.
  set (d2 := if f1 then d1 else _).
  destruct (pop_fault d2) as [f3 d3] eqn:E3.
  pose proof (pop_fault_tables d2) as T3. rewrite E3 in T3. simpl in T3.
  simpl. destruct T3 as [-> _]. subst d2. destruct f1; simpl; tauto.
Qed.

Lemma insert_items_orders (oid : nat) (items : list (option item)) :
  forall d, orders (snd (insert_items oid items d)) = orders d.
Proof.
  induction items as [|[it|] r IH]; intro d; cbn; [reflexivity| |reflexivity].
  rewrite IH. apply insert_item_orders.
Qed.

Lemma insert_items_thrown (oid : nat) (items : list (option item)) :
  forall d, fst (insert_items oid items d) = true <-> In None items.
Proof.
  induction items as [|[it|] r IH]; intro d; cbn.
  - split; [discriminate|tauto].
  - rewrite IH. split; [now right|]. intros [E|H]; [discriminate|exact H].
  - tauto.
Qed.

Lemma insert_items_ok (oid : nat) (items : list (option item)) :
  forall d, ~ In None items ->
  exists its, items = map Some its
              /\ insert_items oid items d = (false, fold_left (insert_item oid) its d).
Proof.
  induction items as [|[it|] r IH]; intros d Hn; cbn.
  - exists []. split; reflexivity.
  - destruct (IH (insert_item oid d it)) as (its & -> & E); [intro H; apply Hn; now right|].
    exists (it :: its). split; [reflexivity|exact E].
  - exfalso. apply Hn. now left.
Qed.

(** C2 (as amended): a signature that differs from the HMAC of
    [order_id|payment_id] gets 400 "Payment verification failed" and leaves
    every table unchanged. With a matching signature and an [orderData]
    object: when the orders insert fails the answer is 500 and no table
    changes; otherwise the orders row with status "confirmed" is inserted,
    and the answer is success with its id when [orderData.items] is
    iterable with no [null] element, 500 when it has a [null] element or is
    not iterable (the confirmed row stays). Without [orderData] the answer
    is 500 and nothing changes. *)
Theorem verify_payment_signature_gate :
  forall (hmac : string -> string -> string) key req d,
    (razorpay_signature req <> Some (expected_signature hmac key req) ->
       verifyPayment hmac key req d = (PaymentErr 400 "Payment verification failed", d)) /\
    (razorpay_signature req = Some (expected_signature hmac key req) ->
       (orderData req = None ->
          presp_status (fst (verifyPayment hmac key req d)) = 500
          /\ snd (verifyPayment hmac key req d) = d) /\
       (forall od, orderData req = Some od ->
          (fst (pop_fault d) = true ->
             presp_status (fst (verifyPayment hmac key req d)) = 500
             /\ orders (snd (verifyPayment hmac key req d)) = orders d
             /\ order_items (snd (verifyPayment hmac key req d)) = order_items d
             /\ payments (snd (verifyPayment hmac key req d)) = payments d) /\
          (fst (pop_fault d) = false ->
             orders (snd (verifyPayment hmac key req d))
               = (orders d ++ [mkOrder (next_order_id d) (od_userId od) "confirmed"
                                       (od_totalAmount od) (od_shippingAddress od)
                                       (razorpay_order_id req) (razorpay_payment_id req)])%list
             /\ (forall items, od_items od = Some items -> ~ In None items ->
                   fst (verifyPayment hmac key req d) = PaymentOk (next_order_id d))
             /\ (forall items, od_items od = Some items -> In None items ->
                   presp_status (fst (verifyPayment hmac key req d)) = 500)
             /\ (od_items od = None ->
                   presp_status (fst (verifyPayment hmac key req d)) = 500)))).
Proof.
  intros hmac key req d. split.
  - intro Hne. unfold verifyPayment.
    destruct (Otp.opt_eqb _ _) eqn:E.
    + apply opt_eqb_some_l in E. contradiction.
    + reflexivity.
  - intro Heq. unfold verifyPayment.
    assert (E : Otp.opt_eqb (Some (expected_signature hmac key req)) (razorpay_signature req) = true)
      by now apply opt_eqb_some_l.
    rewrite E. simpl negb. cbv iota. split.
    + intros ->. simpl. auto.
    + intros od ->.
      pose proof (pop_fault_tables d) as T.
      destruct (pop_fault d) as [f d1] eqn:Ep. simpl in T |- *.
      destruct T as (To & Ti & Tp & Tn). split.
      * intros ->. simpl. auto.
      * intros ->. rewrite Tn.
        destruct (od_items od) as [items|] eqn:Ei.
        -- set (d2 := mkPdb _ _ _ _ _ _).
           pose proof (insert_items_orders (next_order_id d) items d2) as Io.
           pose proof (insert_items_thrown (next_order_id d) items d2) as It.
           destruct (insert_items (next_order_id d) items d2) as [th d3] eqn:E3.
           cbn [fst snd] in Io, It.
           split; [|split; [|split]].
           ++ destruct th; cbn; [rewrite Io; cbn; now rewrite To|].
              pose proof (pop_fault_tables d3) as T3.
              destruct (pop_fault d3) as [f4 d4]. cbn in T3 |- *. destruct T3 as (T3o & _).
              destruct f4; cbn; rewrite T3o, Io; cbn; now rewrite To.
           ++ intros its [= <-] Hn.
              destruct th; [exfalso; apply Hn; now apply It|].
              cbn. destruct (pop_fault d3) as [f4 d4]. reflexivity.
           ++ intros its [= <-] Hn.
              destruct th; [reflexivity|]. apply It in Hn. discriminate.
           ++ discriminate.
        -- simpl. split; [now rewrite To|].
           split; [intros ? [=]|]. split; [intros ? [=]|reflexivity].
Qed.

(** C2 as stated fails: with a matching signature the orders row is not
    inserted and no success is reported when the orders insert fails. *)
Lemma verify_payment_claim_counterexample :
  ~ (exists (hmac : string -> string -> string) key,
       forall req d,
         razorpay_signature req = Some (expected_signature hmac key req) ->
         exists oid row,
           fst (verifyPayment hmac key req d) = PaymentOk oid
           /\ In row (orders (snd (verifyPayment hmac key req d)))
           /\ ord_id row = oid /\ ord_status row = "confirmed").
Proof.
  intros (hmac & key & H).
  set (req := mkVPReq (Some "order_1") (Some "pay_1")
                      (Some (hmac key "order_1|pay_1"))
                      (Some (mkOrderData (Some "user_1") 499 "Pune" (Some [])))).
  set (d := mkPdb [] [] [] 0 [true] []).
  destruct (H req d) as (oid & row & Hok & _); [reflexivity|].
  unfold verifyPayment, expected_signature in Hok. simpl in Hok.
  rewrite String.eqb_refl in Hok. simpl in Hok. discriminate.
Qed.

(** A forged signature is refused and nothing is written. *)
Lemma verify_payment_signature_gate_witness :
  verifyPayment Samples.toy_hmac "k" Samples.forged Samples.empty_pdb
  = (PaymentErr 400 "Payment verification failed", Samples.empty_pdb).
Proof.
  apply (proj1 (verify_payment_signature_gate Samples.toy_hmac "k" Samples.forged Samples.empty_pdb)).
  intro E. vm_compute in E. discriminate E.
Defined.

End PaymentFacts.

(** ** Decimal rendering of the OTP *)
Module DigitsFacts.
Import Js.

Lemma digit_char_value (d : Z) :
  0 <= d < 10 ->
  Z.of_nat (nat_of_ascii (digit_char d)) - 48 = d /\ is_digit (digit_char d) = true.
Proof.
  intros Hd. unfold digit_char, is_digit.
  rewrite nat_ascii_embedding by lia.
  split; [lia|]. apply andb_true_intro; split; apply Nat.leb_le; lia.
Qed.

Lemma digits_val_snoc (l : list ascii) (c : ascii) :
  digits_val (l ++ [c]) = digits_val l * 10 + (Z.of_nat (nat_of_ascii c) - 48).
Proof. unfold digits_val. now rewrite fold_left_app. Qed.

(** [digits_aux] writes the digits of [n] in front of [acc]. *)
Lemma digits_aux_value (fuel : nat) :
  forall n acc, 0 <= n < 10 ^ Z.of_nat fuel ->
  exists pre, digits_aux fuel n acc = (pre ++ acc)%list /\ digits_val pre = n
              /\ forallb is_digit pre = true.
Proof.
  induction fuel as [|f IH]; intros n acc Hn.
  - assert (n = 0) by (rewrite Z.pow_0_r in Hn; lia). subst n.
    exists []. split; [reflexivity|]. split; reflexivity.
  - pose proof (Z.mod_pos_bound n 10 ltac:(lia)) as Hm.
    destruct (digit_char_value (n mod 10) Hm) as [Hv Hd].
    cbn [digits_aux]. destruct (n <? 10) eqn:Hlt.
    + apply Z.ltb_lt in Hlt. exists [digit_char (n mod 10)].
      split; [reflexivity|]. cbn [forallb]. rewrite Hd. split; [|reflexivity].
      unfold digits_val. cbn [fold_left]. rewrite Hv. rewrite Z.mod_small; lia.
    + apply Z.ltb_ge in Hlt.
      assert (Hq : 0 <= n / 10 < 10 ^ Z.of_nat f).
      { split; [apply Z.div_pos; lia|]. apply Z.div_lt_upper_bound; [lia|].
        rewrite Nat2Z.inj_succ, Z.pow_succ_r in Hn; lia. }
      destruct (IH (n / 10) (digit_char (n mod 10) :: acc) Hq) as (pre & E & V & D).
      exists (pre ++ [digit_char (n mod 10)])%list.
      rewrite E, <- app_assoc. split; [reflexivity|].
      rewrite digits_val_snoc, V, Hv, forallb_app, D. cbn [forallb andb].
      rewrite Hd. split; [|reflexivity].
      pose proof (Z.div_mod n 10). lia.
Qed.

(** With [10^k <= n < 10^(k+1)], [digits_aux] writes [k+1] digits. *)
Lemma digits_aux_length (k : nat) :
  forall fuel n acc, (k < fuel)%nat ->
  (10 ^ Z.of_nat k <= n \/ k = 0%nat /\ 0 <= n) -> n < 10 ^ Z.of_nat (S k) ->
  length (digits_aux fuel n acc) = (S k + length acc)%nat.
Proof.
  induction k as [|k IH]; intros fuel n acc Hf Hlo Hhi;
    (destruct fuel as [|f]; [lia|]); cbn [digits_aux].
  - change (10 ^ Z.of_nat 1) with 10 in Hhi.
    replace (n <? 10) with true by (symmetry; apply Z.ltb_lt; lia).
    reflexivity.
  - assert (H10 : 10 <= 10 ^ Z.of_nat (S k)).
    { rewrite Nat2Z.inj_succ, Z.pow_succ_r by lia.
      pose proof (Z.pow_pos_nonneg 10 (Z.of_nat k) ltac:(lia) ltac:(lia)). lia. }
    destruct Hlo as [Hlo|[? _]]; [|discriminate].
    replace (n <? 10) with false by (symmetry; apply Z.ltb_ge; lia).
    rewrite (IH f (n / 10) _); [cbn [length]; lia|lia| |].
    + left. apply Z.div_le_lower_bound; [lia|].
      rewrite Nat2Z.inj_succ, Z.pow_succ_r in Hlo by lia. lia.
    + apply Z.div_lt_upper_bound; [lia|].
      rewrite (Nat2Z.inj_succ (S k)), Z.pow_succ_r in Hhi by lia. lia.
Qed.

Lemma length_string_of_list_ascii (l : list ascii) :
  String.length (string_of_list_ascii l) = length l.
Proof. induction l; simpl; congruence. Qed.

(** Fuel of [number_to_string]: enough for every positive [n]. *)
Lemma log2_fuel (n : Z) :
  0 < n -> n < 10 ^ Z.of_nat (S (Z.to_nat (Z.log2 n))).
Proof.
  intro Hn. destruct (Z.log2_spec n Hn) as [_ Hhi].
  rewrite Nat2Z.inj_succ, Z2Nat.id by apply Z.log2_nonneg.
  eapply Z.lt_le_trans; [exact Hhi|].
  apply Z.pow_le_mono_l. split; [lia|lia].
Qed.

Lemma six_digit_number (n : Z) :
  100000 <= n < 1000000 ->
  String.length (number_to_string n) = 6%nat
  /\ forallb is_digit (list_ascii_of_string (number_to_string n)) = true
  /\ digits_val (list_ascii_of_string (number_to_string n)) = n.
Proof.
  intros Hn. unfold number_to_string.
  replace (n <? 0) with false by (symmetry; apply Z.ltb_ge; lia).
  rewrite length_string_of_list_ascii, list_ascii_of_string_of_list_ascii.
  destruct (digits_aux_value (S (Z.to_nat (Z.log2 n))) n [])
    as (pre & E & V & D).
  { split; [lia|]. apply log2_fuel. lia. }
  rewrite E, app_nil_r. split; [|split; assumption].
  rewrite <- (app_nil_r pre), <- E.
  apply (digits_aux_length 5); [|left; cbn; lia|cbn; lia].
  assert (5 <= Z.log2 n).
  { apply Z.log2_le_pow2; lia. }
  lia.
Qed.

End DigitsFacts.

(** ** OTP issuance and verification *)
Module OtpFacts.
Import Js Otp OtpRun DigitsFacts.

Lemma randomInt_range (lo hi : Z) (w : world) :
  lo < hi -> lo <= fst (randomInt lo hi w) < hi.
Proof.
  intro H. unfold randomInt. destruct (rand (w_env w)) as [|r rs]; simpl; [lia|].
  pose proof (Z.mod_pos_bound r (hi - lo) ltac:(lia)). lia.
Qed.

Lemma generateOTP_value (w : world) :
  fst (generateOTP w) = number_to_string (fst (randomInt 100000 999999 w)).
Proof. unfold generateOTP, bind, ret. now destruct (randomInt _ _ w). Qed.

Lemma admin_otp_value (w : world) :
  fst (admin_otp w) = number_to_string (fst (randomInt 100000 999999 w)).
Proof. unfold admin_otp, bind, ret. now destruct (randomInt _ _ w). Qed.

Lemma drawn_otp_string (n : Z) :
  100000 <= n <= 999998 ->
  String.length (number_to_string n) = 6%nat
  /\ forallb is_digit (list_ascii_of_string (number_to_string n)) = true
  /\ number_to_string n <> "999999".
Proof.
  intro Hn. destruct (six_digit_number n ltac:(lia)) as (L & D & V).
  split; [exact L|]. split; [exact D|]. intro E.
  rewrite E in V. vm_compute in V. lia.
Qed.

(** C9: both generators draw an integer in [\[100000, 999998\]] and render
    it as six decimal digits, never "999999"; the customer verify-otp
    answers 400 to a missing OTP or one whose trimmed length is not 6. *)
Theorem otp_six_digits :
  (forall w, 100000 <= fst (randomInt 100000 999999 w) <= 999998
             /\ fst (generateOTP w) = number_to_string (fst (randomInt 100000 999999 w))
             /\ String.length (fst (generateOTP w)) = 6%nat
             /\ forallb is_digit (list_ascii_of_string (fst (generateOTP w))) = true
             /\ fst (generateOTP w) <> "999999") /\
  (forall w, fst (admin_otp w) = number_to_string (fst (randomInt 100000 999999 w))
             /\ String.length (fst (admin_otp w)) = 6%nat
             /\ forallb is_digit (list_ascii_of_string (fst (admin_otp w))) = true
             /\ fst (admin_otp w) <> "999999") /\
  (forall req w,
     (vr_otp req = None \/ exists s, vr_otp req = Some s /\ String.length (trim s) <> 6%nat) ->
     status (fst (verifyOTP req w)) = 400).
Proof.
  split; [|split].
  - intro w. pose proof (randomInt_range 100000 999999 w ltac:(lia)) as R.
    rewrite generateOTP_value.
    destruct (drawn_otp_string (fst (randomInt 100000 999999 w)) ltac:(lia)) as (L & D & N).
    repeat split; try assumption; lia.
  - intro w. pose proof (randomInt_range 100000 999999 w ltac:(lia)) as R.
    rewrite admin_otp_value.
    destruct (drawn_otp_string (fst (randomInt 100000 999999 w)) ltac:(lia)) as (L & D & N).
    repeat split; assumption.
  - intros req w H. unfold verifyOTP, bind, verifyOTP_target. cbv beta zeta.
    assert (Hb : negb (truthy (vr_otp req))
                 || negb (Nat.eqb (String.length (trim (opt_str (vr_otp req)))) 6) = true).
    { destruct H as [-> | (s & -> & Hs)]; [reflexivity|].
      cbn [opt_str]. apply Nat.eqb_neq in Hs. rewrite Hs. apply orb_true_r. }
    rewrite Hb. reflexivity.
Qed.


Lemma bind_eq {A B} (m : M A) (k : A -> M B) w a w1 :
  m w = (a, w1) -> bind m k w = k a w1.
Proof. intro H. unfold bind. now rewrite H. Qed.

Lemma touch_eq t w :
  touch t w = (fault_now (w_env w), mkWorld (log_query t (w_db w)) (pop_env (w_env w))).
Proof.
  destruct w as [d [fl rn clk jwt rk]].
  unfold touch, bind, get_db, put_db, next_outcome, ret, fault_now, pop_env, log_query.
  destruct fl as [|[] fl]; reflexivity.
Qed.

Lemma next_outcome_eq w :
  next_outcome w = (match faults (w_env w) with [] => Done | o :: _ => o end,
                    mkWorld (w_db w) (pop_env (w_env w))).
Proof. destruct w as [d [fl rn clk jwt rk]]. destruct fl; reflexivity. Qed.

Lemma fetch_and_check_eq t otp w :
  fetch_and_check t otp w =
  (if fault_now (w_env w) then FetchError
   else otp_decision (otp_codes (w_db w)) (clock (w_env w)) t otp,
   mkWorld (log_query "otp_codes" (w_db w)) (pop_env (w_env w))).
Proof.
  unfold fetch_and_check, otp_codes_latest_unused, otp_decision, bind, get_db, now, ret.
  rewrite touch_eq. cbv beta iota zeta.
  destruct (fault_now (w_env w)); [reflexivity|].
  cbn -[latest unused_of trim].
  destruct (latest _) as [r|]; [|reflexivity].
  cbn -[trim].
  destruct (o_expires_at r <? clock (w_env w)); [reflexivity|].
  destruct (negb _); reflexivity.
Qed.

Lemma mark_used_eq id w :
  otp_codes_mark_used id w =
  (fault_now (w_env w),
   mkWorld (if fault_now (w_env w) then log_query "otp_codes" (w_db w)
            else mkDb (users (w_db w)) (admin_users (w_db w))
                   (map (fun r => if Nat.eqb (o_id r) id
                                  then mkOtp (o_id r) (o_user_id r) (o_code r) (o_expires_at r) true
                                  else r) (otp_codes (w_db w)))
                   (next_id (w_db w)) ("otp_codes" :: queries (w_db w)))
           (pop_env (w_env w))).
Proof.
  unfold otp_codes_mark_used, bind, get_db, put_db, ret. rewrite touch_eq. cbv beta iota zeta.
  destruct (fault_now (w_env w)); reflexivity.
Qed.

Lemma upsert_eq uid code exp w :
  otp_codes_upsert uid code exp w =
  (fault_now (w_env w),
   mkWorld (if fault_now (w_env w) then log_query "otp_codes" (w_db w)
            else if existsb (of_user uid) (otp_codes (w_db w))
            then mkDb (users (w_db w)) (admin_users (w_db w))
                   (map (fun r => if of_user uid r then mkOtp (o_id r) uid code exp false else r)
                        (otp_codes (w_db w)))
                   (next_id (w_db w)) ("otp_codes" :: queries (w_db w))
            else mkDb (users (w_db w)) (admin_users (w_db w))
                   (otp_codes (w_db w) ++ [mkOtp (next_id (w_db w)) uid code exp false])
                   (S (next_id (w_db w))) ("otp_codes" :: queries (w_db w)))
           (pop_env (w_env w))).
Proof.
  unfold otp_codes_upsert, bind, get_db, put_db, ret. rewrite touch_eq. cbv beta iota zeta.
  destruct (fault_now (w_env w)); [reflexivity|].
  cbn.
  destruct (existsb _ _); reflexivity.
Qed.

Lemma insert_eq uid code exp w :
  otp_codes_insert uid code exp w =
  (fault_now (w_env w) || existsb (of_user uid) (otp_codes (w_db w)),
   mkWorld (if fault_now (w_env w) || existsb (of_user uid) (otp_codes (w_db w))
            then log_query "otp_codes" (w_db w)
            else mkDb (users (w_db w)) (admin_users (w_db w))
                   (otp_codes (w_db w) ++ [mkOtp (next_id (w_db w)) uid code exp false])
                   (S (next_id (w_db w))) ("otp_codes" :: queries (w_db w)))
           (pop_env (w_env w))).
Proof.
  unfold otp_codes_insert, bind, get_db, put_db, ret. rewrite touch_eq. cbv beta iota zeta.
  cbn.
  destruct (fault_now (w_env w) || existsb _ _); reflexivity.
Qed.

Lemma delete_user_eq uid w :
  otp_codes_delete_user uid w =
  (fault_now (w_env w),
   mkWorld (if fault_now (w_env w) then log_query "otp_codes" (w_db w)
            else mkDb (users (w_db w)) (admin_users (w_db w))
                   (filter (fun r => negb (of_user uid r)) (otp_codes (w_db w)))
                   (next_id (w_db w)) ("otp_codes" :: queries (w_db w)))
           (pop_env (w_env w))).
Proof.
  unfold otp_codes_delete_user, bind, get_db, put_db, ret. rewrite touch_eq. cbv beta iota zeta.
  destruct (fault_now (w_env w)); reflexivity.
Qed.

Lemma users_by_id_eq id w :
  users_by_id id w =
  (if fault_now (w_env w) then QErr
   else single (filter (fun u => String.eqb (u_id u) id) (users (w_db w))),
   mkWorld (log_query "users" (w_db w)) (pop_env (w_env w))).
Proof.
  unfold users_by_id, bind, get_db, ret. rewrite touch_eq. reflexivity.
Qed.

Lemma admin_users_by_id_eq id w :
  admin_users_by_id id w =
  (if fault_now (w_env w) then QErr
   else maybeSingle (filter (fun a => String.eqb (a_id a) id) (admin_users (w_db w))),
   mkWorld (log_query "admin_users" (w_db w)) (pop_env (w_env w))).
Proof.
  unfold admin_users_by_id, bind, get_db, ret. rewrite touch_eq. reflexivity.
Qed.

Lemma admin_users_by_email_eq email w :
  admin_users_by_email email w =
  (if fault_now (w_env w) then QErr
   else maybeSingle (filter (fun a => String.eqb (a_email a) email) (admin_users (w_db w))),
   mkWorld (log_query "admin_users" (w_db w)) (pop_env (w_env w))).
Proof.
  unfold admin_users_by_email, bind, get_db, ret. rewrite touch_eq. reflexivity.
Qed.

Lemma verifyOTP_resolved req w uid w1 :
  verifyOTP_target req w = (inr uid, w1) ->
  fst (verifyOTP req w) =
  if fault_now (w_env w1) then err 400 "No active OTP found. Please request a new one."
  else match otp_decision (otp_codes (w_db w1)) (clock (w_env w1)) uid (opt_str (vr_otp req)) with
  | FetchError | NoRecord => err 400 "No active OTP found. Please request a new one."
  | Expired => err 400 "OTP has expired. Please request a new one."
  | Mismatch => err 400 "Incorrect OTP. Please try again."
  | Passed rec =>
      if String.eqb (JWT_SECRET (w_env w1)) "" then err 500 "Verification failed"
      else if fault_now (pop_env (pop_env (w_env w1)))
      then err 500 "Verified but could not load user data"
      else match single (filter (fun u => String.eqb (u_id u) uid) (users (w_db w1))) with
           | QOk user =>
               mkResp 200 (Verified (jwt_sign [("userId", uid)] (JWT_SECRET (w_env w1)) "7d") user)
           | QErr => err 500 "Verified but could not load user data"
           end
  end.
Proof.
  intro H. unfold verifyOTP. rewrite (bind_eq _ _ _ _ _ H). cbv beta iota.
  rewrite (bind_eq _ _ _ _ _ (fetch_and_check_eq _ _ _)). cbv beta.
  destruct (fault_now (w_env w1)); [reflexivity|].
  destruct (otp_decision _ _ _ _) as [| | | |rec]; try reflexivity.
  rewrite (bind_eq _ _ _ _ _ (mark_used_eq _ _)). cbv beta.
  unfold bind at 1, config. cbv beta iota. cbn [w_env pop_env JWT_SECRET].
  destruct (String.eqb (JWT_SECRET (w_env w1)) ""); [reflexivity|].
  cbv zeta. rewrite (bind_eq _ _ _ _ _ (users_by_id_eq _ _)). cbv beta.
  cbn [w_env w_db].
  destruct (fault_now (pop_env (w_env w1))); cbn [users log_query w_db];
    (destruct (fault_now (pop_env (pop_env (w_env w1)))); [reflexivity|]);
    destruct (single _); reflexivity.
Qed.

Lemma adminVerifyOTP_resolved req w uid w1 :
  adminVerifyOTP_target req w = (inr uid, w1) ->
  fst (adminVerifyOTP req w) =
  if fault_now (w_env w1) then err 500 "Failed to verify OTP"
  else match otp_decision (otp_codes (w_db w1)) (clock (w_env w1)) uid (opt_str (av_otp req)) with
  | FetchError => err 500 "Failed to verify OTP"
  | NoRecord => err 400 "No active OTP found. Please request a new one."
  | Expired => err 400 "OTP has expired. Please request a new one."
  | Mismatch => err 400 "Incorrect OTP. Please try again."
  | Passed rec =>
      if fault_now (pop_env (pop_env (w_env w1))) then err 401 "Admin user not found"
      else match maybeSingle (filter (fun a => String.eqb (a_id a) uid) (admin_users (w_db w1))) with
           | QOk (Some a) =>
               mkResp 200
                 (AdminVerified
                    (jwt_sign [("userId", a_id a); ("email", a_email a); ("role", "admin")]
                       (if String.eqb (JWT_SECRET (w_env w1)) "" then "secret"
                        else JWT_SECRET (w_env w1)) "8h")
                    (a_email a))
           | _ => err 401 "Admin user not found"
           end
  end.
Proof.
  intro H. unfold adminVerifyOTP. rewrite (bind_eq _ _ _ _ _ H). cbv beta iota.
  rewrite (bind_eq _ _ _ _ _ (fetch_and_check_eq _ _ _)). cbv beta.
  destruct (fault_now (w_env w1)); [reflexivity|].
  destruct (otp_decision _ _ _ _) as [| | | |rec]; try reflexivity.
  rewrite (bind_eq _ _ _ _ _ (mark_used_eq _ _)). cbv beta.
  rewrite (bind_eq _ _ _ _ _ (admin_users_by_id_eq _ _)). cbv beta.
  cbn [w_env w_db].
  destruct (fault_now (pop_env (w_env w1))); cbn [admin_users log_query w_db];
    (destruct (fault_now (pop_env (pop_env (w_env w1)))); [reflexivity|]);
    (destruct (maybeSingle _) as [[a|]|]; [|reflexivity|reflexivity]);
    reflexivity.
Qed.

Lemma otp_decision_no_fetch os t u o : otp_decision os t u o <> FetchError.
Proof.
  unfold otp_decision. destruct (latest _); [|discriminate].
  destruct (_ <? _); [discriminate|]. destruct (negb _); discriminate.
Qed.

Lemma fault_now_nil e : faults e = [] -> fault_now e = false.
Proof. unfold fault_now. now intros ->. Qed.

Lemma pop_env_nil e : faults e = [] -> faults (pop_env e) = [].
Proof. unfold pop_env. cbn. now intros ->. Qed.

(** C1: a verification that resolves a user id succeeds (status 200, a
    signed token) only when the latest unused code of that user exists, has
    not expired and matches the trimmed submitted code; a failed check gives
    400, except for the admin endpoint when the code lookup itself errors
    (500). The converse needs more: with the checks passed, the customer
    endpoint still answers 500 when [JWT_SECRET] is empty or the user row
    cannot be loaded, and the admin endpoint answers 401 when the admin row
    is missing. *)
Theorem verify_otp_checks :
  (forall req w uid w1,
     verifyOTP_target req w = (inr uid, w1) ->
     let dec := otp_decision (otp_codes (w_db w1)) (clock (w_env w1)) uid (opt_str (vr_otp req)) in
     let res := fst (verifyOTP req w) in
     (status res = 200 ->
        (exists rec, dec = Passed rec)
        /\ exists user, resp_body res
                        = Verified (jwt_sign [("userId", uid)] (JWT_SECRET (w_env w1)) "7d") user)
     /\ ((forall rec, dec <> Passed rec) -> exists msg, res = err 400 msg)
     /\ (forall rec, dec = Passed rec -> faults (w_env w1) = [] -> JWT_SECRET (w_env w1) = "" ->
           res = err 500 "Verification failed")
     /\ (forall rec user, dec = Passed rec -> faults (w_env w1) = [] -> JWT_SECRET (w_env w1) <> "" ->
           filter (fun u => String.eqb (u_id u) uid) (users (w_db w1)) = [user] ->
           res = mkResp 200 (Verified (jwt_sign [("userId", uid)] (JWT_SECRET (w_env w1)) "7d") user))
     /\ (forall rec, dec = Passed rec -> faults (w_env w1) = [] -> JWT_SECRET (w_env w1) <> "" ->
           filter (fun u => String.eqb (u_id u) uid) (users (w_db w1)) = [] ->
           res = err 500 "Verified but could not load user data"))
  /\
  (forall req w uid w1,
     adminVerifyOTP_target req w = (inr uid, w1) ->
     let dec := otp_decision (otp_codes (w_db w1)) (clock (w_env w1)) uid (opt_str (av_otp req)) in
     let res := fst (adminVerifyOTP req w) in
     let secret := if String.eqb (JWT_SECRET (w_env w1)) "" then "secret" else JWT_SECRET (w_env w1) in
     (status res = 200 ->
        (exists rec, dec = Passed rec)
        /\ exists a, In a (admin_users (w_db w1)) /\ a_id a = uid
                     /\ resp_body res
                        = AdminVerified (jwt_sign [("userId", uid); ("email", a_email a); ("role", "admin")]
                                                  secret "8h") (a_email a))
     /\ (fault_now (w_env w1) = true -> res = err 500 "Failed to verify OTP")
     /\ (fault_now (w_env w1) = false -> (forall rec, dec <> Passed rec) -> exists msg, res = err 400 msg)
     /\ (forall rec a, dec = Passed rec -> faults (w_env w1) = [] ->
           filter (fun a => String.eqb (a_id a) uid) (admin_users (w_db w1)) = [a] ->
           res = mkResp 200 (AdminVerified (jwt_sign [("userId", uid); ("email", a_email a); ("role", "admin")]
                                                     secret "8h") (a_email a)))
     /\ (forall rec, dec = Passed rec -> faults (w_env w1) = [] ->
           filter (fun a => String.eqb (a_id a) uid) (admin_users (w_db w1)) = [] ->
           res = err 401 "Admin user not found")).
Proof.
  split.
  - intros req w uid w1 H. cbv zeta. rewrite (verifyOTP_resolved _ _ _ _ H).
    split; [|split; [|split; [|split]]].
    + destruct (fault_now (w_env w1)); [discriminate|].
      destruct (otp_decision _ _ _ _) as [| | | |rec]; try discriminate.
      destruct (String.eqb _ _); [discriminate|].
      destruct (fault_now (pop_env (pop_env (w_env w1)))); [discriminate|].
      destruct (single _) as [user|]; [|discriminate].
      intros _. split; [eauto | eexists; reflexivity].
    + intro Hn. destruct (fault_now (w_env w1)); [eauto|].
      destruct (otp_decision _ _ _ _) as [| | | |rec]; eauto.
      exfalso. exact (Hn rec eq_refl).
    + intros rec D Hf Hj. rewrite (fault_now_nil _ Hf), D, Hj. reflexivity.
    + intros rec user D Hf Hj Hu.
      rewrite (fault_now_nil _ Hf), D.
      rewrite (fault_now_nil _ (pop_env_nil _ (pop_env_nil _ Hf))), Hu.
      apply String.eqb_neq in Hj. rewrite Hj. reflexivity.
    + intros rec D Hf Hj Hu.
      rewrite (fault_now_nil _ Hf), D.
      rewrite (fault_now_nil _ (pop_env_nil _ (pop_env_nil _ Hf))), Hu.
      apply String.eqb_neq in Hj. rewrite Hj. reflexivity.
  - intros req w uid w1 H. cbv zeta. rewrite (adminVerifyOTP_resolved _ _ _ _ H).
    split; [|split; [|split; [|split]]].
    + destruct (fault_now (w_env w1)); [discriminate|].
      destruct (otp_decision _ _ _ _) as [| | | |rec]; try discriminate.
      destruct (fault_now (pop_env (pop_env (w_env w1)))); [discriminate|].
      destruct (filter (fun a => String.eqb (a_id a) uid) (admin_users (w_db w1))) as [|a [|b l]] eqn:Hf;
        try discriminate.
      intros _. split; [eauto|]. exists a.
      assert (Ha : In a (filter (fun a => String.eqb (a_id a) uid) (admin_users (w_db w1))))
        by (rewrite Hf; left; reflexivity).
      apply filter_In in Ha. destruct Ha as [Ha Hid]. apply String.eqb_eq in Hid.
      subst uid. auto.
    + intro F. rewrite F. reflexivity.
    + intros F Hn. rewrite F.
      destruct (otp_decision _ _ _ _) as [| | | |rec] eqn:D; eauto.
      * exfalso. exact (otp_decision_no_fetch _ _ _ _ D).
      * exfalso. exact (Hn rec eq_refl).
    + intros rec a D Hf Ha.
      rewrite (fault_now_nil _ Hf), D.
      rewrite (fault_now_nil _ (pop_env_nil _ (pop_env_nil _ Hf))), Ha.
      assert (Hin : In a (filter (fun a => String.eqb (a_id a) uid) (admin_users (w_db w1))))
        by (rewrite Ha; left; reflexivity).
      apply filter_In in Hin. destruct Hin as [_ Hid]. apply String.eqb_eq in Hid.
      subst uid. reflexivity.
    + intros rec D Hf Ha.
      rewrite (fault_now_nil _ Hf), D.
      rewrite (fault_now_nil _ (pop_env_nil _ (pop_env_nil _ Hf))), Ha.
      reflexivity.
Qed.

(** Frame lemmas: which calls leave [otp_codes] alone. *)
Lemma keeps_bind {A B} (m : M A) (k : A -> M B) :
  keeps_otp m -> (forall a, keeps_otp (k a)) -> keeps_otp (bind m k).
Proof.
  intros Hm Hk w. unfold bind. specialize (Hm w). destruct (m w) as [a w1].
  destruct (Hk a w1) as [E1 E2]. cbn in Hm. destruct Hm as [F1 F2]. split; congruence.
Qed.

Lemma keeps_ret {A} (a : A) : keeps_otp (ret a).
Proof. intro w. split; reflexivity. Qed.

Lemma keeps_touch t : keeps_otp (touch t).
Proof. intro w. rewrite touch_eq. split; reflexivity. Qed.

Lemma keeps_get_db : keeps_otp get_db.
Proof. intro w. split; reflexivity. Qed.

Lemma keeps_config : keeps_otp config.
Proof. intro w. split; reflexivity. Qed.

Lemma keeps_now : keeps_otp now.
Proof. intro w. split; reflexivity. Qed.

Lemma keeps_next_outcome : keeps_otp next_outcome.
Proof. intro w. rewrite next_outcome_eq. split; reflexivity. Qed.

Lemma keeps_randomInt lo hi : keeps_otp (randomInt lo hi).
Proof. intro w. unfold randomInt. destruct (rand (w_env w)); split; reflexivity. Qed.

Lemma keeps_resend : keeps_otp resend_emails_send.
Proof. exact keeps_next_outcome. Qed.

Lemma keeps_sendMail : keeps_otp transporter_sendMail.
Proof. exact keeps_next_outcome. Qed.

Create HintDb otp_frame.
#[local] Hint Resolve keeps_ret keeps_touch keeps_get_db keeps_config keeps_now
  keeps_next_outcome keeps_randomInt keeps_resend keeps_sendMail : otp_frame.

Ltac keeps_tac :=
  repeat (cbv beta zeta; match goal with
  | |- keeps_otp (bind _ _) => apply keeps_bind; [|intro]
  | |- keeps_otp (match ?x with _ => _ end) => destruct x
  | |- keeps_otp _ => solve [eauto with otp_frame]
  end).

Lemma keeps_users_update id name : keeps_otp (users_update_full_name id name).
Proof.
  intro w. unfold users_update_full_name, bind, get_db, put_db, ret. rewrite touch_eq.
  cbv beta iota zeta. destruct (fault_now (w_env w)); split; reflexivity.
Qed.

Lemma keeps_users_insert e p n : keeps_otp (users_insert e p n).
Proof.
  intro w. unfold users_insert, bind, get_db, put_db, ret. rewrite touch_eq.
  cbv beta iota zeta. destruct (fault_now (w_env w)); split; reflexivity.
Qed.

#[local] Hint Resolve keeps_users_update keeps_users_insert : otp_frame.

Lemma keeps_users_find e p : keeps_otp (users_find_email_or_phone e p).
Proof. unfold users_find_email_or_phone. keeps_tac. Qed.

Lemma keeps_users_by_email e : keeps_otp (users_by_email e).
Proof. unfold users_by_email. keeps_tac. Qed.

Lemma keeps_users_by_id i : keeps_otp (users_by_id i).
Proof. unfold users_by_id. keeps_tac. Qed.

Lemma keeps_admin_by_email e : keeps_otp (admin_users_by_email e).
Proof. unfold admin_users_by_email. keeps_tac. Qed.

Lemma keeps_admin_by_id i : keeps_otp (admin_users_by_id i).
Proof. unfold admin_users_by_id. keeps_tac. Qed.

Lemma keeps_fetch t o : keeps_otp (fetch_and_check t o).
Proof. intro w. rewrite fetch_and_check_eq. split; reflexivity. Qed.

#[local] Hint Resolve keeps_users_find keeps_users_by_email keeps_users_by_id
  keeps_admin_by_email keeps_admin_by_id keeps_fetch : otp_frame.

Lemma keeps_generateOTP : keeps_otp generateOTP.
Proof. unfold generateOTP. keeps_tac. Qed.

Lemma keeps_admin_otp : keeps_otp admin_otp.
Proof. unfold admin_otp. keeps_tac. Qed.

Lemma keeps_otpExpiresAt : keeps_otp otpExpiresAt.
Proof. unfold otpExpiresAt. keeps_tac. Qed.

#[local] Hint Resolve keeps_generateOTP keeps_admin_otp keeps_otpExpiresAt : otp_frame.

Lemma keeps_sendOTP_user r : keeps_otp (sendOTP_user r).
Proof. unfold sendOTP_user. keeps_tac. Qed.

Lemma keeps_verifyOTP_target r : keeps_otp (verifyOTP_target r).
Proof. unfold verifyOTP_target. keeps_tac. Qed.

Lemma keeps_adminVerifyOTP_target r : keeps_otp (adminVerifyOTP_target r).
Proof. unfold adminVerifyOTP_target. keeps_tac. Qed.

#[local] Hint Resolve keeps_sendOTP_user keeps_verifyOTP_target
  keeps_adminVerifyOTP_target : otp_frame.

Lemma preserves_bind P {A B} (m : M A) (k : A -> M B) :
  preserves P m -> (forall a, preserves P (k a)) -> preserves P (bind m k).
Proof. intros Hm Hk w HP. unfold bind. specialize (Hm w HP). destruct (m w) as [a w1]. now apply Hk. Qed.

Lemma preserves_ret P {A} (a : A) : preserves P (ret a).
Proof. intros w HP. exact HP. Qed.

Lemma keeps_preserves P {A} (m : M A) : otp_only P -> keeps_otp m -> preserves P m.
Proof. intros HP Hm w Hw. destruct (Hm w) as [E1 E2]. exact (HP w _ (eq_sym E1) (eq_sym E2) Hw). Qed.

Lemma preserves_apply P {A} (m : M A) w : preserves P m -> P w -> P (snd (m w)).
Proof. intros H. apply H. Qed.

Ltac pres_tac leaf :=
  repeat (cbv beta zeta; match goal with
  | |- preserves _ (bind _ _) => apply preserves_bind; [|intro]
  | |- preserves _ (ret _) => apply preserves_ret
  | |- preserves _ (match ?x with _ => _ end) => destruct x
  | |- preserves _ _ => solve [leaf | apply keeps_preserves; [assumption | eauto with otp_frame]]
  end).

Lemma latest_in l r : latest l = Some r -> In r l.
Proof.
  unfold latest.
  assert (G : forall acc, fold_left (fun acc r => match acc with
                                | None => Some r
                                | Some b => if o_expires_at b <? o_expires_at r then Some r else acc
                                end) l acc = Some r -> acc = Some r \/ In r l).
  { induction l as [|x l IH]; intros acc H; [now left|].
    cbn in H. apply IH in H. destruct H as [H|H]; [|right; now right].
    destruct acc as [b|].
    - destruct (o_expires_at b <? o_expires_at x); [right; left; congruence|now left].
    - right; left; congruence. }
  intro H. destruct (G None H) as [E|E]; [discriminate|exact E].
Qed.

Lemma decision_passed os t uid o rec :
  otp_decision os t uid o = Passed rec ->
  In rec os /\ o_user_id rec = uid /\ o_used rec = false
  /\ t <= o_expires_at rec /\ trim (o_code rec) = trim o.
Proof.
  unfold otp_decision. destruct (latest (unused_of uid os)) as [r|] eqn:L; [|discriminate].
  destruct (o_expires_at r <? t) eqn:T; [discriminate|].
  destruct (negb (String.eqb (trim (o_code r)) (trim o))) eqn:C; [discriminate|].
  intro E. injection E as <-.
  apply latest_in in L. unfold unused_of in L. apply filter_In in L.
  destruct L as [Hin Hb]. apply andb_true_iff in Hb. destruct Hb as [Hu Hn].
  unfold of_user in Hu. apply String.eqb_eq in Hu. apply negb_true_iff in Hn.
  apply Z.ltb_ge in T. apply negb_false_iff, String.eqb_eq in C. auto.
Qed.

Lemma consumed_otp_only x u : otp_only (consumed x u).
Proof. intros w w' E1 E2 [H1 H2]. unfold consumed. rewrite <- E1, <- E2. auto. Qed.

Lemma mark_used_consumed x u id : preserves (consumed x u) (otp_codes_mark_used id).
Proof.
  intros w [Hn Hr]. rewrite mark_used_eq. unfold consumed. cbn [snd w_db].
  destruct (fault_now (w_env w)); [exact (conj Hn Hr)|].
  split; [exact Hn|]. cbn [otp_codes]. intros r Hin Hid.
  apply in_map_iff in Hin. destruct Hin as (r0 & <- & Hin).
  destruct (Nat.eqb (o_id r0) id); cbn in *; [|now apply Hr].
  split; [|reflexivity]. now apply Hr.
Qed.

Lemma delete_consumed x u uid : preserves (consumed x u) (otp_codes_delete_user uid).
Proof.
  intros w [Hn Hr]. rewrite delete_user_eq. unfold consumed. cbn [snd w_db].
  destruct (fault_now (w_env w)); [exact (conj Hn Hr)|].
  split; [exact Hn|]. cbn [otp_codes]. intros r Hin Hid.
  apply filter_In in Hin. now apply Hr.
Qed.

Lemma insert_consumed x u uid c e : preserves (consumed x u) (otp_codes_insert uid c e).
Proof.
  intros w [Hn Hr]. rewrite insert_eq. unfold consumed. cbn [snd w_db].
  destruct (fault_now (w_env w) || existsb (of_user uid) (otp_codes (w_db w)));
    [exact (conj Hn Hr)|].
  cbn [next_id otp_codes]. split; [lia|]. intros r Hin Hid.
  apply in_app_or in Hin. destruct Hin as [Hin|[<-|[]]]; [now apply Hr|].
  cbn in Hid. lia.
Qed.

Lemma upsert_consumed_at x u uid c e w :
  consumed x u w ->
  (uid <> u \/ fault_now (w_env w) = true \/ existsb (of_user uid) (otp_codes (w_db w)) = false) ->
  consumed x u (snd (otp_codes_upsert uid c e w)).
Proof.
  intros [Hn Hr] Hc. rewrite upsert_eq. unfold consumed. cbn [snd w_db].
  destruct (fault_now (w_env w)) eqn:F; [exact (conj Hn Hr)|].
  destruct (existsb (of_user uid) (otp_codes (w_db w))) eqn:X; cbn [next_id otp_codes].
  - assert (Hu : uid <> u) by (destruct Hc as [Hc|[Hc|Hc]]; [exact Hc|discriminate|discriminate]).
    split; [exact Hn|]. intros r Hin Hid.
    apply in_map_iff in Hin. destruct Hin as (r0 & <- & Hin).
    destruct (of_user uid r0) eqn:Ho; [|now apply Hr].
    cbn in Hid. destruct (Hr r0 Hin Hid) as [Hu0 _].
    unfold of_user in Ho. apply String.eqb_eq in Ho. congruence.
  - split; [lia|]. intros r Hin Hid.
    apply in_app_or in Hin. destruct Hin as [Hin|[<-|[]]]; [now apply Hr|].
    cbn in Hid. lia.
Qed.

Lemma step_consumed x u o w :
  rearms o w u = false -> consumed x u w -> consumed x u (step o w).
Proof.
  intros Hre Hc. pose proof (consumed_otp_only x u) as HP.
  destruct o as [r|r|r|r|e]; cbn [step].
  - unfold rearms in Hre. unfold sendOTP, bind at 1.
    pose proof (keeps_preserves _ _ HP (keeps_sendOTP_user r) w Hc) as Hc1.
    destruct (sendOTP_user r w) as [v w1]. cbn [fst snd] in Hc1.
    destruct v as [resp|[[user otp] expires]]; [exact Hc1|].
    unfold bind at 1.
    pose proof (upsert_consumed_at x u (u_id user) otp expires w1 Hc1) as Hc2.
    destruct (otp_codes_upsert (u_id user) otp expires w1) as [b w2]. cbn [snd] in Hc2.
    assert (Hc3 : consumed x u w2).
    { apply Hc2.
      destruct (String.eqb (u_id user) u) eqn:Eu.
      - cbn in Hre. destruct (fault_now (w_env w1)); [now (right; left)|].
        right; right. destruct (existsb _ _); [discriminate|reflexivity].
      - left. intro E. rewrite E, String.eqb_refl in Eu. discriminate. }
    clear Hc2 Hc1. revert w2 Hc3. change (preserves (consumed x u) (
      if b then ret (err 500 "Failed to store OTP")
      else if truthy (sr_email r) then
        cfg <- config ;;
        if String.eqb (RESEND_API_KEY cfg) "" then ret (mkResp 200 (OtpSent (u_id user)))
        else
          o <- resend_emails_send ;;
          match o with
          | Done => ret (mkResp 200 (OtpSent (u_id user)))
          | Fails => ret (err 500 "Email delivery failed")
          | Throws => ret (err 500 "Email service error")
          end
      else ret (mkResp 200 (OtpSent (u_id user))))).
    pres_tac fail.
  - apply (preserves_apply _ _ w); [|exact Hc]. unfold verifyOTP.
    pres_tac ltac:(apply mark_used_consumed).
  - apply (preserves_apply _ _ w); [|exact Hc]. unfold adminSendOTP.
    pres_tac ltac:(first [apply delete_consumed | apply insert_consumed]).
  - apply (preserves_apply _ _ w); [|exact Hc]. unfold adminVerifyOTP.
    pres_tac ltac:(apply mark_used_consumed).
  - exact Hc.
Qed.

Lemma accepted_row_cases o w rec :
  accepted_row o w = Some rec ->
  (exists r uid w1, o = CustVerify r /\ verifyOTP_target r w = (inr uid, w1)
     /\ fault_now (w_env w1) = false
     /\ otp_decision (otp_codes (w_db w1)) (clock (w_env w1)) uid (opt_str (vr_otp r)) = Passed rec)
  \/ (exists r uid w1, o = AdminVerify r /\ adminVerifyOTP_target r w = (inr uid, w1)
     /\ fault_now (w_env w1) = false
     /\ otp_decision (otp_codes (w_db w1)) (clock (w_env w1)) uid (opt_str (av_otp r)) = Passed rec).
Proof.
  destruct o as [r|r|r|r|e]; cbn [accepted_row]; try discriminate.
  - destruct (verifyOTP_target r w) as [[resp|uid] w1] eqn:E; [discriminate|].
    rewrite fetch_and_check_eq. cbn [fst].
    destruct (fault_now (w_env w1)) eqn:F; [discriminate|].
    destruct (otp_decision _ _ _ _) eqn:D; try discriminate.
    intro H. injection H as <-. left. eauto 10.
  - destruct (adminVerifyOTP_target r w) as [[resp|uid] w1] eqn:E; [discriminate|].
    rewrite fetch_and_check_eq. cbn [fst].
    destruct (fault_now (w_env w1)) eqn:F; [discriminate|].
    destruct (otp_decision _ _ _ _) eqn:D; try discriminate.
    intro H. injection H as <-. right. eauto 10.
Qed.

Lemma accepted_not_consumed x u o w rec :
  consumed x u w -> accepted_row o w = Some rec -> o_id rec <> x.
Proof.
  intros Hc Hacc Hid. pose proof (consumed_otp_only x u) as HP.
  destruct (accepted_row_cases _ _ _ Hacc)
    as [(r & uid & w1 & -> & E & F & D) | (r & uid & w1 & -> & E & F & D)].
  - pose proof (keeps_preserves _ _ HP (keeps_verifyOTP_target r) w Hc) as Hc1.
    rewrite E in Hc1. cbn [snd] in Hc1. destruct Hc1 as [_ Hr].
    destruct (decision_passed _ _ _ _ _ D) as (Hin & _ & Hused & _).
    destruct (Hr rec Hin Hid) as [_ Ht]. congruence.
  - pose proof (keeps_preserves _ _ HP (keeps_adminVerifyOTP_target r) w Hc) as Hc1.
    rewrite E in Hc1. cbn [snd] in Hc1. destruct Hc1 as [_ Hr].
    destruct (decision_passed _ _ _ _ _ D) as (Hin & _ & Hused & _).
    destruct (Hr rec Hin Hid) as [_ Ht]. congruence.
Qed.

Lemma consumed_not_reaccepted x u ops :
  forall w, consumed x u w -> ~ reaccepted x u ops w.
Proof.
  induction ops as [|o ops IH]; intros w Hc; cbn [reaccepted]; [tauto|].
  intros [(rec & Hacc & Hid) | (Hre & Hr)].
  - exact (accepted_not_consumed _ _ _ _ _ Hc Hacc Hid).
  - exact (IH _ (step_consumed _ _ _ _ Hre Hc) Hr).
Qed.

Lemma NoDup_map_in {A B} (f : A -> B) (l : list A) a b :
  NoDup (map f l) -> In a l -> In b l -> f a = f b -> a = b.
Proof.
  induction l as [|c l IH]; intros Hd Ha Hb E; [destruct Ha|].
  cbn in Hd. inversion Hd as [|? ? Hn Hd']; subst.
  destruct Ha as [<-|Ha], Hb as [<-|Hb]; auto.
  - exfalso. apply Hn. rewrite E. now apply in_map.
  - exfalso. apply Hn. rewrite <- E. now apply in_map.
Qed.

Lemma mark_accepted_consumed d rec us ads qs e :
  ids_wf d -> In rec (otp_codes d) ->
  consumed (o_id rec) (o_user_id rec)
    (mkWorld (mkDb us ads
               (map (fun r => if Nat.eqb (o_id r) (o_id rec)
                              then mkOtp (o_id r) (o_user_id r) (o_code r) (o_expires_at r) true
                              else r) (otp_codes d))
               (next_id d) qs) e).
Proof.
  intros [Hnd Hlt] Hin. unfold consumed. cbn [w_db otp_codes next_id]. split.
  - rewrite Forall_forall in Hlt. exact (Hlt rec Hin).
  - intros r Hr Hid. apply in_map_iff in Hr. destruct Hr as (r0 & <- & Hr0).
    destruct (Nat.eqb (o_id r0) (o_id rec)) eqn:Ek.
    + apply Nat.eqb_eq in Ek. cbn.
      rewrite (NoDup_map_in _ _ _ _ Hnd Hr0 Hin Ek). auto.
    + apply Nat.eqb_neq in Ek. contradiction.
Qed.

Lemma users_by_email_nil e : preserves (fun w => faults (w_env w) = []) (users_by_email e).
Proof.
  intros w H. unfold users_by_email, bind, get_db, ret. rewrite touch_eq.
  cbn. rewrite H. reflexivity.
Qed.

Lemma verify_target_nil r : preserves (fun w => faults (w_env w) = []) (verifyOTP_target r).
Proof. unfold verifyOTP_target. pres_tac ltac:(apply users_by_email_nil). Qed.

Lemma ids_wf_otp_only : otp_only (fun w => ids_wf (w_db w)).
Proof. intros w w' E1 E2. unfold ids_wf. now rewrite E1, E2. Qed.

(** C3: when a request is accepted on a code row, and the database calls of
    that request succeed, the row ends up marked used and no later sequence
    of requests is accepted on that row again before a customer send-otp
    re-arms it, i.e. its upsert succeeds and rewrites that user's row. *)
Theorem otp_consumed_once :
  forall o w rec,
    ids_wf (w_db w) -> faults (w_env w) = [] -> accepted_row o w = Some rec ->
    consumed (o_id rec) (o_user_id rec) (step o w)
    /\ forall ops, ~ reaccepted (o_id rec) (o_user_id rec) ops (step o w).
Proof.
  intros o w rec Hwf Hf Hacc.
  enough (Hc : consumed (o_id rec) (o_user_id rec) (step o w))
    by (split; [exact Hc | intro ops; exact (consumed_not_reaccepted _ _ ops _ Hc)]).
  pose proof (consumed_otp_only (o_id rec) (o_user_id rec)) as HP.
  destruct (accepted_row_cases _ _ _ Hacc)
    as [(r & uid & w1 & -> & E & F & D) | (r & uid & w1 & -> & E & F & D)].
  - pose proof (keeps_preserves _ _ ids_wf_otp_only (keeps_verifyOTP_target r) w Hwf) as Hwf1.
    pose proof (verify_target_nil r w Hf) as Hf1. rewrite E in Hwf1, Hf1. cbn [snd] in Hwf1, Hf1.
    destruct (decision_passed _ _ _ _ _ D) as (Hin & _).
    cbn [step]. unfold verifyOTP. rewrite (bind_eq _ _ _ _ _ E). cbv beta iota.
    rewrite (bind_eq _ _ _ _ _ (fetch_and_check_eq _ _ _)). cbv beta. rewrite F, D. cbv iota.
    rewrite (bind_eq _ _ _ _ _ (mark_used_eq _ _)). cbv beta.
    apply (preserves_apply (consumed (o_id rec) (o_user_id rec))); [pres_tac fail|].
    cbn [w_env w_db]. rewrite (fault_now_nil _ (pop_env_nil _ Hf1)).
    apply mark_accepted_consumed; assumption.
  - pose proof (keeps_preserves _ _ ids_wf_otp_only (keeps_adminVerifyOTP_target r) w Hwf) as Hwf1.
    assert (Ew : w1 = w).
    { revert E. unfold adminVerifyOTP_target. cbv zeta.
      repeat match goal with |- context [if ?b then _ else _] => destruct b end;
        unfold ret; intro E; congruence. }
    subst w1. rewrite E in Hwf1. cbn [snd] in Hwf1.
    destruct (decision_passed _ _ _ _ _ D) as (Hin & _).
    cbn [step]. unfold adminVerifyOTP. rewrite (bind_eq _ _ _ _ _ E). cbv beta iota.
    rewrite (bind_eq _ _ _ _ _ (fetch_and_check_eq _ _ _)). cbv beta. rewrite F, D. cbv iota.
    rewrite (bind_eq _ _ _ _ _ (mark_used_eq _ _)). cbv beta.
    apply (preserves_apply (consumed (o_id rec) (o_user_id rec))); [pres_tac fail|].
    cbn [w_env w_db]. rewrite (fault_now_nil _ (pop_env_nil _ Hf)).
    apply mark_accepted_consumed; assumption.
Qed.

Lemma one_row_otp_only : otp_only (fun w => one_row_per_user (w_db w)).
Proof. intros w w' E1 E2. unfold one_row_per_user. now rewrite E1. Qed.

Lemma NoDup_map_filter {A B} (g : A -> B) (p : A -> bool) (l : list A) :
  NoDup (map g l) -> NoDup (map g (filter p l)).
Proof.
  induction l as [|a l IH]; intro Hd; cbn; [constructor|].
  cbn in Hd. inversion Hd as [|? ? Hn Hd']; subst.
  destruct (p a); cbn; [|now apply IH].
  constructor; [|now apply IH].
  intro Hin. apply Hn. apply in_map_iff in Hin. destruct Hin as (b & Eb & Hb).
  apply filter_In in Hb. rewrite <- Eb. apply in_map. tauto.
Qed.

Lemma not_existsb_user uid os :
  existsb (of_user uid) os = false -> ~ In uid (map o_user_id os).
Proof.
  intros He Hin. apply in_map_iff in Hin. destruct Hin as (r & Er & Hr).
  assert (Ht : existsb (of_user uid) os = true).
  { apply existsb_exists. exists r. split; [exact Hr|]. unfold of_user. rewrite Er. apply String.eqb_refl. }
  congruence.
Qed.

Lemma NoDup_snoc_user os r :
  NoDup (map o_user_id os) -> existsb (of_user (o_user_id r)) os = false ->
  NoDup (map o_user_id (os ++ [r])).
Proof.
  intros Hd He. rewrite map_app. cbn.
  apply NoDup_app; [exact Hd | repeat constructor; intros [] | ].
  intros x Hx [Ex|[]]. subst x. exact (not_existsb_user _ _ He Hx).
Qed.

Lemma mark_used_one_row id : preserves (fun w => one_row_per_user (w_db w)) (otp_codes_mark_used id).
Proof.
  intros w Hd. rewrite mark_used_eq. cbn [snd w_db].
  destruct (fault_now (w_env w)); [exact Hd|]. unfold one_row_per_user. cbn [otp_codes].
  rewrite map_map. erewrite map_ext; [exact Hd|]. intro r. now destruct (Nat.eqb _ _).
Qed.

Lemma delete_one_row uid : preserves (fun w => one_row_per_user (w_db w)) (otp_codes_delete_user uid).
Proof.
  intros w Hd. rewrite delete_user_eq. cbn [snd w_db].
  destruct (fault_now (w_env w)); [exact Hd|]. unfold one_row_per_user. cbn [otp_codes].
  now apply NoDup_map_filter.
Qed.

Lemma insert_one_row uid c e : preserves (fun w => one_row_per_user (w_db w)) (otp_codes_insert uid c e).
Proof.
  intros w Hd. rewrite insert_eq. cbn [snd w_db].
  destruct (fault_now (w_env w)) eqn:F; [exact Hd|].
  destruct (existsb (of_user uid) (otp_codes (w_db w))) eqn:He; [exact Hd|].
  unfold one_row_per_user. cbn [otp_codes orb]. now apply NoDup_snoc_user.
Qed.

Lemma upsert_one_row uid c e : preserves (fun w => one_row_per_user (w_db w)) (otp_codes_upsert uid c e).
Proof.
  intros w Hd. rewrite upsert_eq. cbn [snd w_db].
  destruct (fault_now (w_env w)); [exact Hd|].
  destruct (existsb (of_user uid) (otp_codes (w_db w))) eqn:He;
    unfold one_row_per_user; cbn [otp_codes].
  - rewrite map_map. erewrite map_ext; [exact Hd|]. intro r.
    destruct (of_user uid r) eqn:Ho; [|reflexivity].
    unfold of_user in Ho. apply String.eqb_eq in Ho. cbn. congruence.
  - now apply NoDup_snoc_user.
Qed.

Lemma step_one_row o w : one_row_per_user (w_db w) -> one_row_per_user (w_db (step o w)).
Proof.
  pose proof one_row_otp_only as HP.
  intros Hd. destruct o as [r|r|r|r|e]; cbn [step].
  - apply (preserves_apply (fun w => one_row_per_user (w_db w)) _ w); [|exact Hd]. unfold sendOTP.
    pres_tac ltac:(apply upsert_one_row).
  - apply (preserves_apply (fun w => one_row_per_user (w_db w)) _ w); [|exact Hd]. unfold verifyOTP.
    pres_tac ltac:(apply mark_used_one_row).
  - apply (preserves_apply (fun w => one_row_per_user (w_db w)) _ w); [|exact Hd]. unfold adminSendOTP.
    pres_tac ltac:(first [apply delete_one_row | apply insert_one_row]).
  - apply (preserves_apply (fun w => one_row_per_user (w_db w)) _ w); [|exact Hd]. unfold adminVerifyOTP.
    pres_tac ltac:(apply mark_used_one_row).
  - exact Hd.
Qed.

Lemma one_row_one_unused d : one_row_per_user d -> one_unused_per_user d.
Proof.
  unfold one_row_per_user, one_unused_per_user, unused_of. intros Hd u.
  induction (otp_codes d) as [|r os IH]; cbn; [lia|].
  cbn in Hd. inversion Hd as [|? ? Hn Hd']; subst.
  destruct (of_user u r && negb (o_used r)) eqn:Hr; [|now apply IH].
  cbn. enough (filter (fun r => of_user u r && negb (o_used r)) os = []) as -> by (cbn; lia).
  apply andb_true_iff in Hr. destruct Hr as [Hu _]. unfold of_user in Hu. apply String.eqb_eq in Hu.
  destruct (filter _ os) as [|x l] eqn:Hf; [reflexivity|].
  exfalso. assert (Hx : In x (filter (fun r => of_user u r && negb (o_used r)) os)) by (rewrite Hf; now left).
  apply filter_In in Hx. destruct Hx as [Hx Hb]. apply andb_true_iff in Hb. destruct Hb as [Hb _].
  unfold of_user in Hb. apply String.eqb_eq in Hb. apply Hn. rewrite Hu, <- Hb. now apply in_map.
Qed.

(** C4: with [user_id] a unique key of [otp_codes], every operation keeps at
    most one row per user, hence at most one unused code per user, after one
    step and after any sequence of steps. *)
Theorem one_unused_code_per_user :
  (forall o w, one_row_per_user (w_db w) ->
     one_row_per_user (w_db (step o w)) /\ one_unused_per_user (w_db (step o w)))
  /\ (forall ops w, one_row_per_user (w_db w) ->
       one_unused_per_user (w_db (fold_left (fun w o => step o w) ops w))).
Proof.
  split.
  - intros o w Hd. pose proof (step_one_row o w Hd) as H. split; [exact H|].
    now apply one_row_one_unused.
  - intros ops. induction ops as [|o ops IH]; intros w Hd; cbn.
    + now apply one_row_one_unused.
    + apply IH. exact (step_one_row o w Hd).
Qed.

(** C8: an admin send-otp request with a non-blank email that matches no
    active admin (or whose lookup errors) gets the vague 200 answer with
    userId "invalid" and stores no code; a missing or blank email gets 400;
    an admin verify-otp request with userId "invalid" touches no database
    and is answered 401 only when the otp is present with trimmed length 6,
    400 otherwise. *)
Theorem admin_otp_enumeration_guard :
  (forall req w,
     truthy (as_email req) = true -> trim (opt_str (as_email req)) <> "" ->
     (fault_now (w_env w) = true
      \/ forall a, filter (fun a => String.eqb (a_email a) (trim (toLowerCase (opt_str (as_email req)))))
                          (admin_users (w_db w)) = [a] -> a_is_active a = false) ->
     fst (adminSendOTP req w) = vague_success
     /\ otp_codes (w_db (snd (adminSendOTP req w))) = otp_codes (w_db w)
     /\ next_id (w_db (snd (adminSendOTP req w))) = next_id (w_db w))
  /\ (forall req w, (truthy (as_email req) = false \/ trim (opt_str (as_email req)) = "") ->
        adminSendOTP req w = (err 400 "Email is required", w))
  /\ (forall req w, av_userId req = Some "invalid" ->
        snd (adminVerifyOTP req w) = w
        /\ status (fst (adminVerifyOTP req w))
           = if truthy (av_otp req) && Nat.eqb (String.length (trim (opt_str (av_otp req)))) 6
             then 401 else 400).
Proof.
  split; [|split].
  - intros req w Ht Hb Hc. unfold adminSendOTP. cbv zeta.
    apply String.eqb_neq in Hb. rewrite Ht, Hb. cbn [negb orb].
    rewrite (bind_eq _ _ _ _ _ (admin_users_by_email_eq _ _)). cbv beta.
    destruct (fault_now (w_env w)) eqn:F; [repeat split|].
    destruct Hc as [Hc|Hc]; [discriminate|].
    destruct (filter _ (admin_users (w_db w))) as [|a [|b l]] eqn:Hf; try (repeat split; fail).
    cbn [maybeSingle]. rewrite (Hc a eq_refl). repeat split.
  - intros req w H. unfold adminSendOTP. cbv zeta.
    destruct H as [H|H]; rewrite H; [reflexivity|].
    rewrite orb_true_r. reflexivity.
  - intros req w H. unfold adminVerifyOTP, adminVerifyOTP_target, bind, ret. cbv zeta.
    rewrite H. cbn [truthy opt_str negb orb andb].
    destruct (av_otp req) as [s|]; cbn [truthy opt_str negb orb andb]; [|split; reflexivity].
    destruct (String.eqb s ""); cbn [negb orb andb]; [split; reflexivity|].
    destruct (Nat.eqb (String.length (trim s)) 6); split; reflexivity.
Qed.

Lemma users_find_eq e p w :
  users_find_email_or_phone e p w =
  (if fault_now (w_env w) then QErr
   else maybeSingle (filter (fun u => (truthy e && opt_eqb (u_email u) e)
                                      || (truthy p && opt_eqb (u_phone u) p)) (users (w_db w))),
   mkWorld (log_query "users" (w_db w)) (pop_env (w_env w))).
Proof. unfold users_find_email_or_phone, bind, get_db, ret. rewrite touch_eq. reflexivity. Qed.

Lemma users_update_eq id name w :
  users_update_full_name id name w =
  let us := map (fun u => if String.eqb (u_id u) id
                          then mkUser (u_id u) (u_email u) (u_phone u) name else u) (users (w_db w)) in
  (if fault_now (w_env w) then QErr else single (filter (fun u => String.eqb (u_id u) id) us),
   mkWorld (if fault_now (w_env w) then log_query "users" (w_db w)
            else mkDb us (admin_users (w_db w)) (otp_codes (w_db w)) (next_id (w_db w))
                      ("users" :: queries (w_db w)))
           (pop_env (w_env w))).
Proof.
  unfold users_update_full_name, bind, get_db, put_db, ret. rewrite touch_eq. cbv beta iota zeta.
  destruct (fault_now (w_env w)); reflexivity.
Qed.

Lemma users_insert_eq e p n w :
  users_insert e p n w =
  let u := mkUser (fresh_user_id (users (w_db w))) e p n in
  (if fault_now (w_env w) then QErr else QOk u,
   mkWorld (if fault_now (w_env w) then log_query "users" (w_db w)
            else mkDb (users (w_db w) ++ [u]) (admin_users (w_db w)) (otp_codes (w_db w))
                      (next_id (w_db w)) ("users" :: queries (w_db w)))
           (pop_env (w_env w))).
Proof.
  unfold users_insert, bind, get_db, put_db, ret. rewrite touch_eq. cbv beta iota zeta.
  destruct (fault_now (w_env w)); reflexivity.
Qed.

Lemma generateOTP_frame w :
  w_db (snd (generateOTP w)) = w_db w /\ clock (w_env (snd (generateOTP w))) = clock (w_env w).
Proof. unfold generateOTP, bind, randomInt, ret. destruct (rand (w_env w)); split; reflexivity. Qed.

Lemma single_eq {A} (l : list A) x : single l = QOk x -> l = [x].
Proof. destruct l as [|a [|b l]]; cbn; congruence. Qed.

Lemma maybeSingle_some {A} (l : list A) x : maybeSingle l = QOk (Some x) -> l = [x].
Proof. destruct l as [|a [|b l]]; cbn; congruence. Qed.

Lemma filter_singleton_in {A} (f : A -> bool) l x : filter f l = [x] -> In x l /\ f x = true.
Proof. intro H. apply filter_In. rewrite H. now left. Qed.

Lemma length_append_str s1 s2 : String.length (s1 ++ s2) = (String.length s1 + String.length s2)%nat.
Proof. induction s1 as [|c s IH]; cbn; [reflexivity|]. now rewrite IH. Qed.

Lemma length_le_concat x l : In x l -> (String.length x <= String.length (String.concat "" l))%nat.
Proof.
  induction l as [|a l IH]; intros Hin; [destruct Hin|].
  destruct l as [|b l].
  - destruct Hin as [<-|[]]. cbn. lia.
  - change (String.concat "" (a :: b :: l)) with (a ++ "" ++ String.concat "" (b :: l)).
    rewrite !length_append_str. cbn [String.length].
    destruct Hin as [<-|Hin]; [lia|]. specialize (IH Hin). lia.
Qed.

Lemma fresh_user_id_fresh us u : In u us -> u_id u <> fresh_user_id us.
Proof.
  intros Hin E. pose proof (length_le_concat (u_id u) (map u_id us) (in_map _ _ _ Hin)) as L.
  rewrite E in L. unfold fresh_user_id in L. cbn [String.length] in L. lia.
Qed.

Lemma filter_none {A} (f : A -> bool) l : (forall x, In x l -> f x = false) -> filter f l = [].
Proof.
  induction l as [|a l IH]; intro H; [reflexivity|]. cbn.
  rewrite (H a (or_introl eq_refl)). apply IH. intros x Hx. apply H. now right.
Qed.

Lemma sendOTP_user_inl req w r w2 :
  sendOTP_user req w = (inl r, w2) ->
  status r = 400 \/ r = err 500 "Failed to update user record"
  \/ r = err 500 "Failed to create user record".
Proof.
  unfold sendOTP_user. cbv zeta.
  destruct (negb _ && negb _); [unfold ret; intro H; injection H as <- _; now left|].
  destruct (truthy _ && negb _); [unfold ret; intro H; injection H as <- _; now left|].
  unfold bind. destruct (generateOTP w) as [otp0 w3].
  unfold otpExpiresAt, now, bind, ret. cbv beta iota.
  rewrite users_find_eq. cbv beta iota.
  destruct (if fault_now (w_env w3) then _ else _) as [[ex|]|].
  - rewrite users_update_eq. cbv beta iota zeta.
    destruct (if fault_now _ then _ else _); intro H; first [discriminate H | injection H as <- _; auto].
  - rewrite users_insert_eq. cbv beta iota zeta.
    destruct (fault_now _); intro H; first [discriminate H | injection H as <- _; auto].
  - rewrite users_insert_eq. cbv beta iota zeta.
    destruct (fault_now _); intro H; first [discriminate H | injection H as <- _; auto].
Qed.

Lemma sendOTP_user_inr req w user otp exp w2 :
  sendOTP_user req w = (inr (user, otp, exp), w2) ->
  Forall (fun u => u_id u <> "") (users (w_db w)) ->
  otp = fst (generateOTP w) /\ exp = clock (w_env w) + 600000
  /\ filter (fun u => String.eqb (u_id u) (u_id user)) (users (w_db w2)) = [user]
  /\ u_id user <> "".
Proof.
  intros H Hne. revert H. unfold sendOTP_user. cbv zeta.
  destruct (negb _ && negb _); [unfold ret; discriminate|].
  destruct (truthy _ && negb _); [unfold ret; discriminate|].
  destruct (generateOTP_frame w) as [Gd Gc].
  unfold bind at 1. destruct (generateOTP w) as [otp0 w3]. cbn [fst snd] in Gd, Gc |- *.
  unfold otpExpiresAt, now, bind, ret. cbv beta iota.
  rewrite users_find_eq. cbv beta iota.
  destruct (fault_now (w_env w3)) eqn:F3.
  2: destruct (maybeSingle _) as [[ex|]|] eqn:Ms.
  2: { (* existing user: update *)
    apply maybeSingle_some, filter_singleton_in in Ms. destruct Ms as [Hex _].
    rewrite users_update_eq. cbv beta iota zeta. cbn [w_db w_env log_query users].
    destruct (fault_now (pop_env (w_env w3))); cbv beta iota; [discriminate|].
    destruct (single _) as [u|] eqn:S; cbv beta iota; [|discriminate].
    intro H. injection H as <- <- <- <-.
    apply single_eq in S. pose proof (filter_singleton_in _ _ _ S) as [_ Hid].
    apply String.eqb_eq in Hid.
    cbn [w_db users log_query]. rewrite Hid. repeat split; try assumption.
    - lia.
    - rewrite Gd in Hex. rewrite Forall_forall in Hne. exact (Hne ex Hex). }
  all: rewrite users_insert_eq; cbv beta iota zeta; cbn [w_db w_env log_query users];
    destruct (fault_now (pop_env (w_env w3))); cbv beta iota; [discriminate|];
    intro H; injection H as <- <- <- <-; cbn [w_db users log_query u_id];
    (repeat split; [lia| |discriminate]);
    rewrite filter_app; cbn [filter u_id]; rewrite String.eqb_refl;
    rewrite filter_none; [reflexivity|];
    intros x Hx; apply String.eqb_neq; apply fresh_user_id_fresh; exact Hx.
Qed.

Lemma sendOTP_mail_failure req w resp w1 :
  sendOTP req w = (resp, w1) ->
  (resp = err 500 "Email delivery failed" \/ resp = err 500 "Email service error") ->
  exists user otp exp w2,
    sendOTP_user req w = (inr (user, otp, exp), w2)
    /\ fault_now (w_env w2) = false
    /\ w_db w1 = w_db (snd (otp_codes_upsert (u_id user) otp exp w2)).
Proof.
  intros H Hr. revert H. unfold sendOTP, bind at 1.
  destruct (sendOTP_user req w) as [[r0|[[user otp] exp]] w2] eqn:E.
  - unfold ret. intro H. injection H as <- _. apply sendOTP_user_inl in E.
    destruct Hr as [-> | ->]; destruct E as [E|[E|E]]; discriminate.
  - cbv beta iota. rewrite (bind_eq _ _ _ _ _ (upsert_eq _ _ _ _)). cbv beta.
    destruct (fault_now (w_env w2)) eqn:F; cbv beta iota.
    { unfold ret. intro H. injection H as <- _. destruct Hr; discriminate. }
    intro H. exists user, otp, exp, w2. split; [reflexivity|]. split; [exact F|].
    rewrite upsert_eq, F. cbn [snd]. revert H.
    destruct (truthy (sr_email req)).
    2: { unfold ret. intro H. injection H as <- _. destruct Hr; discriminate. }
    unfold bind, config, resend_emails_send. cbv beta iota.
    destruct (String.eqb _ "").
    { unfold ret. intro H. injection H as <- _. destruct Hr; discriminate. }
    rewrite next_outcome_eq. cbv beta iota.
    destruct (match faults _ with [] => Done | o :: _ => o end);
      unfold ret; intro H; injection H as <- <-; try (destruct Hr; discriminate);
      reflexivity.
Qed.

Lemma upsert_rows_unused os uid code exp n :
  NoDup (map o_user_id os) ->
  exists id, unused_of uid (if existsb (of_user uid) os
                            then map (fun r => if of_user uid r then mkOtp (o_id r) uid code exp false
                                               else r) os
                            else os ++ [mkOtp n uid code exp false])
             = [mkOtp id uid code exp false].
Proof.
  intro Hd. unfold unused_of. destruct (existsb (of_user uid) os) eqn:He.
  - apply existsb_exists in He. destruct He as (r0 & Hin & Hr0).
    unfold of_user in Hr0. apply String.eqb_eq in Hr0. subst uid.
    exists (o_id r0). revert Hd Hin. induction os as [|a os IH]; intros Hd Hin; [destruct Hin|].
    cbn in Hd. inversion Hd as [|? ? Hn Hd']; subst. cbn [map filter].
    destruct Hin as [<-|Hin].
    + unfold of_user. rewrite String.eqb_refl. cbn [o_user_id o_used negb].
      rewrite String.eqb_refl. cbn [andb]. f_equal.
      apply filter_none. intros x Hx. apply in_map_iff in Hx. destruct Hx as (r & <- & Hr).
      assert (Hru : o_user_id r <> o_user_id a) by (intro Er; apply Hn; rewrite <- Er; now apply in_map).
      apply String.eqb_neq in Hru. cbv beta. rewrite Hru. rewrite Hru. reflexivity.
    + assert (Hau : o_user_id a <> o_user_id r0) by (intro Ea; apply Hn; rewrite Ea; now apply in_map).
      apply String.eqb_neq in Hau. unfold of_user at 1 2. rewrite Hau. rewrite Hau. cbn [andb].
      now apply IH.
  - exists n. rewrite filter_app. rewrite filter_none.
    + cbn. unfold of_user. cbn. rewrite String.eqb_refl. reflexivity.
    + intros x Hx. destruct (of_user uid x) eqn:Ex; [|reflexivity].
      assert (Ht : existsb (of_user uid) os = true) by (apply existsb_exists; eauto).
      congruence.
Qed.

Lemma drop_ws_digits l : forallb is_digit l = true -> drop_ws l = l.
Proof.
  destruct l as [|c l]; [reflexivity|]. cbn [forallb]. intro H.
  apply andb_true_iff in H. destruct H as [Hc _]. cbn [drop_ws].
  destruct (is_ws c) eqn:W; [|reflexivity]. exfalso.
  unfold is_digit in Hc. apply andb_true_iff in Hc. destruct Hc as [H1 H2].
  apply Nat.leb_le in H1, H2. unfold is_ws in W.
  repeat match goal with W : _ || _ = true |- _ => apply orb_true_iff in W; destruct W as [W|W] end;
    apply Nat.eqb_eq in W; lia.
Qed.

Lemma trim_digits s : forallb is_digit (list_ascii_of_string s) = true -> trim s = s.
Proof.
  intro H. unfold trim. rewrite (drop_ws_digits _ H). rewrite drop_ws_digits.
  - rewrite rev_involutive. apply string_of_list_ascii_of_string.
  - apply forallb_forall. intros c Hc. rewrite <- in_rev in Hc.
    rewrite forallb_forall in H. now apply H.
Qed.

(** C10: when customer send-otp answers 500 because the email could not be
    delivered, the new code is stored, unused, with its ten-minute expiry,
    and a verify-otp for that user and code before expiry succeeds. *)
Theorem send_otp_mail_failure_keeps_otp :
  forall req w resp w1,
    sendOTP req w = (resp, w1) ->
    (resp = err 500 "Email delivery failed" \/ resp = err 500 "Email service error") ->
    one_row_per_user (w_db w) ->
    Forall (fun u => u_id u <> "") (users (w_db w)) ->
    exists uid rec user,
      unused_of uid (otp_codes (w_db w1)) = [rec]
      /\ o_user_id rec = uid /\ o_code rec = fst (generateOTP w) /\ o_used rec = false
      /\ o_expires_at rec = clock (w_env w) + 600000
      /\ forall e, faults e = [] -> clock e <= o_expires_at rec -> JWT_SECRET e <> "" ->
           fst (verifyOTP (mkVerifyReq None (Some uid) (Some (o_code rec))) (mkWorld (w_db w1) e))
           = mkResp 200 (Verified (jwt_sign [("userId", uid)] (JWT_SECRET e) "7d") user).
Proof.
  intros req w resp w1 H Hr Hrow Hne.
  destruct (sendOTP_mail_failure _ _ _ _ H Hr) as (user & otp & exp & w2 & E & F & Hdb).
  destruct (sendOTP_user_inr _ _ _ _ _ _ E Hne) as (Hotp & Hexp & Hu & Hid).
  pose proof (keeps_sendOTP_user req w) as K. rewrite E in K. cbn [snd] in K. destruct K as [K1 K2].
  rewrite upsert_eq, F in Hdb. cbn [snd w_db] in Hdb.
  assert (Hrow2 : NoDup (map o_user_id (otp_codes (w_db w2)))) by (rewrite K1; exact Hrow).
  destruct (upsert_rows_unused (otp_codes (w_db w2)) (u_id user) otp exp (next_id (w_db w2)) Hrow2)
    as [id Hun].
  assert (Hos : otp_codes (w_db w1)
                = if existsb (of_user (u_id user)) (otp_codes (w_db w2))
                  then map (fun r => if of_user (u_id user) r
                                     then mkOtp (o_id r) (u_id user) otp exp false else r)
                           (otp_codes (w_db w2))
                  else (otp_codes (w_db w2) ++ [mkOtp (next_id (w_db w2)) (u_id user) otp exp false])%list)
    by (rewrite Hdb; destruct (existsb _ _); reflexivity).
  assert (Hus : users (w_db w1) = users (w_db w2))
    by (rewrite Hdb; destruct (existsb _ _); reflexivity).
  exists (u_id user), (mkOtp id (u_id user) otp exp false), user.
  rewrite Hos. split; [exact Hun|]. cbn [o_user_id o_code o_used o_expires_at].
  split; [reflexivity|]. split; [exact Hotp|]. split; [reflexivity|]. split; [exact Hexp|].
  intros e He Hc Hj.
  pose proof (randomInt_range 100000 999999 w ltac:(lia)) as R.
  destruct (drawn_otp_string (fst (randomInt 100000 999999 w)) ltac:(lia)) as (L & D & _).
  rewrite <- generateOTP_value, <- Hotp in L, D.
  assert (Ht : trim otp = otp) by (apply trim_digits; exact D).
  assert (Hne_otp : String.eqb otp "" = false)
    by (apply String.eqb_neq; intro Z; rewrite Z in L; discriminate).
  assert (Hne_uid : String.eqb (u_id user) "" = false) by (apply String.eqb_neq; exact Hid).
  assert (T : verifyOTP_target (mkVerifyReq None (Some (u_id user)) (Some otp)) (mkWorld (w_db w1) e)
              = (inr (u_id user), mkWorld (w_db w1) e)).
  { unfold verifyOTP_target. cbn [vr_otp vr_userId vr_email truthy opt_str].
    rewrite Hne_otp, Ht, L, Hne_uid. reflexivity. }
  rewrite (verifyOTP_resolved _ _ _ _ T). cbn [w_env w_db vr_otp opt_str].
  rewrite (fault_now_nil _ He).
  assert (Dd : otp_decision (otp_codes (w_db w1)) (clock e) (u_id user) otp
               = Passed (mkOtp id (u_id user) otp exp false)).
  { unfold otp_decision. rewrite Hos, Hun. cbn [latest fold_left o_expires_at o_code].
    replace (exp <? clock e) with false by (symmetry; apply Z.ltb_ge; lia).
    rewrite String.eqb_refl. reflexivity. }
  rewrite Dd. apply String.eqb_neq in Hj. rewrite Hj.
  rewrite (fault_now_nil _ (pop_env_nil _ (pop_env_nil _ He))).
  rewrite Hus, Hu. reflexivity.
Qed.

(** ** Runs on the sample shop *)
Import Samples.

Lemma ids_wf_shop : ids_wf (w_db shop).
Proof.
  split.
  - constructor; [intros []|constructor].
  - constructor; [cbn; lia|constructor].
Qed.

(** The customer of the sample shop logs in with the pending code. *)
Lemma verify_otp_checks_witness :
  verifyOTP_target login shop = (inr "u1", shop)
  /\ fst (verifyOTP login shop)
     = mkResp 200 (Verified (jwt_sign [("userId", "u1")] "jwt-secret" "7d") customer).
Proof.
  assert (T : verifyOTP_target login shop = (inr "u1", shop)) by (vm_compute; reflexivity).
  split; [exact T|].
  pose proof (proj1 verify_otp_checks _ _ _ _ T) as H. cbv zeta in H.
  destruct H as (_ & _ & _ & H & _).
  apply (H pending_code customer).
  - vm_compute. reflexivity.
  - reflexivity.
  - cbn. discriminate.
  - vm_compute. reflexivity.
Defined.

(** C1 as stated fails: the checks pass on the sample shop, yet without a
    [JWT_SECRET] the customer verification answers 500. *)
Lemma verify_otp_checks_counterexample :
  ~ (forall req w uid w1,
       verifyOTP_target req w = (inr uid, w1) ->
       (exists rec, otp_decision (otp_codes (w_db w1)) (clock (w_env w1)) uid
                                 (opt_str (vr_otp req)) = Passed rec) ->
       status (fst (verifyOTP req w)) = 200).
Proof.
  intro H.
  assert (S : status (fst (verifyOTP login shop_no_secret)) = 500) by (vm_compute; reflexivity).
  rewrite (H login shop_no_secret "u1" shop_no_secret) in S.
  - discriminate S.
  - vm_compute. reflexivity.
  - exists pending_code. vm_compute. reflexivity.
Qed.

(** The pending code is consumed by the login. *)
Lemma otp_consumed_once_witness :
  accepted_row (CustVerify login) shop = Some pending_code
  /\ consumed 0 "u1" (step (CustVerify login) shop).
Proof.
  assert (A : accepted_row (CustVerify login) shop = Some pending_code)
    by (vm_compute; reflexivity).
  split; [exact A|].
  exact (proj1 (otp_consumed_once (CustVerify login) shop pending_code ids_wf_shop eq_refl A)).
Defined.

(** C3 as stated fails: when marking the code used fails, the same login is
    accepted again on the same row. *)
Lemma otp_consumed_once_counterexample :
  ~ (forall o w rec, accepted_row o w = Some rec ->
       forall ops, ~ reaccepted (o_id rec) (o_user_id rec) ops (step o w)).
Proof.
  intro H.
  apply (H (CustVerify login) shop_mark_fails pending_code ltac:(vm_compute; reflexivity)
           [CustVerify login]).
  cbn [reaccepted]. left. exists pending_code. split; [vm_compute; reflexivity | reflexivity].
Qed.

(** A sign-up followed by a login keeps one unused code per user. *)
Lemma one_unused_code_per_user_witness :
  one_unused_per_user (w_db (fold_left (fun w o => step o w) [CustSend signup; CustVerify login] shop)).
Proof.
  apply (proj2 one_unused_code_per_user).
  unfold one_row_per_user. cbn. constructor; [intros []|constructor].
Defined.

(** An unknown admin email gets the vague answer; userId "invalid" with a
    six-character code gets 401. *)
Lemma admin_otp_enumeration_guard_witness :
  fst (adminSendOTP stranger shop) = vague_success
  /\ status (fst (adminVerifyOTP invalid_full shop)) = 401.
Proof.
  destruct admin_otp_enumeration_guard as (H1 & _ & H3). split.
  - refine (proj1 (H1 stranger shop eq_refl _ _)).
    + intro E. vm_compute in E. discriminate E.
    + right. intros a E. vm_compute in E. discriminate E.
  - exact (proj2 (H3 invalid_full shop eq_refl)).
Defined.

(** C8 as stated fails: userId "invalid" without an otp is answered 400. *)
Lemma admin_otp_enumeration_guard_counterexample :
  ~ (forall req w, av_userId req = Some "invalid" -> status (fst (adminVerifyOTP req w)) = 401).
Proof.
  intro H. specialize (H invalid_no_otp shop eq_refl). vm_compute in H. discriminate H.
Qed.

(** A three-character code is refused with 400. *)
Lemma otp_six_digits_witness : status (fst (verifyOTP short_login shop)) = 400.
Proof.
  apply (proj2 (proj2 otp_six_digits)). right. exists "123". split; [reflexivity|].
  intro E. vm_compute in E. discriminate E.
Defined.

(** Sign-up while the email provider is down: 500, and the stored code
    still logs the new user in. *)
Lemma send_otp_mail_failure_keeps_otp_witness :
  fst (sendOTP signup mail_down) = err 500 "Email delivery failed"
  /\ exists uid rec user,
       unused_of uid (otp_codes (w_db (snd (sendOTP signup mail_down)))) = [rec]
       /\ fst (verifyOTP (mkVerifyReq None (Some uid) (Some (o_code rec)))
                         (mkWorld (w_db (snd (sendOTP signup mail_down))) calm_env))
          = mkResp 200 (Verified (jwt_sign [("userId", uid)] "jwt-secret" "7d") user).
Proof.
  assert (E : fst (sendOTP signup mail_down) = err 500 "Email delivery failed")
    by (vm_compute; reflexivity).
  split; [exact E|].
  destruct (send_otp_mail_failure_keeps_otp signup mail_down _ _ (surjective_pairing _)
              (or_introl E) ltac:(constructor) ltac:(constructor))
    as (uid & rec & user & U & _ & _ & _ & X & V).
  exists uid, rec, user. split; [exact U|].
  apply V.
  - reflexivity.
  - rewrite X. cbn. lia.
  - cbn. discriminate.
Defined.

End OtpFacts.

Module RetryFacts.
Import Retry.

Section WithRetry.
Context {T : Type} (fn : nat -> attempt T) (retries delayMs : Z).

Lemma withRetry_loop_spec f : forall i r n ds,
  (i + f = Z.to_nat retries)%nat ->
  withRetry_loop fn retries delayMs i f = (r, n, ds) ->
  (n <= f)%nat /\ (f <> O -> (1 <= n)%nat) /\ (r = MaxRetries <-> f = O)
  /\ (forall k, (i <= k)%nat -> (k + 1 < i + n)%nat -> exists m, fn k = Err m /\ isSSLError m = true)
  /\ (forall v, r = Returned v -> fn (i + n - 1)%nat = Ok v)
  /\ (forall m, r = Rethrown m ->
        fn (i + n - 1)%nat = Err m /\ (isSSLError m = false \/ Z.of_nat (i + n) = retries))
  /\ ds = map (fun k => delayMs * Z.of_nat k) (seq (S i) (n - 1)).
Proof.
  induction f as [|f IH]; intros i r n ds Hf E; cbn in E.
  - injection E as <- <- <-. repeat split; intros; try lia; try discriminate.
  - destruct (fn i) as [v|m] eqn:Fi.
    + injection E as <- <- <-. repeat split; intros; try lia; try discriminate.
      * injection H as H. subst. replace (i + 1 - 1)%nat with i by lia. exact Fi.
    + destruct ((Z.of_nat i <? retries - 1) && isSSLError m) eqn:C.
      * apply andb_true_iff in C. destruct C as [C1 C2]. apply Z.ltb_lt in C1.
        destruct (withRetry_loop fn retries delayMs (S i) f) as [[r0 n0] ds0] eqn:E0.
        injection E as <- <- <-.
        assert (Hf0 : f <> O) by lia.
        destruct (IH (S i) r0 n0 ds0 ltac:(lia) E0) as (H1 & H2 & H3 & H4 & H5 & H6 & H7).
        specialize (H2 Hf0).
        split; [lia|]. split; [intros _; lia|].
        split; [split; [intro Hr; apply H3 in Hr; lia | discriminate]|].
        split.
        { intros k Hk1 Hk2. destruct (Nat.eq_dec k i) as [->|Hki]; [exists m; auto|].
          apply H4; lia. }
        split.
        { intros v Hv. replace (i + S n0 - 1)%nat with (S i + n0 - 1)%nat by lia. now apply H5. }
        split.
        { intros m' Hm. replace (i + S n0 - 1)%nat with (S i + n0 - 1)%nat by lia.
          replace (i + S n0)%nat with (S i + n0)%nat by lia. now apply H6. }
        rewrite H7. replace (S n0 - 1)%nat with (S (n0 - 1)) by lia.
        destruct n0 as [|n0]; [lia|]. reflexivity.
      * injection E as <- <- <-.
        split; [lia|]. split; [intros _; lia|].
        split; [split; [discriminate | lia]|].
        split; [intros k Hk1 Hk2; lia|].
        split; [discriminate|].
        split; [|reflexivity].
        intros m' Hm. injection Hm as <-. replace (i + 1 - 1)%nat with i by lia.
        split; [exact Fi|].
        apply andb_false_iff in C. destruct C as [C|C]; [right|left; exact C].
        apply Z.ltb_ge in C. lia.
Qed.

End WithRetry.

(** [withRetry] calls [fn] at most [retries] times and rethrows at once
    any error that is not an SSL error; it retries an SSL error while calls
    are left, waiting [delayMs], [2 * delayMs], ... in between. It returns
    the value of the last call, or rethrows its error, and only ends with
    "Max retries reached" when [retries <= 0]. *)
Theorem withRetry_spec {T} (fn : nat -> attempt T) retries delayMs r n ds :
  withRetry fn retries delayMs = (r, n, ds) ->
  (n <= Z.to_nat retries)%nat
  /\ (r = MaxRetries <-> retries <= 0)
  /\ (forall k, (k + 1 < n)%nat -> exists m, fn k = Err m /\ isSSLError m = true)
  /\ (forall v, r = Returned v -> fn (n - 1)%nat = Ok v)
  /\ (forall m, r = Rethrown m ->
        fn (n - 1)%nat = Err m /\ (isSSLError m = false \/ Z.of_nat n = retries))
  /\ ds = map (fun k => delayMs * Z.of_nat k) (seq 1 (n - 1)).
Proof.
  unfold withRetry. intro E.
  destruct (withRetry_loop_spec fn retries delayMs (Z.to_nat retries) 0 r n ds eq_refl E)
    as (H1 & _ & H3 & H4 & H5 & H6 & H7).
  split; [lia|].
  split; [split; [intro Hr; apply H3 in Hr; lia | intro Hr; apply H3; lia]|].
  split; [intros k Hk; apply H4; lia|].
  split; [exact H5|]. split; [exact H6|]. exact H7.
Qed.

Lemma retry_status_in s : existsb (Z.eqb s) retry_statuses = true <-> In s retry_statuses.
Proof.
  rewrite existsb_exists. split.
  - intros (x & Hx & E). apply Z.eqb_eq in E. now subst.
  - intro H. exists s. split; [exact H | apply Z.eqb_refl].
Qed.

Section FetchWithRetry.
Context (fetch_at : nat -> fetch_outcome) (retries delayMs : Z).

Lemma fetchWithRetry_loop_spec f : forall a r n ds,
  (1 <= a)%nat -> (a + f = S (Z.to_nat retries))%nat ->
  fetchWithRetry_loop fetch_at retries delayMs a f = (r, n, ds) ->
  (n <= f)%nat /\ (f <> O -> (1 <= n)%nat) /\ (r = FailedAfterMax <-> f = O)
  /\ (forall k, (a <= k)%nat -> (k + 1 < a + n)%nat -> retryable (fetch_at k))
  /\ (forall s, r = Response s ->
        fetch_at (a + n - 1)%nat = FResponse s
        /\ (~ In s retry_statuses \/ Z.of_nat (a + n - 1) = retries))
  /\ (forall m, r = FRethrown m ->
        fetch_at (a + n - 1)%nat = FThrows m
        /\ (isNetworkError m = false \/ Z.of_nat (a + n - 1) = retries))
  /\ ds = map (fun k => delayMs * Z.of_nat k) (seq a (n - 1)).
Proof.
  induction f as [|f IH]; intros a r n ds Ha Hf E; cbn in E.
  - injection E as <- <- <-. repeat split; intros; try lia; try discriminate.
  - assert (Step : forall r0 n0 ds0,
              f <> O ->
              retryable (fetch_at a) ->
              fetchWithRetry_loop fetch_at retries delayMs (S a) f = (r0, n0, ds0) ->
              r = r0 -> n = S n0 -> ds = delayMs * Z.of_nat a :: ds0 ->
              (n <= S f)%nat /\ (S f <> O -> (1 <= n)%nat) /\ (r = FailedAfterMax <-> S f = O)
              /\ (forall k, (a <= k)%nat -> (k + 1 < a + n)%nat -> retryable (fetch_at k))
              /\ (forall s, r = Response s ->
                    fetch_at (a + n - 1)%nat = FResponse s
                    /\ (~ In s retry_statuses \/ Z.of_nat (a + n - 1) = retries))
              /\ (forall m, r = FRethrown m ->
                    fetch_at (a + n - 1)%nat = FThrows m
                    /\ (isNetworkError m = false \/ Z.of_nat (a + n - 1) = retries))
              /\ ds = map (fun k => delayMs * Z.of_nat k) (seq a (n - 1))).
    { intros r0 n0 ds0 Hf0 Hra E0 -> -> ->.
      destruct (IH (S a) r0 n0 ds0 ltac:(lia) ltac:(lia) E0) as (H1 & H2 & H3 & H4 & H5 & H6 & H7).
      specialize (H2 Hf0).
      split; [lia|]. split; [intros _; lia|].
      split; [split; [intro Hr; apply H3 in Hr; lia | discriminate]|].
      split.
      { intros k Hk1 Hk2. destruct (Nat.eq_dec k a) as [->|Hka]; [exact Hra|]. apply H4; lia. }
      split.
      { intros s Hs. replace (a + S n0 - 1)%nat with (S a + n0 - 1)%nat by lia. now apply H5. }
      split.
      { intros m Hm. replace (a + S n0 - 1)%nat with (S a + n0 - 1)%nat by lia. now apply H6. }
      rewrite H7. destruct n0 as [|n0]; [lia|]. replace (S (S n0) - 1)%nat with (S n0) by lia.
      replace (S n0 - 1)%nat with n0 by lia. reflexivity. }
    destruct (fetch_at a) as [s|m] eqn:Fa.
    + match type of E with context [if ?c then _ else _] => destruct c eqn:C end.
      * change (existsb (Z.eqb s) retry_statuses && (Z.of_nat a <? retries) = true) in C.
        apply andb_true_iff in C. destruct C as [C1 C2]. apply Z.ltb_lt in C2.
        destruct (fetchWithRetry_loop fetch_at retries delayMs (S a) f) as [[r0 n0] ds0] eqn:E0.
        injection E as <- <- <-.
        apply (Step r0 n0 ds0); try reflexivity; try lia; try exact E0.
        left. exists s. split; [reflexivity|]. now apply retry_status_in.
      * change (existsb (Z.eqb s) retry_statuses && (Z.of_nat a <? retries) = false) in C.
        injection E as <- <- <-.
        split; [lia|]. split; [intros _; lia|].
        split; [split; [discriminate | lia]|].
        split; [intros k Hk1 Hk2; lia|].
        split; [|split; [discriminate|reflexivity]].
        intros s' Hs. injection Hs as <-. replace (a + 1 - 1)%nat with a by lia.
        split; [exact Fa|].
        apply andb_false_iff in C. destruct C as [C|C].
        -- left. intro Hin. apply retry_status_in in Hin. congruence.
        -- right. apply Z.ltb_ge in C. lia.
    + destruct (isNetworkError m && (Z.of_nat a <? retries)) eqn:C.
      * apply andb_true_iff in C. destruct C as [C1 C2]. apply Z.ltb_lt in C2.
        destruct (fetchWithRetry_loop fetch_at retries delayMs (S a) f) as [[r0 n0] ds0] eqn:E0.
        injection E as <- <- <-.
        apply (Step r0 n0 ds0); try reflexivity; try lia; try exact E0.
        right. exists m. split; [reflexivity|exact C1].
      * injection E as <- <- <-.
        split; [lia|]. split; [intros _; lia|].
        split; [split; [discriminate | lia]|].
        split; [intros k Hk1 Hk2; lia|].
        split; [discriminate|]. split; [|reflexivity].
        intros m' Hm. injection Hm as <-. replace (a + 1 - 1)%nat with a by lia.
        split; [exact Fa|].
        apply andb_false_iff in C. destruct C as [C|C]; [left; exact C|].
        right. apply Z.ltb_ge in C. lia.
Qed.

End FetchWithRetry.

(** [fetchWithRetry] fetches at most [retries] times; it fetches again only
    after a status 500, 502, 503, 504 or 525 or a network error, waiting
    [delayMs], [2 * delayMs], ... in between. The answer is the last
    response, or the error of the last fetch; it only fails "after maximum
    retries" when [retries <= 0]. *)
Theorem fetchWithRetry_spec fetch_at retries delayMs r n ds :
  fetchWithRetry fetch_at retries delayMs = (r, n, ds) ->
  (n <= Z.to_nat retries)%nat
  /\ (r = FailedAfterMax <-> retries <= 0)
  /\ (forall k, (1 <= k < n)%nat -> retryable (fetch_at k))
  /\ (forall s, r = Response s ->
        fetch_at n = FResponse s /\ (~ In s retry_statuses \/ Z.of_nat n = retries))
  /\ (forall m, r = FRethrown m ->
        fetch_at n = FThrows m /\ (isNetworkError m = false \/ Z.of_nat n = retries))
  /\ ds = map (fun k => delayMs * Z.of_nat k) (seq 1 (n - 1)).
Proof.
  unfold fetchWithRetry. intro E.
  destruct (fetchWithRetry_loop_spec fetch_at retries delayMs (Z.to_nat retries) 1 r n ds
              (le_n 1) eq_refl E) as (H1 & _ & H3 & H4 & H5 & H6 & H7).
  replace (1 + n - 1)%nat with n in H5, H6 by lia.
  split; [lia|].
  split; [split; [intro Hr; apply H3 in Hr; lia | intro Hr; apply H3; lia]|].
  split; [intros k Hk; apply H4; lia|].
  split; [exact H5|]. split; [exact H6|]. exact H7.
Qed.

Import MoreSamples.

(** An SSL failure, then a value: two calls, one wait of 800 ms, and the
    value of the second call. *)
Lemma withRetry_spec_witness :
  withRetry ssl_then_ok 3 800 = (Returned 7, 2%nat, [800]) /\ ssl_then_ok 1%nat = Ok 7.
Proof.
  assert (E : withRetry ssl_then_ok 3 800 = (Returned 7, 2%nat, [800]))
    by (vm_compute; reflexivity).
  split; [exact E|].
  destruct (withRetry_spec ssl_then_ok 3 800 _ _ _ E) as (_ & _ & _ & D & _).
  exact (D 7 eq_refl).
Defined.

(** A 503, then 200: the first attempt was retryable. *)
Lemma fetchWithRetry_spec_witness :
  fetchWithRetry busy_then_ok 3 800 = (Response 200, 2%nat, [800])
  /\ retryable (busy_then_ok 1%nat).
Proof.
  assert (E : fetchWithRetry busy_then_ok 3 800 = (Response 200, 2%nat, [800]))
    by (vm_compute; reflexivity).
  split; [exact E|].
  destruct (fetchWithRetry_spec busy_then_ok 3 800 _ _ _ E) as (_ & _ & C & _).
  exact (C 1%nat ltac:(lia)).
Defined.

End RetryFacts.

Module ContactFacts.
Import Js Contact.

Lemma drop_ws_head l c r : drop_ws l = c :: r -> is_ws c = false.
Proof.
  induction l as [|x l IH]; cbn; [discriminate|].
  destruct (is_ws x) eqn:W; [exact IH|]. intros [= <- _]. exact W.
Qed.

Lemma drop_ws_idem l : drop_ws (drop_ws l) = drop_ws l.
Proof.
  destruct (drop_ws l) as [|c r] eqn:E; [reflexivity|].
  cbn. rewrite (drop_ws_head l c r E). reflexivity.
Qed.

Lemma drop_ws_suffix l : exists p, l = (p ++ drop_ws l)%list.
Proof.
  induction l as [|x l IH]; cbn; [now exists []|].
  destruct (is_ws x); [|now exists []].
  destruct IH as [p Hp]. exists (x :: p). cbn. now f_equal.
Qed.

(** [s.trim().trim() = s.trim()] *)
Lemma trim_idem s : trim (trim s) = trim s.
Proof.
  unfold trim. rewrite list_ascii_of_string_of_list_ascii.
  set (A := drop_ws (list_ascii_of_string s)).
  set (B := drop_ws (rev A)).
  assert (HB : drop_ws (rev B) = rev B).
  { destruct (drop_ws_suffix (rev A)) as [p Hp].
    assert (HA : A = (rev B ++ rev p)%list).
    { rewrite <- rev_app_distr. fold B in Hp. rewrite <- Hp. now rewrite rev_involutive. }
    destruct (rev B) as [|c r] eqn:E; [reflexivity|].
    cbn. assert (Hc : is_ws c = false).
    { apply (drop_ws_head (list_ascii_of_string s) c (r ++ rev p)). fold A. exact HA. }
    now rewrite Hc. }
  rewrite HB, rev_involutive. unfold B. now rewrite drop_ws_idem.
Qed.

Lemma clean_trim s : String.eqb (trim s) "" = false -> clean_field (trim s).
Proof.
  intro H. split; [apply trim_idem|]. intro E. rewrite E in H. discriminate.
Qed.

(** A contact message is saved as one row appended to [contact_messages],
    with every field trimmed and non-blank. Missing or blank fields answer
    400 and write nothing; a failed insert answers 500 and stores no
    message. *)
Theorem postContact_outcome name email phone message d resp d' :
  postContact name email phone message d = (resp, d') ->
  (resp = ContactOk
   /\ (exists row, contact_messages d' = (contact_messages d ++ [row])%list /\ clean_row row))
  \/ (resp = ContactErr 400 "All fields are required" /\ d' = d)
  \/ (resp = ContactErr 500 "Failed to save message"
       /\ contact_messages d' = contact_messages d).
Proof.
  unfold postContact.
  destruct name as [n|], email as [e|], phone as [p|], message as [m|];
    try (intros [= <- <-]; right; left; split; reflexivity).
  destruct (String.eqb (trim n) "") eqn:En; cbn;
    [intros [= <- <-]; right; left; split; reflexivity|].
  destruct (String.eqb (trim e) "") eqn:Ee; cbn;
    [intros [= <- <-]; right; left; split; reflexivity|].
  destruct (String.eqb (trim p) "") eqn:Ep; cbn;
    [intros [= <- <-]; right; left; split; reflexivity|].
  destruct (String.eqb (trim m) "") eqn:Em; cbn;
    [intros [= <- <-]; right; left; split; reflexivity|].
  unfold pop_insert. destruct d as [rows faults]; cbn.
  destruct faults as [|f fs]; cbn.
  - intros [= <- <-]. left. split; [reflexivity|].
    eexists. split; [reflexivity|].
    split; [|split; [|split]]; cbn; apply clean_trim; assumption.
  - destruct f; intros [= <- <-].
    + right; right. split; reflexivity.
    + left. split; [reflexivity|]. eexists. split; [reflexivity|].
      split; [|split; [|split]]; cbn; apply clean_trim; assumption.
Qed.

Import MoreSamples.

(** A message with padded fields is saved, trimmed. *)
Lemma postContact_outcome_witness :
  fst (postContact (FStr " Ana ") (FStr "ana@example.com") (FStr "555 0100") (FStr " Hi! ")
                   empty_contacts) = ContactOk
  /\ exists row, contact_messages (snd (postContact (FStr " Ana ") (FStr "ana@example.com")
                                                     (FStr "555 0100") (FStr " Hi! ")
                                                     empty_contacts)) = [row]
                 /\ clean_row row.
Proof.
  assert (E : postContact (FStr " Ana ") (FStr "ana@example.com") (FStr "555 0100") (FStr " Hi! ")
                          empty_contacts
              = (ContactOk, snd (postContact (FStr " Ana ") (FStr "ana@example.com")
                                             (FStr "555 0100") (FStr " Hi! ") empty_contacts)))
    by (vm_compute; reflexivity).
  rewrite E. split; [reflexivity|].
  destruct (postContact_outcome _ _ _ _ _ _ _ E) as [[_ (row & Hrow & C)] | [[D _] | [D _]]];
    [|discriminate D|discriminate D].
  exists row. split; [exact Hrow | exact C].
Defined.

End ContactFacts.

Module PaymentMoreFacts.
Import PaymentFacts.
Import Payment.

Lemma pop_fault_stock d :
  stock_updates (snd (pop_fault d)) = stock_updates d.
Proof. unfold pop_fault. destruct (db_faults d); reflexivity. Qed.

(** One iteration of the items loop: at most one order item (of this
    order), exactly one stock update, nothing else. *)
Lemma insert_item_frame oid d it :
  let d' := insert_item oid d it in
  orders d' = orders d /\ payments d' = payments d /\ next_order_id d' = next_order_id d
  /\ stock_updates d' = (stock_updates d ++ [item_id it])%list
  /\ (order_items d' = order_items d
      \/ order_items d' = (order_items d ++ [mkOrderItem oid (item_id it) (item_quantity it)
                                                     (item_price it)])%list).
Proof.
  unfold insert_item.
  pose proof (pop_fault_tables d) as T1. pose proof (pop_fault_stock d) as S1.
  destruct (pop_fault d) as [f1 d1] eqn:E1. cbn in T1, S1. destruct T1 as (To & Ti & Tp & Tn).
  set (d2 := if f1 then d1 else _).
  pose proof (pop_fault_tables d2) as T3. pose proof (pop_fault_stock d2) as S3.
  destruct (pop_fault d2) as [f3 d3] eqn:E3. cbn in T3, S3 |- *.
  destruct T3 as (T3o & T3i & T3p & T3n).
  rewrite T3o, T3i, T3p, T3n, S3. subst d2.
  destruct f1; cbn; rewrite ?To, ?Ti, ?Tp, ?Tn, ?S1.
  - split; [reflexivity|]. split; [reflexivity|]. split; [reflexivity|].
    split; [reflexivity|]. left; reflexivity.
  - split; [reflexivity|]. split; [reflexivity|]. split; [reflexivity|].
    split; [reflexivity|]. right; reflexivity.
Qed.

Lemma fold_insert_items_frame oid items : forall d,
  let d' := fold_left (insert_item oid) items d in
  orders d' = orders d /\ payments d' = payments d /\ next_order_id d' = next_order_id d
  /\ stock_updates d' = (stock_updates d ++ map item_id items)%list
  /\ (exists extra, order_items d' = (order_items d ++ extra)%list
        /\ (length extra <= length items)%nat
        /\ Forall (fun oi => oi_order_id oi = oid) extra).
Proof.
  induction items as [|it r IH]; intro d; cbn.
  - split; [reflexivity|]. split; [reflexivity|]. split; [reflexivity|].
    split; [now rewrite app_nil_r|]. exists []. split; [now rewrite app_nil_r|].
    split; [reflexivity|constructor].
  - destruct (IH (insert_item oid d it)) as (Ho & Hp & Hn & Hs & extra & Hi & Hl & Hf).
    destruct (insert_item_frame oid d it) as (Io & Ip & In' & Is & Ii).
    rewrite Ho, Hp, Hn, Hs, Io, Ip, In', Is, <- app_assoc.
    split; [reflexivity|]. split; [reflexivity|]. split; [reflexivity|].
    split; [reflexivity|].
    destruct Ii as [Ii|Ii]; rewrite Ii in Hi.
    + exists extra. split; [exact Hi|]. split; [lia|exact Hf].
    + exists (mkOrderItem oid (item_id it) (item_quantity it) (item_price it) :: extra).
      rewrite <- app_assoc in Hi. split; [exact Hi|]. split; [cbn; lia|].
      constructor; [reflexivity|exact Hf].
Qed.

(** The shape of every successful [verifyPayment]. *)
Lemma verifyPayment_ok_shape hmac key req d oid d' :
  verifyPayment hmac key req d = (PaymentOk oid, d') ->
  exists od items,
    razorpay_signature req = Some (expected_signature hmac key req)
    /\ orderData req = Some od /\ od_items od = Some (map Some items)
    /\ oid = next_order_id d /\ next_order_id d' = S oid
    /\ orders d' = (orders d ++ [mkOrder oid (od_userId od) "confirmed" (od_totalAmount od)
                                         (od_shippingAddress od) (razorpay_order_id req)
                                         (razorpay_payment_id req)])%list
    /\ stock_updates d' = (stock_updates d ++ map item_id items)%list
    /\ (payments d' = payments d
        \/ payments d' = (payments d ++ [mkPayment oid (od_totalAmount od) "success"
                                              (razorpay_order_id req) (razorpay_payment_id req)
                                              (razorpay_signature req)])%list)
    /\ (exists extra, order_items d' = (order_items d ++ extra)%list
          /\ (length extra <= length items)%nat
          /\ Forall (fun oi => oi_order_id oi = oid) extra).
Proof.
  unfold verifyPayment.
  destruct (Otp.opt_eqb _ _) eqn:Sig; cbn; [|discriminate].
  apply opt_eqb_some_l in Sig.
  destruct (orderData req) as [od|] eqn:Od; [|discriminate].
  pose proof (pop_fault_tables d) as T. pose proof (pop_fault_stock d) as S1.
  destruct (pop_fault d) as [f d1] eqn:E1. cbn in T, S1. destruct T as (To & Ti & Tp & Tn).
  destruct f; [discriminate|].
  destruct (od_items od) as [oitems|] eqn:Ei; [|discriminate].
  set (d2 := mkPdb _ _ _ _ _ _).
  pose proof (insert_items_thrown (next_order_id d1) oitems d2) as It.
  destruct (insert_items (next_order_id d1) oitems d2) as [th d3'] eqn:E3.
  destruct th; [discriminate|]. cbn [fst] in It.
  assert (Hn : ~ In None oitems) by (intro H; apply It in H; discriminate).
  destruct (insert_items_ok (next_order_id d1) oitems d2 Hn) as (items & -> & E3').
  rewrite E3 in E3'. injection E3' as ->.
  destruct (fold_insert_items_frame (next_order_id d1) items d2)
    as (Fo & Fp & Fn & Fs & extra & Fi & Fl & Ff).
  set (d3 := fold_left _ items d2) in *.
  pose proof (pop_fault_tables d3) as T3. pose proof (pop_fault_stock d3) as S3.
  destruct (pop_fault d3) as [f4 d4] eqn:E4. cbn in T3, S3. destruct T3 as (T4o & T4i & T4p & T4n).
  intro E. injection E as <- <-. rewrite Tn in Ff.
  exists od, items. split; [exact Sig|]. split; [reflexivity|]. split; [exact Ei|].
  split; [now rewrite Tn|].
  destruct f4; cbn; rewrite T4o, T4i, T4p, T4n, S3, Fo, Fp, Fn, Fs, Fi; cbn;
    rewrite To, Ti, Tp, Tn, S1.
  - split; [reflexivity|]. split; [reflexivity|]. split; [reflexivity|].
    split; [left; reflexivity|]. exists extra. split; [reflexivity|]. split; assumption.
  - split; [reflexivity|]. split; [reflexivity|]. split; [reflexivity|].
    split; [right; reflexivity|]. exists extra. split; [reflexivity|]. split; assumption.
Qed.

(** What a successful payment writes: exactly the confirmed orders row
    with the next id, one stock update per item in order, at most one
    payments row, and at most one order item per item, all of this order. *)
Theorem verifyPayment_success_effects hmac key req d oid d' :
  verifyPayment hmac key req d = (PaymentOk oid, d') ->
  exists od items,
    razorpay_signature req = Some (expected_signature hmac key req)
    /\ orderData req = Some od /\ od_items od = Some (map Some items)
    /\ oid = next_order_id d /\ next_order_id d' = S oid
    /\ orders d' = (orders d ++ [mkOrder oid (od_userId od) "confirmed" (od_totalAmount od)
                                         (od_shippingAddress od) (razorpay_order_id req)
                                         (razorpay_payment_id req)])%list
    /\ stock_updates d' = (stock_updates d ++ map item_id items)%list
    /\ (payments d' = payments d
        \/ payments d' = (payments d ++ [mkPayment oid (od_totalAmount od) "success"
                                              (razorpay_order_id req) (razorpay_payment_id req)
                                              (razorpay_signature req)])%list)
    /\ (exists extra, order_items d' = (order_items d ++ extra)%list
          /\ (length extra <= length items)%nat
          /\ Forall (fun oi => oi_order_id oi = oid) extra).
Proof. apply verifyPayment_ok_shape. Qed.

Import MoreSamples.

(** The paid sample order is stored as order 0, confirmed. *)
Lemma verifyPayment_success_effects_witness :
  fst (verifyPayment Samples.toy_hmac "k" paid Samples.empty_pdb) = PaymentOk 0
  /\ orders (snd (verifyPayment Samples.toy_hmac "k" paid Samples.empty_pdb))
     = [mkOrder 0 (Some "user_1") "confirmed" 499 "Pune" (Some "order_1") (Some "pay_1")].
Proof.
  assert (E : verifyPayment Samples.toy_hmac "k" paid Samples.empty_pdb
              = (PaymentOk 0, snd (verifyPayment Samples.toy_hmac "k" paid Samples.empty_pdb)))
    by (vm_compute; reflexivity).
  rewrite E. split; [reflexivity|]. cbn [snd].
  destruct (verifyPayment_success_effects _ _ _ _ _ _ E)
    as (od & items & _ & Hod & _ & Hoid & _ & Hord & _).
  cbn in Hod. injection Hod as <-. rewrite Hord, Hoid. reflexivity.
Defined.

End PaymentMoreFacts.

Module AdminOrdersFacts.
Import Payment AdminOrders PaymentFacts PaymentMoreFacts.

Lemma fold_sum_shift (l : list order_row) a :
  fold_left (fun sum o => sum + ord_total o) l a
  = a + fold_left (fun sum o => sum + ord_total o) l 0.
Proof.
  revert a. induction l as [|o l IH]; intro a; cbn; [lia|].
  rewrite (IH (a + ord_total o)). rewrite (IH (ord_total o)). lia.
Qed.

Lemma revenue_nil c : total_revenue (getStats (Some []) c) = 0.
Proof. reflexivity. Qed.

Lemma revenue_cons o l c :
  total_revenue (getStats (Some (o :: l)) c) = counted o + total_revenue (getStats (Some l) c).
Proof.
  unfold getStats, counted; cbn.
  destruct (String.eqb (ord_status o) "cancelled"); cbn; [lia|].
  rewrite fold_sum_shift. lia.
Qed.

Lemma revenue_app l1 l2 c :
  total_revenue (getStats (Some (l1 ++ l2)%list) c)
  = total_revenue (getStats (Some l1) c) + total_revenue (getStats (Some l2) c).
Proof.
  induction l1 as [|o l1 IH]; cbn [app]; [rewrite revenue_nil; lia|].
  rewrite !revenue_cons, IH. lia.
Qed.

Lemma getStats_fields l c :
  getStats (Some l) c
  = mkStats (length l) (total_revenue (getStats (Some l) c))
            (match c with Some n => n | None => 0 end)
            (pending_orders (getStats (Some l) c)).
Proof. reflexivity. Qed.

Lemma pending_app l1 l2 c :
  pending_orders (getStats (Some (l1 ++ l2)%list) c)
  = (pending_orders (getStats (Some l1) c) + pending_orders (getStats (Some l2) c))%nat.
Proof. cbn. now rewrite filter_app, length_app. Qed.

Lemma valid_status_in s : existsb (String.eqb s) validStatuses = true <-> In s validStatuses.
Proof.
  rewrite existsb_exists. split.
  - intros (x & Hx & E). apply String.eqb_eq in E. now subst.
  - intro H. exists s. split; [exact H|apply String.eqb_refl].
Qed.

(** [verifyPayment] leaves the orders table alone or appends the
    confirmed row. *)
Lemma verifyPayment_orders hmac key req d :
  orders (snd (verifyPayment hmac key req d)) = orders d
  \/ exists row, orders (snd (verifyPayment hmac key req d)) = (orders d ++ [row])%list
                 /\ ord_status row = "confirmed".
Proof.
  unfold verifyPayment.
  destruct (Otp.opt_eqb _ _); cbn; [|left; reflexivity].
  destruct (orderData req) as [od|]; [|left; reflexivity].
  pose proof (pop_fault_tables d) as T.
  destruct (pop_fault d) as [f d1]. cbn in T. destruct T as (To & _).
  destruct f; [left; exact To|]. right.
  eexists. split.
  { destruct (od_items od) as [items|]; cbn; [|now rewrite To].
    set (d2 := mkPdb _ _ _ _ _ _).
    pose proof (insert_items_orders (next_order_id d1) items d2) as Io.
    destruct (insert_items (next_order_id d1) items d2) as [th d3]. cbn in Io.
    destruct th; cbn; [rewrite Io; cbn; now rewrite To|].
    pose proof (pop_fault_tables d3) as T3.
    destruct (pop_fault d3) as [f4 d4]. cbn in T3. destruct T3 as (T3o & _).
    destruct f4; cbn; rewrite T3o, Io; cbn; now rewrite To. }
  reflexivity.
Qed.

Lemma filter_all_false {A} (f : A -> bool) (l : list A) :
  (forall x, In x l -> f x = false) -> filter f l = [].
Proof.
  induction l as [|y l IH]; intro H; cbn; [reflexivity|].
  rewrite (H y (or_introl eq_refl)). apply IH. intros x Hx. apply H. now right.
Qed.

Lemma updateOrderStatus_orders id st d r d' :
  updateOrderStatus id st d = (r, d') ->
  orders d' = orders d
  \/ exists s, st = Some s /\ In s validStatuses /\ orders d' = map (set_status id s) (orders d).
Proof.
  unfold updateOrderStatus.
  destruct st as [s|]; [|intros [= <- <-]; left; reflexivity].
  destruct (existsb (String.eqb s) validStatuses) eqn:V; [|intros [= <- <-]; left; reflexivity].
  apply valid_status_in in V.
  pose proof (pop_fault_tables d) as T.
  destruct (pop_fault d) as [f d1]. cbn in T. destruct T as (To & _).
  destruct f; [intros [= <- <-]; left; exact To|].
  destruct (Otp.single _); intros [= <- <-]; cbn;
    (right; exists s; split; [reflexivity| split; [exact V|now rewrite To]]).
Qed.

(** After a successful payment the admin stats count one order more, the
    paid total more in revenue, and the same pending orders. *)
Theorem stats_after_payment hmac key req d oid d' c :
  verifyPayment hmac key req d = (PaymentOk oid, d') ->
  exists od, orderData req = Some od
  /\ let s := getStats (Some (orders d)) c in
     getStats (Some (orders d')) c
     = mkStats (S (total_orders s)) (total_revenue s + od_totalAmount od)
               (total_products s) (pending_orders s).
Proof.
  intro E. destruct (verifyPayment_ok_shape hmac key req d oid d' E)
    as (od & items & _ & Hod & _ & _ & _ & Ho & _).
  exists od. split; [exact Hod|]. cbv zeta.
  rewrite getStats_fields. rewrite Ho. rewrite revenue_app, pending_app, length_app.
  rewrite revenue_cons, revenue_nil. cbn [length total_orders total_products getStats].
  unfold counted. cbn. f_equal; lia.
Qed.

(** Order statuses stay among the five the admin panel accepts, through
    status updates and through payments. *)
Theorem order_statuses_stay_valid :
  (forall id st d r d', statuses_valid d -> updateOrderStatus id st d = (r, d') ->
                        statuses_valid d') /\
  (forall hmac key req d, statuses_valid d -> statuses_valid (snd (verifyPayment hmac key req d))).
Proof.
  split.
  - intros id st d r d' Hv E.
    destruct (updateOrderStatus_orders id st d r d' E) as [Ho|(s & _ & Hs & Ho)];
      unfold statuses_valid; rewrite Ho; [exact Hv|].
    apply Forall_map. eapply Forall_impl; [|exact Hv]. intros o Ho'.
    unfold set_status. destruct (Nat.eqb (ord_id o) id); [exact Hs|exact Ho'].
  - intros hmac key req d Hv. unfold statuses_valid.
    destruct (verifyPayment_orders hmac key req d) as [Ho|(row & Ho & Hs)]; rewrite Ho; [exact Hv|].
    apply Forall_app. split; [exact Hv|]. constructor; [|constructor].
    rewrite Hs. cbn. tauto.
Qed.

Import MoreSamples.

(** After the paid sample order the stats report a revenue of 499. *)
Lemma stats_after_payment_witness :
  total_revenue (getStats (Some (orders (snd (verifyPayment Samples.toy_hmac "k" paid Samples.empty_pdb))))
                          None) = 499.
Proof.
  assert (E : verifyPayment Samples.toy_hmac "k" paid Samples.empty_pdb
              = (PaymentOk 0, snd (verifyPayment Samples.toy_hmac "k" paid Samples.empty_pdb)))
    by (vm_compute; reflexivity).
  destruct (stats_after_payment _ _ _ _ _ _ None E) as (od & Hod & G).
  cbn in Hod. injection Hod as <-. cbv zeta in G. rewrite G. reflexivity.
Defined.

End AdminOrdersFacts.

Module ApiKeyFacts.
Import Js ApiKey.

(** A request passes the API key check exactly when its header is a
    non-empty string equal to [API_SECRET_KEY]; every other request gets
    401 "Unauthorized". So with the variable unset or empty nothing passes. *)
Theorem requireApiKey_spec key secret :
  (requireApiKey key secret = KeyPass
   <-> exists k, key = Some k /\ k <> "" /\ secret = Some k)
  /\ (requireApiKey key secret <> KeyPass -> requireApiKey key secret = KeyReject 401 "Unauthorized")
  /\ ((secret = None \/ secret = Some "") -> requireApiKey key secret = KeyReject 401 "Unauthorized").
Proof.
  assert (Pass : requireApiKey key secret = KeyPass
                 <-> exists k, key = Some k /\ k <> "" /\ secret = Some k).
  { unfold requireApiKey, truthy, Otp.opt_eqb.
    destruct key as [k|]; cbn; [|split; [discriminate|intros (k & H & _); discriminate]].
    destruct (String.eqb k "") eqn:Ek; cbn.
    - apply String.eqb_eq in Ek. subst k. split; [discriminate|].
      intros (k' & [= <-] & H & _). contradiction.
    - apply String.eqb_neq in Ek.
      destruct secret as [s|]; cbn; [|split; [discriminate|intros (k' & _ & _ & H); discriminate]].
      destruct (String.eqb k s) eqn:Es; cbn.
      + apply String.eqb_eq in Es. subst s. split; [intros _; now exists k|reflexivity].
      + apply String.eqb_neq in Es. split; [discriminate|].
        intros (k' & [= <-] & _ & [= <-]). contradiction. }
  split; [exact Pass|].
  assert (Rej : requireApiKey key secret <> KeyPass ->
                requireApiKey key secret = KeyReject 401 "Unauthorized").
  { unfold requireApiKey. destruct (_ || _); [reflexivity|]. intro H; contradiction. }
  split; [exact Rej|].
  intro Hs. apply Rej. intro E. apply Pass in E. destruct E as (k & _ & Hk & Hsk).
  destruct Hs as [Hs|Hs]; rewrite Hs in Hsk; [discriminate|]. injection Hsk as <-. contradiction.
Qed.

End ApiKeyFacts.

Module AdminProductsFacts.
Import Js AdminProducts.

Lemma slug_char_fixed c : slug_char c = true -> lower_char c = c /\ is_ws c = false.
Proof.
  destruct c as [b0 b1 b2 b3 b4 b5 b6 b7].
  destruct b0, b1, b2, b3, b4, b5, b6, b7; vm_compute; intro H;
    solve [discriminate H | split; reflexivity].
Qed.

Lemma dash_ws_no_ws b l : forallb (fun c => negb (is_ws c)) l = true -> dash_ws b l = l.
Proof.
  revert b. induction l as [|c l IH]; intros b H; cbn in *; [reflexivity|].
  apply andb_true_iff in H. destruct H as [Hc Hl].
  destruct (is_ws c); [discriminate|]. f_equal. now apply IH.
Qed.

Lemma filter_all_slug l : forallb slug_char l = true -> filter slug_char l = l.
Proof.
  induction l as [|c l IH]; intro H; cbn in *; [reflexivity|].
  apply andb_true_iff in H. destruct H as [Hc Hl]. rewrite Hc. f_equal. now apply IH.
Qed.

Lemma forallb_filter_slug l : forallb slug_char (filter slug_char l) = true.
Proof.
  induction l as [|c l IH]; cbn; [reflexivity|].
  destruct (slug_char c) eqn:E; cbn; [rewrite E|]; exact IH.
Qed.

Lemma slugify_slug l :
  forallb slug_char l = true -> slugify (string_of_list_ascii l) = string_of_list_ascii l.
Proof.
  intro Hl. unfold slugify, toLowerCase. rewrite !list_ascii_of_string_of_list_ascii.
  f_equal.
  assert (Hm : map lower_char l = l).
  { clear -Hl. induction l as [|c l IH]; cbn in *; [reflexivity|].
    apply andb_true_iff in Hl. destruct Hl as [Hc Hl].
    f_equal; [apply (slug_char_fixed c Hc)|now apply IH]. }
  rewrite Hm, dash_ws_no_ws; [now apply filter_all_slug|].
  clear -Hl. induction l as [|c l IH]; cbn in *; [reflexivity|].
  apply andb_true_iff in Hl. destruct Hl as [Hc Hl].
  rewrite (proj2 (slug_char_fixed c Hc)). cbn. now apply IH.
Qed.

(** A generated slug only has the characters [a-z], [0-9] and [-], and
    generating a slug from a slug gives it back. *)
Theorem slugify_chars_idem name :
  forallb slug_char (list_ascii_of_string (slugify name)) = true
  /\ slugify (slugify name) = slugify name.
Proof.
  assert (Hl : forallb slug_char (list_ascii_of_string (slugify name)) = true).
  { unfold slugify at 1. rewrite list_ascii_of_string_of_list_ascii. apply forallb_filter_slug. }
  split; [exact Hl|].
  rewrite <- (string_of_list_ascii_of_string (slugify name)).
  rewrite slugify_slug by exact Hl. reflexivity.
Qed.

Lemma pop_call_tables d :
  products (snd (pop_call d)) = products d
  /\ product_images (snd (pop_call d)) = product_images d
  /\ next_product_id (snd (pop_call d)) = next_product_id d.
Proof. unfold pop_call. destruct (afaults d); cbn; auto. Qed.

Lemma insert_images_eff rows d :
  products (insert_images rows d) = products d
  /\ next_product_id (insert_images rows d) = next_product_id d
  /\ (product_images (insert_images rows d) = product_images d
      \/ product_images (insert_images rows d) = (product_images d ++ rows)%list).
Proof.
  unfold insert_images. pose proof (pop_call_tables d) as (Tp & Ti & Tn).
  destruct (pop_call d) as [f d1]. cbn in *.
  destruct f; cbn; rewrite Tp, Ti, Tn; auto.
Qed.

Lemma delete_images_eff pid d :
  products (delete_images pid d) = products d
  /\ next_product_id (delete_images pid d) = next_product_id d
  /\ (product_images (delete_images pid d) = product_images d
      \/ product_images (delete_images pid d)
          = filter (fun im => negb (Nat.eqb (im_product_id im) pid)) (product_images d)).
Proof.
  unfold delete_images. pose proof (pop_call_tables d) as (Tp & Ti & Tn).
  destruct (pop_call d) as [f d1]. cbn in *.
  destruct f; cbn; rewrite Tp, Ti, Tn; auto.
Qed.

(** Creating a product. A body with a falsy slug and no string name
    makes the handler throw, with nothing written; a failed insert writes
    nothing. Otherwise exactly one row is appended, with the next id: its
    slug is the given one or, when that is empty or missing, the slug of the
    name; it is active unless [is_active] is [false]; the images, if any
    are stored, are appended as [image_rows] of the new id. An [images]
    value that is truthy with [images.length > 0] but not an array makes
    the handler throw after the product row is inserted: that row stays and
    no image is stored. *)
Theorem createProduct_effect body d r d' :
  createProduct body d = (r, d') ->
  (r = Unhandled <-> (jtruthy (b_slug body) = false /\ (forall n, b_name body <> JStr n))
                     \/ (fst (pop_call d) = false /\ b_images body = INonArray true true))
  /\ (jtruthy (b_slug body) = false -> (forall n, b_name body <> JStr n) -> d' = d)
  /\ (r = Unhandled -> d' = d
        \/ (b_images body = INonArray true true
            /\ exists p, pr_id p = next_product_id d
                         /\ products d' = (products d ++ [p])%list
                         /\ next_product_id d' = S (next_product_id d)
                         /\ product_images d' = product_images d))
  /\ (r = ProductDbError -> products d' = products d /\ product_images d' = product_images d)
  /\ r <> Deleted
  /\ (forall st p, r = ProductSaved st p ->
        st = 201 /\ pr_id p = next_product_id d
        /\ products d' = (products d ++ [p])%list
        /\ next_product_id d' = S (next_product_id d)
        /\ (jtruthy (b_slug body) = true -> pr_slug p = col (b_slug body))
        /\ (forall n, jtruthy (b_slug body) = false -> b_name body = JStr n ->
                      pr_slug p = Some (slugify n))
        /\ (pr_is_active p = false <-> b_is_active body = Some false)
        /\ (product_images d' = product_images d
            \/ exists urls, b_images body = IArray urls
                            /\ product_images d' = (product_images d
                                                    ++ image_rows (pr_id p) (pr_name p) 0 urls)%list)).
Proof.
  unfold createProduct.
  destruct (if jtruthy (b_slug body) then Some (col (b_slug body)) else _) as [sl|] eqn:Sl.
  2:{ intros [= <- <-].
      assert (Hu : jtruthy (b_slug body) = false /\ (forall n, b_name body <> JStr n)).
      { destruct (jtruthy (b_slug body)); [discriminate|].
        split; [reflexivity|]. intros n Hn. rewrite Hn in Sl. discriminate. }
      split; [split; [intros _; left; exact Hu|reflexivity]|].
      split; [intros _ _; reflexivity|]. split; [intros _; left; reflexivity|].
      split; [discriminate|]. split; [discriminate|].
      intros st p Hp; discriminate. }
  assert (NotU : ~ (jtruthy (b_slug body) = false /\ (forall n, b_name body <> JStr n))).
  { intros [Hj Hn]. rewrite Hj in Sl. destruct (b_name body) as [| |n]; try discriminate.
    exact (Hn n eq_refl). }
  assert (NotU' : jtruthy (b_slug body) = false -> (forall n, b_name body <> JStr n) -> False)
    by (intros Hj Hn; exact (NotU (conj Hj Hn))).
  assert (Slug : (jtruthy (b_slug body) = true -> sl = col (b_slug body))
                 /\ (forall n, jtruthy (b_slug body) = false -> b_name body = JStr n ->
                               sl = Some (slugify n))).
  { split.
    - intro Hj. rewrite Hj in Sl. now injection Sl.
    - intros n Hj Hn. rewrite Hj, Hn in Sl. now injection Sl. }
  pose proof (pop_call_tables d) as (Tp & Ti & Tn).
  destruct (pop_call d) as [f d1]. cbn in Tp, Ti, Tn. cbn [fst].
  destruct f.
  { intros [= <- <-].
    split; [split; [discriminate|intros [H|[H _]]; [contradiction|discriminate]]|].
    split; [intros Hj Hn; exfalso; exact (NotU' Hj Hn)|].
    split; [discriminate|]. split; [intros _; split; assumption|].
    split; [discriminate|]. intros st p Hp; discriminate. }
  set (row := mkProw _ _ _ _ _ _ _ _ _ _ _ _ _ _ _).
  assert (Row : forall st p d'',
     ((ProductSaved 201 row, d'') = (ProductSaved st p, d''))
     -> products d'' = (products d ++ [p])%list
     -> next_product_id d'' = S (next_product_id d)
     -> (product_images d'' = product_images d
         \/ exists urls, b_images body = IArray urls
                         /\ product_images d'' = (product_images d
                                                 ++ image_rows (pr_id p) (pr_name p) 0 urls)%list)
     -> st = 201 /\ pr_id p = next_product_id d
        /\ products d'' = (products d ++ [p])%list
        /\ next_product_id d'' = S (next_product_id d)
        /\ (jtruthy (b_slug body) = true -> pr_slug p = col (b_slug body))
        /\ (forall n, jtruthy (b_slug body) = false -> b_name body = JStr n ->
                      pr_slug p = Some (slugify n))
        /\ (pr_is_active p = false <-> b_is_active body = Some false)
        /\ (product_images d'' = product_images d
            \/ exists urls, b_images body = IArray urls
                            /\ product_images d'' = (product_images d
                                                    ++ image_rows (pr_id p) (pr_name p) 0 urls)%list)).
  { intros st p d'' [= <- <-] Hp Hn Hi.
    split; [reflexivity|]. split; [cbn; exact Tn|]. split; [exact Hp|]. split; [exact Hn|].
    split; [exact (proj1 Slug)|]. split; [exact (proj2 Slug)|].
    split; [|exact Hi]. cbn.
    destruct (b_is_active body) as [[|]|]; split; congruence. }
  destruct (b_images body) as [| |[|u us]|[|] [|]] eqn:Im; intros [= <- <-].
  5:{ split; [split; [intros _; right; split; reflexivity|reflexivity]|].
      split; [intros Hj Hn; exfalso; exact (NotU' Hj Hn)|].
      split; [intros _; right; split; [reflexivity|]|].
      { exists row. cbn. rewrite Tp, Ti, Tn.
        split; [reflexivity|]. split; [reflexivity|]. split; reflexivity. }
      split; [discriminate|]. split; [discriminate|]. intros st p Hp; discriminate. }
  all: split; [split; [discriminate|intros [H|[_ H]]; [contradiction|discriminate]]|];
       split; [intros Hj Hn; exfalso; exact (NotU' Hj Hn)|];
       split; [discriminate|]; split; [discriminate|]; split; [discriminate|];
       intros st p Hp; injection Hp as <- <-.
  4:{ match goal with |- context [insert_images ?rs ?dd] =>
        destruct (insert_images_eff rs dd) as (Ip & In' & Ii) end.
      apply (Row 201 row); [reflexivity|rewrite Ip; cbn; now rewrite Tp|rewrite In'; cbn; now rewrite Tn|].
      cbn in Ii. destruct Ii as [Ii|Ii]; rewrite Ii;
        [left; exact Ti|right; exists (u :: us); split; [reflexivity|cbn; now rewrite Ti]]. }
  all: apply (Row 201 row); [reflexivity| cbn; now rewrite Tp| cbn; now rewrite Tn|];
       left; cbn; exact Ti.
Qed.

Lemma image_rows_pid pid alt idx urls :
  Forall (fun im => im_product_id im = pid) (image_rows pid alt idx urls).
Proof.
  revert idx. induction urls as [|u r IH]; intro idx; cbn; constructor; [reflexivity|apply IH].
Qed.

Lemma filter_other_image_rows id alt idx urls :
  filter (fun im => negb (Nat.eqb (im_product_id im) id)) (image_rows id alt idx urls) = [].
Proof.
  apply AdminOrdersFacts.filter_all_false. intros im Him.
  pose proof (image_rows_pid id alt idx urls) as F. rewrite Forall_forall in F.
  rewrite (F im Him), Nat.eqb_refl. reflexivity.
Qed.

Lemma filter_same_image_rows id alt idx urls :
  filter (fun im => Nat.eqb (im_product_id im) id) (image_rows id alt idx urls)
  = image_rows id alt idx urls.
Proof.
  revert idx. induction urls as [|u r IH]; intro idx; cbn; [reflexivity|].
  rewrite Nat.eqb_refl. f_equal. apply IH.
Qed.

Lemma filter_filter_same {A} (f : A -> bool) l : filter f (filter f l) = filter f l.
Proof.
  induction l as [|x l IH]; cbn; [reflexivity|].
  destruct (f x) eqn:E; cbn; [rewrite E; f_equal|]; exact IH.
Qed.

Lemma filter_neg_filter {A} (f : A -> bool) l : filter f (filter (fun x => negb (f x)) l) = [].
Proof.
  induction l as [|x l IH]; cbn; [reflexivity|].
  destruct (f x) eqn:E; cbn; [exact IH|rewrite E; exact IH].
Qed.

Lemma filter_other_update id (g : prow -> prow) l :
  (forall p, pr_id (g p) = pr_id p) ->
  filter (fun p => negb (Nat.eqb (pr_id p) id))
         (map (fun p => if Nat.eqb (pr_id p) id then g p else p) l)
  = filter (fun p => negb (Nat.eqb (pr_id p) id)) l.
Proof.
  intro Hg. induction l as [|x l IH]; cbn; [reflexivity|].
  destruct (Nat.eqb (pr_id x) id) eqn:E; cbn; [rewrite Hg, E; exact IH|rewrite E; cbn; f_equal; exact IH].
Qed.

Lemma delete_images_other id d : other_images id (delete_images id d) = other_images id d.
Proof.
  unfold other_images. destruct (delete_images_eff id d) as (_ & _ & [E|E]); rewrite E;
    [reflexivity|apply filter_filter_same].
Qed.

Lemma insert_images_other id rows d :
  Forall (fun im => im_product_id im = id) rows ->
  other_images id (insert_images rows d) = other_images id d.
Proof.
  intro F. unfold other_images. destruct (insert_images_eff rows d) as (_ & _ & [E|E]);
    rewrite E; [reflexivity|]. rewrite filter_app.
  rewrite (AdminOrdersFacts.filter_all_false _ rows), app_nil_r; [reflexivity|].
  intros im Him. rewrite Forall_forall in F. rewrite (F im Him), Nat.eqb_refl. reflexivity.
Qed.

(** Updating a product touches neither the other products nor their
    images, adds no product, and leaves the images alone when the body has
    no [images]. A reported product is the row with that id, stamped with
    the update time. *)
Theorem updateProduct_frame id body now d r d' :
  updateProduct id body now d = (r, d') ->
  other_products id d' = other_products id d
  /\ other_images id d' = other_images id d
  /\ length (products d') = length (products d)
  /\ next_product_id d' = next_product_id d
  /\ (b_images body = IUndef -> product_images d' = product_images d)
  /\ (forall st p, r = ProductSaved st p ->
        st = 200 /\ pr_id p = id /\ pr_updated_at p = Some now /\ In p (products d')).
Proof.
  unfold updateProduct.
  pose proof (pop_call_tables d) as (Tp & Ti & Tn).
  destruct (pop_call d) as [f d1]. cbn in Tp, Ti, Tn.
  destruct f.
  { intros [= <- <-]. unfold other_products, other_images. rewrite Tp, Ti, Tn.
    split; [reflexivity|]. split; [reflexivity|]. split; [reflexivity|]. split; [reflexivity|].
    split; [intros _; reflexivity|]. intros st p Hp; discriminate. }
  set (ps := map _ (products d1)).
  set (d2 := mkAdb ps (product_images d1) (next_product_id d1) (afaults d1)).
  assert (Hps : other_products id d2 = other_products id d).
  { unfold other_products. cbn. subst ps. rewrite filter_other_update; [now rewrite Tp|].
    intro p; reflexivity. }
  assert (Hlen : length (products d2) = length (products d)).
  { cbn. subst ps. now rewrite length_map, Tp. }
  assert (Hi2 : other_images id d2 = other_images id d).
  { unfold other_images. cbn. now rewrite Ti. }
  assert (Hsaved : forall p, Otp.single (filter (fun p => Nat.eqb (pr_id p) id) ps) = Otp.QOk p ->
                     pr_id p = id /\ pr_updated_at p = Some now /\ In p (products d2)).
  { intros p Sg. apply CatalogFacts.single_filter_in in Sg. destruct Sg as [Hin Hid].
    apply Nat.eqb_eq in Hid. split; [exact Hid|]. split; [|exact Hin].
    subst ps. apply in_map_iff in Hin. destruct Hin as (q & Hq & _).
    destruct (Nat.eqb (pr_id q) id) eqn:E; [rewrite <- Hq; reflexivity|].
    subst q. rewrite Hid, Nat.eqb_refl in E. discriminate. }
  destruct (Otp.single _) as [p|] eqn:Sg.
  2:{ intros [= <- <-]. split; [exact Hps|]. split; [exact Hi2|]. split; [exact Hlen|].
      split; [cbn; exact Tn|]. split; [intros _; cbn; exact Ti|]. intros st q Hq; discriminate. }
  destruct (Hsaved p eq_refl) as (Hid & Hup & Hin).
  destruct (delete_images_eff id d2) as (Dp & Dn & _).
  pose proof (delete_images_other id d2) as Do.
  assert (Common : forall r0 d'', b_images body <> IUndef ->
                     (r0 = Unhandled \/ r0 = ProductSaved 200 p) ->
                     products d'' = products d2 -> next_product_id d'' = next_product_id d2 ->
                     other_images id d'' = other_images id d ->
                     other_products id d'' = other_products id d
                     /\ other_images id d'' = other_images id d
                     /\ length (products d'') = length (products d)
                     /\ next_product_id d'' = next_product_id d
                     /\ (b_images body = IUndef -> product_images d'' = product_images d)
                     /\ (forall st q, r0 = ProductSaved st q ->
                           st = 200 /\ pr_id q = id /\ pr_updated_at q = Some now
                           /\ In q (products d''))).
  { intros r0 d'' Hu Hr Hp Hn Hi. unfold other_products in *. rewrite Hp.
    split; [exact Hps|]. split; [exact Hi|]. split; [exact Hlen|].
    split; [rewrite Hn; cbn; exact Tn|]. split; [intro; contradiction|].
    intros st q Hq. destruct Hr as [->| ->]; [discriminate|].
    injection Hq as <- <-. split; [reflexivity|]. split; [exact Hid|]. split; [exact Hup|exact Hin]. }
  destruct (b_images body) as [| |urls|tr lp] eqn:Im.
  - intros [= <- <-]. split; [exact Hps|]. split; [exact Hi2|]. split; [exact Hlen|].
    split; [cbn; exact Tn|]. split; [intros _; cbn; exact Ti|].
    intros st q [= <- <-]. split; [reflexivity|]. split; [exact Hid|]. split; [exact Hup|exact Hin].
  - intros [= <- <-]. apply Common; [discriminate|now left|exact Dp|exact Dn|rewrite Do; exact Hi2].
  - destruct urls as [|u us]; intros [= <- <-].
    + apply Common; [discriminate|now right|exact Dp|exact Dn|rewrite Do; exact Hi2].
    + match goal with |- context [insert_images ?rs ?dd] =>
        destruct (insert_images_eff rs dd) as (Ip & In' & _);
        assert (F : Forall (fun im => im_product_id im = id) rs)
          by exact (image_rows_pid id (col (b_name body)) 0 (u :: us)) end.
      apply Common; [discriminate|now right|rewrite Ip; exact Dp|rewrite In'; exact Dn|].
      rewrite (insert_images_other id _ _ F), Do. exact Hi2.
  - destruct lp; intros [= <- <-];
      (apply Common; [discriminate|now (left + right)|exact Dp|exact Dn|rewrite Do; exact Hi2]).
Qed.

Lemma pop_call_nil d : afaults d = [] -> pop_call d = (false, d).
Proof. unfold pop_call. now intros ->. Qed.

(** When every database call succeeds, an update whose body has
    [images] leaves exactly the rows [image_rows id name 0 images] as the
    images of that product. *)
Theorem updateProduct_replaces_images id body now d st p d' urls :
  afaults d = [] ->
  updateProduct id body now d = (ProductSaved st p, d') ->
  b_images body = IArray urls ->
  filter (fun im => Nat.eqb (im_product_id im) id) (product_images d')
  = image_rows id (col (b_name body)) 0 urls.
Proof.
  intros Hf. unfold updateProduct. rewrite (pop_call_nil d Hf).
  destruct (Otp.single _) as [q|]; [|discriminate].
  intros E Im. rewrite Im in E.
  unfold delete_images in E. rewrite pop_call_nil in E by (cbn; exact Hf).
  destruct urls as [|u us].
  - injection E as _ _ <-. cbn. apply filter_neg_filter.
  - unfold insert_images in E. rewrite pop_call_nil in E by (cbn; exact Hf).
    injection E as _ _ <-. cbn [product_images]. rewrite filter_app, filter_neg_filter.
    exact (filter_same_image_rows id (col (b_name body)) 0 (u :: us)).
Qed.

(** Deleting a product. The answer is success or a database error; the
    other products and their images stay. On success no row with that id is
    left (an unknown id also answers success). The images are deleted first
    and are gone whenever that call succeeded, even when the product delete
    then fails. *)
Theorem deleteProduct_effect id d r d' :
  deleteProduct id d = (r, d') ->
  (r = Deleted \/ r = ProductDbError)
  /\ other_products id d' = other_products id d
  /\ other_images id d' = other_images id d
  /\ (r = Deleted -> forall p, In p (products d') -> pr_id p <> id)
  /\ (r = ProductDbError -> products d' = products d)
  /\ (fst (pop_call d) = false -> forall im, In im (product_images d') -> im_product_id im <> id).
Proof.
  unfold deleteProduct.
  pose proof (delete_images_other id d) as Do.
  assert (Gone : fst (pop_call d) = false -> forall im, In im (product_images (delete_images id d)) ->
                 im_product_id im <> id).
  { unfold delete_images. destruct (pop_call d) as [f d1]. cbn. intros -> im Him.
    apply filter_In in Him. destruct Him as [_ H]. intro E. rewrite E, Nat.eqb_refl in H.
    discriminate. }
  destruct (delete_images_eff id d) as (Dp & Dn & _).
  set (d1 := delete_images id d) in *.
  pose proof (pop_call_tables d1) as (Tp & Ti & Tn).
  destruct (pop_call d1) as [f d2]. cbn in Tp, Ti, Tn.
  destruct f; intros [= <- <-].
  - split; [right; reflexivity|].
    unfold other_products, other_images in *. rewrite Tp, Ti, Dp.
    split; [reflexivity|]. split; [exact Do|]. split; [discriminate|].
    split; [intros _; reflexivity|]. exact Gone.
  - split; [left; reflexivity|].
    unfold other_products, other_images in *. cbn. rewrite Tp, Ti, Dp.
    split; [apply filter_filter_same|]. split; [exact Do|].
    split.
    { intros _ p Hp. apply filter_In in Hp. destruct Hp as [_ H]. intro E.
      rewrite E, Nat.eqb_refl in H. discriminate. }
    split; [discriminate|]. exact Gone.
Qed.

Lemma split_on_segments c l : Forall (fun seg => ~ In c seg) (split_on c l) /\ split_on c l <> [].
Proof.
  induction l as [|x r [IH1 IH2]]; cbn.
  - split; [constructor; [intros []|constructor]|discriminate].
  - destruct (Ascii.eqb x c) eqn:E.
    + split; [constructor; [intros []|exact IH1]|discriminate].
    + destruct (split_on c r) as [|s ss]; [contradiction|].
      inversion IH1 as [|? ? Hs Hss]; subst.
      split; [|discriminate]. constructor; [|exact Hss].
      intros [<-|H]; [rewrite Ascii.eqb_refl in E; discriminate|contradiction].
Qed.

Lemma split_on_none c l : ~ In c l -> split_on c l = [l].
Proof.
  induction l as [|x r IH]; intro H; cbn; [reflexivity|].
  destruct (Ascii.eqb x c) eqn:E.
  - apply Ascii.eqb_eq in E. subst. exfalso. apply H. now left.
  - rewrite IH; [reflexivity|]. intro Hr. apply H. now right.
Qed.

Lemma last_in {A} (l : list A) (x : A) : l <> [] -> In (last l x) l.
Proof.
  induction l as [|a l IH]; intro H; [contradiction|].
  destruct l as [|b l']; [now left|]. right. apply IH. discriminate.
Qed.

Lemma split_on_after c l1 l2 :
  exists seg segs, split_on c (l1 ++ c :: l2) = (seg :: segs ++ split_on c l2)%list.
Proof.
  induction l1 as [|x r IH]; cbn.
  - rewrite Ascii.eqb_refl. exists [], []. reflexivity.
  - destruct IH as (seg & segs & E). rewrite E.
    destruct (Ascii.eqb x c).
    + exists [], (seg :: segs). reflexivity.
    + exists (x :: seg), segs. reflexivity.
Qed.

Lemma last_app_ne {A} (l l' : list A) (x : A) : l' <> [] -> last (l ++ l') x = last l' x.
Proof.
  intro H. induction l as [|a l IH]; [reflexivity|].
  cbn [app]. rewrite <- IH. destruct (l ++ l')%list eqn:E; [|reflexivity].
  apply app_eq_nil in E. destruct E as [_ E]. contradiction.
Qed.

(** The extension of an uploaded file is the part of the name after its
    last dot, or "jpg" when that part is empty; a name without a dot is
    its own extension ("jpg" for the empty name). The extension is never
    empty and has no dot. *)
Theorem file_ext_spec name :
  (forall pre suf, list_ascii_of_string name = (pre ++ "."%char :: suf)%list ->
     ~ In "."%char suf ->
     file_ext name = match suf with [] => "jpg" | _ => string_of_list_ascii suf end)
  /\ (~ In "."%char (list_ascii_of_string name) ->
      file_ext name = match name with EmptyString => "jpg" | _ => name end)
  /\ file_ext name <> ""
  /\ ~ In "."%char (list_ascii_of_string (file_ext name)).
Proof.
  split; [|split; [|split]].
  - intros pre suf Hn Hs. unfold file_ext. rewrite Hn.
    destruct (split_on_after "."%char pre suf) as (seg & segs & ->).
    rewrite app_comm_cons, last_app_ne by (apply split_on_segments).
    rewrite (split_on_none _ _ Hs). cbn [last].
    destruct suf as [|a r]; [reflexivity|]. reflexivity.
  - intro Hd. unfold file_ext. rewrite (split_on_none _ _ Hd). cbn [last].
    rewrite string_of_list_ascii_of_string.
    destruct name; reflexivity.
  - unfold file_ext.
    destruct (String.eqb (string_of_list_ascii _) "") eqn:E; [discriminate|].
    apply String.eqb_neq in E. exact E.
  - unfold file_ext.
    destruct (split_on_segments "." (list_ascii_of_string name)) as [F Hne].
    pose proof (last_in _ [] Hne) as Hl. rewrite Forall_forall in F.
    set (seg := last _ []) in *.
    destruct (String.eqb (string_of_list_ascii seg) "") eqn:E.
    + cbn. intros [H|[H|[H|[]]]]; discriminate.
    + rewrite list_ascii_of_string_of_list_ascii. exact (F seg Hl).
Qed.

(** An upload without a file answers 400 and one over 5 MB is refused,
    both without storing anything. The bucket only ever gains one path, of
    the form [products/<now>-<random>.<ext>], which was not in it before
    (an existing object is never overwritten), and the answer is that
    path's public url. *)
Theorem uploadImage_effect publicUrl file now rnd bucket fails r bucket' :
  uploadImage publicUrl file now rnd bucket fails = (r, bucket') ->
  (r = NoFile <-> file = None)
  /\ (r = TooLarge <-> exists f, file = Some f /\ 5 * 1024 * 1024 < size f)
  /\ ((bucket' = bucket /\ forall u, r <> Uploaded u)
      \/ exists f path, file = Some f
                       /\ size f <= 5 * 1024 * 1024
                       /\ path = upload_path now rnd (file_ext (originalname f))
                       /\ ~ In path bucket
                       /\ bucket' = (bucket ++ [path])%list
                       /\ r = Uploaded (publicUrl path)).
Proof.
  unfold uploadImage. destruct file as [f|].
  2:{ intros [= <- <-]. split; [split; reflexivity|].
      split; [split; [discriminate|intros (f & H & _); discriminate]|].
      left. split; [reflexivity|discriminate]. }
  destruct (5 * 1024 * 1024 <? size f) eqn:Big.
  { apply Z.ltb_lt in Big. intros [= <- <-]. split; [split; discriminate|].
    split; [split; [intros _; now exists f|reflexivity]|].
    left. split; [reflexivity|discriminate]. }
  apply Z.ltb_ge in Big.
  assert (NotBig : ~ exists f', Some f = Some f' /\ 5 * 1024 * 1024 < size f').
  { intros (f' & [= <-] & H). lia. }
  set (path := upload_path now rnd (file_ext (originalname f))).
  destruct (fails || existsb (String.eqb path) bucket) eqn:Fl.
  - intros [= <- <-]. split; [split; discriminate|].
    split; [split; [discriminate|intro H; contradiction]|].
    left. split; [reflexivity|discriminate].
  - intros [= <- <-]. split; [split; discriminate|].
    split; [split; [discriminate|intro H; contradiction]|].
    right. exists f, path. split; [reflexivity|]. split; [exact Big|]. split; [reflexivity|].
    split; [|split; reflexivity].
    apply orb_false_iff in Fl. destruct Fl as [_ Fl]. intro Hin.
    assert (existsb (String.eqb path) bucket = true)
      by (apply existsb_exists; exists path; split; [exact Hin|apply String.eqb_refl]).
    congruence.
Qed.

Import MoreSamples.

(** Creating [hawk] stores it with the slug of its name. *)
Lemma createProduct_effect_witness :
  exists p, fst (createProduct hawk empty_adb) = ProductSaved 201 p /\ pr_slug p = Some "sky-hawk-x".
Proof.
  destruct (createProduct hawk empty_adb) as [r d'] eqn:E.
  destruct r as [st p| | |]; try (vm_compute in E; discriminate E).
  destruct (createProduct_effect _ _ _ _ E) as (_ & _ & _ & _ & _ & S).
  destruct (S st p eq_refl) as (-> & _ & _ & _ & _ & N & _).
  exists p. split; [reflexivity|].
  rewrite (N "Sky Hawk X" eq_refl eq_refl). reflexivity.
Defined.

(** Updating [hawk] stamps the row with the time of the update. *)
Lemma updateProduct_frame_witness :
  exists p, fst (updateProduct 0 hawk_v2 5 hawk_adb) = ProductSaved 200 p
            /\ pr_updated_at p = Some 5.
Proof.
  destruct (updateProduct 0 hawk_v2 5 hawk_adb) as [r d'] eqn:E.
  destruct r as [st p| | |]; try (vm_compute in E; discriminate E).
  destruct (updateProduct_frame _ _ _ _ _ _ E) as (_ & _ & _ & _ & _ & S).
  destruct (S st p eq_refl) as (-> & _ & U & _).
  exists p. split; [reflexivity | exact U].
Defined.

(** Updating [hawk] with one image leaves exactly that image. *)
Lemma updateProduct_replaces_images_witness :
  filter (fun im => Nat.eqb (im_product_id im) 0)
         (product_images (snd (updateProduct 0 hawk_v2 5 hawk_adb)))
  = image_rows 0 (Some "Sky Hawk X") 0 ["c.jpg"].
Proof.
  destruct (updateProduct 0 hawk_v2 5 hawk_adb) as [r d'] eqn:E.
  destruct r as [st p| | |]; try (vm_compute in E; discriminate E).
  exact (updateProduct_replaces_images 0 hawk_v2 5 hawk_adb st p d' ["c.jpg"]
           ltac:(vm_compute; reflexivity) E eq_refl).
Defined.

(** Deleting [hawk] succeeds. *)
Lemma deleteProduct_effect_witness :
  fst (deleteProduct 0 hawk_adb) = Deleted
  /\ forall p, In p (products (snd (deleteProduct 0 hawk_adb))) -> pr_id p <> 0%nat.
Proof.
  destruct (deleteProduct 0 hawk_adb) as [r d'] eqn:E.
  destruct r as [st p| | |]; try (vm_compute in E; discriminate E).
  split; [reflexivity|].
  destruct (deleteProduct_effect _ _ _ _ E) as (_ & _ & _ & D & _).
  exact (D eq_refl).
Defined.

(** A small photo is stored under a fresh path and its public url answered. *)
Lemma uploadImage_effect_witness :
  exists path, snd (uploadImage cdn (Some photo) 1700 "abc" [] false) = [path]
               /\ fst (uploadImage cdn (Some photo) 1700 "abc" [] false) = Uploaded (cdn path).
Proof.
  destruct (uploadImage_effect cdn (Some photo) 1700 "abc" [] false _ _ (surjective_pairing _))
    as (_ & _ & [[B _] | (f & path & _ & _ & _ & _ & Hb & Hr)]).
  - vm_compute in B. discriminate B.
  - exists path. split; [exact Hb | exact Hr].
Defined.

End AdminProductsFacts.

Module CatalogMoreFacts.
Import Catalog CatalogSorted CatalogFacts.

Section Sort.
Variable le : product -> product -> bool.
Hypothesis le_total : forall a b, le a b = false -> le b a = true.

Lemma insert_head y x l : le y x = true -> head_le le y l -> head_le le y (insert_by le x l).
Proof.
  intros Hyx Hl. destruct l as [|z r]; cbn; [exact Hyx|].
  destruct (le x z); cbn; [exact Hyx|exact Hl].
Qed.

Lemma insert_sorted x l : adj_sorted le l -> adj_sorted le (insert_by le x l).
Proof.
  induction l as [|y r IH]; intro H; cbn; [exact I|].
  destruct (le x y) eqn:E.
  - cbn. split; [exact E|exact H].
  - assert (Hr : adj_sorted le r) by (destruct r; [exact I|exact (proj2 H)]).
    assert (Hh : head_le le y (insert_by le x r)).
    { apply insert_head; [now apply le_total|]. destruct r; [exact I|exact (proj1 H)]. }
    specialize (IH Hr). destruct (insert_by le x r) as [|z r'] eqn:Ei; [exact I|].
    split; [exact Hh|exact IH].
Qed.

Lemma sort_sorted l : adj_sorted le (sort_by le l).
Proof.
  unfold sort_by. induction l as [|x l IH]; cbn; [exact I|]. now apply insert_sorted.
Qed.

End Sort.

Lemma adj_sorted_tail le a l : adj_sorted le (a :: l) -> adj_sorted le l.
Proof. destruct l; cbn; [trivial|tauto]. Qed.

Lemma adj_sorted_skipn le n : forall l, adj_sorted le l -> adj_sorted le (skipn n l).
Proof.
  induction n as [|n IH]; intros l H; [exact H|].
  destruct l as [|a l]; [exact I|]. cbn. apply IH. exact (adj_sorted_tail le a l H).
Qed.

Lemma adj_sorted_firstn le n : forall l, adj_sorted le l -> adj_sorted le (firstn n l).
Proof.
  induction n as [|n IH]; intros l H; [exact I|].
  destruct l as [|a l]; [exact I|]. cbn.
  specialize (IH l (adj_sorted_tail le a l H)).
  destruct n as [|n]; [exact I|]. destruct l as [|b l]; [exact I|].
  cbn in *. split; [exact (proj1 H)|exact IH].
Qed.

Lemma order_le_total sort a b : order_le sort a b = false -> order_le sort b a = true.
Proof.
  unfold order_le. intro H. apply orb_false_iff in H. destruct H as [H1 H2].
  apply Z.ltb_ge in H1. destruct (Z.eqb_spec (p_created_at a) (p_created_at b)) as [E|E].
  - rewrite E, Z.eqb_refl, Z.ltb_irrefl. cbn in H2 |- *.
    destruct sort as [s|]; [|discriminate].
    repeat match goal with
           | H : context [match ?x with _ => _ end] |- _ => destruct x
           end;
      try discriminate; try reflexivity;
      try (apply Z.leb_gt in H2; apply Z.leb_le; lia).
  - assert (p_created_at a < p_created_at b) by lia.
    apply orb_true_iff. left. now apply Z.ltb_lt.
Qed.

Lemma embed_some cats f p p' c :
  embed cats f p = (p', Some c) ->
  p' = p /\ In c cats /\ c_id c = p_category_id p /\ (forall s, f = Some s -> c_slug c = s).
Proof.
  unfold embed. destruct (find _ cats) as [c0|] eqn:F.
  - apply find_some in F. destruct F as [Hin Hid]. apply String.eqb_eq in Hid.
    destruct f as [s|].
    + destruct (String.eqb (c_slug c0) s) eqn:Es; [|discriminate].
      intros [= <- <-]. apply String.eqb_eq in Es.
      split; [reflexivity|]. split; [exact Hin|]. split; [exact Hid|]. now intros s' [= <-].
    + intros [= <- <-]. split; [reflexivity|]. split; [exact Hin|]. split; [exact Hid|].
      discriminate.
  - destruct f; intros [= _ _]; discriminate.
Qed.

(** A product listing has at most [limit] products, is ordered newest
    first (then by price when a price sort is asked), keeps to the price
    bounds, and every embedded category is the product's own and has the
    requested slug. *)
Theorem getAllProducts_listing q e d data page limit :
  getAllProducts q e d = Listing data page limit ->
  e = false /\ page = q_page q /\ limit = q_limit q
  /\ (length data <= Z.to_nat (q_limit q))%nat
  /\ adj_sorted (order_le (q_sort q)) (map fst data)
  /\ (forall p, In p (map fst data) ->
        (forall m, q_min_price q = Some m -> m <= p_price p)
        /\ (forall m, q_max_price q = Some m -> p_price p <= m))
  /\ (forall p c, In (p, Some c) data ->
        In c (categories d) /\ c_id c = p_category_id p
        /\ (forall s, q_category q = Some s -> c_slug c = s)).
Proof.
  unfold getAllProducts.
  set (r1 := filter p_is_active (products d)).
  set (r2 := match q_min_price q with Some m => _ | None => r1 end).
  set (r3 := match q_max_price q with Some m => _ | None => r2 end).
  set (rows := sort_by _ r3).
  destruct (e || _ || _) eqn:Err; [discriminate|].
  intros [= <- <- <-].
  apply orb_false_iff in Err. destruct Err as [Err _]. apply orb_false_iff in Err.
  destruct Err as [-> _].
  split; [reflexivity|]. split; [reflexivity|]. split; [reflexivity|].
  rewrite map_fst_embed.
  split; [rewrite length_map; apply firstn_le_length|].
  split.
  { apply adj_sorted_firstn, adj_sorted_skipn, sort_sorted. apply order_le_total. }
  split.
  { intros p Hp. apply in_firstn_l, in_skipn_l in Hp. apply in_sort_by in Hp.
    split.
    - intros m Hm. subst r3 r2. rewrite Hm in Hp.
      destruct (q_max_price q); [apply filter_In in Hp; destruct Hp as [Hp _]|];
        apply filter_In in Hp; destruct Hp as [_ Hp]; now apply Z.leb_le.
    - intros m Hm. subst r3. rewrite Hm in Hp. apply filter_In in Hp. destruct Hp as [_ Hp].
      now apply Z.leb_le. }
  intros p c Hin. apply in_map_iff in Hin. destruct Hin as (p0 & He & _).
  destruct (embed_some _ _ _ _ _ He) as (-> & H1 & H2 & H3).
  split; [exact H1|]. split; [exact H2|exact H3].
Qed.

(** The [category] parameter of the product listing filters only the
    embedded category, not the products: the same products come back, in
    the same order, as without it. *)
Theorem getAllProducts_category_ignored cat sort minp maxp page limit e d :
  returned (getAllProducts (mkQuery cat sort minp maxp page limit) e d)
  = returned (getAllProducts (mkQuery None sort minp maxp page limit) e d).
Proof.
  unfold getAllProducts. cbn [q_category q_sort q_min_price q_max_price q_page q_limit].
  destruct (e || _ || _); [reflexivity|]. cbn [returned]. now rewrite !map_fst_embed.
Qed.

(** A category listing is answered for the one category with that slug
    and lists exactly the active products of that category, newest first. *)
Theorem getByCategory_listing category ce pe d data c :
  getByCategory category ce pe d = CategoryListing data c ->
  c_slug c = category /\ In c (categories d)
  /\ adj_sorted (order_le None) data
  /\ (forall p, In p data <->
        In p (products d) /\ p_is_active p = true /\ p_category_id p = c_id c).
Proof.
  unfold getByCategory.
  destruct (Otp.single _) as [c0|] eqn:Sg; [|discriminate].
  apply single_filter_in in Sg. destruct Sg as [Hin Hs]. apply String.eqb_eq in Hs.
  destruct ce; [discriminate|]. destruct pe; [discriminate|].
  intros [= <- <-].
  split; [exact Hs|]. split; [exact Hin|].
  split; [apply sort_sorted, order_le_total|].
  intro p. rewrite in_sort_by, filter_In, andb_true_iff, String.eqb_eq. tauto.
Qed.

(** A product is answered by slug only when it is the one active product
    with that slug; its embedded category is its own. *)
Theorem getProductBySlug_found slug e d p c :
  getProductBySlug slug e d = ProductData p c ->
  p_slug p = slug /\ p_is_active p = true /\ In p (products d)
  /\ (forall q, In q (products d) -> p_slug q = slug -> p_is_active q = true -> q = p)
  /\ (forall c', c = Some c' -> In c' (categories d) /\ c_id c' = p_category_id p).
Proof.
  unfold getProductBySlug.
  destruct (Otp.single _) as [p0|] eqn:Sg; [|discriminate].
  assert (Uniq : forall q, In q (products d) -> p_slug q = slug -> p_is_active q = true -> q = p0).
  { intros q Hq Hs Ha. unfold Otp.single in Sg.
    destruct (filter _ _) as [|x [|y r]] eqn:F; try discriminate. injection Sg as ->.
    assert (Hf : In q (filter (fun p => String.eqb (p_slug p) slug && p_is_active p) (products d))).
    { apply filter_In. split; [exact Hq|]. rewrite Hs, Ha, String.eqb_refl. reflexivity. }
    rewrite F in Hf. destruct Hf as [<-|[]]. reflexivity. }
  apply single_filter_in in Sg. destruct Sg as [Hin Hf].
  apply andb_true_iff in Hf. destruct Hf as [Hs Ha]. apply String.eqb_eq in Hs.
  destruct e; [discriminate|]. intros [= <- <-].
  split; [exact Hs|]. split; [exact Ha|]. split; [exact Hin|]. split; [exact Uniq|].
  intros c' Hc. unfold embed in Hc. cbn in Hc.
  apply find_some in Hc. destruct Hc as [Hc Hid]. apply String.eqb_eq in Hid. now split.
Qed.

(** The featured listing only has featured products of the table, and
    when there are at most 8 active featured products it lists all of
    them. *)
Theorem getFeaturedProducts_spec e d data :
  getFeaturedProducts e d = Featured data ->
  (forall p, In p (map fst data) -> p_is_featured p = true /\ In p (products d))
  /\ ((length (filter (fun p => p_is_active p && p_is_featured p) (products d)) <= 8)%nat ->
      forall p, In p (products d) -> p_is_active p = true -> p_is_featured p = true ->
                In p (map fst data)).
Proof.
  unfold getFeaturedProducts. destruct e; [discriminate|]. intro E.
  assert (Hd : map (embed (categories d) None)
                 (firstn 8 (filter (fun p => p_is_active p && p_is_featured p) (products d)))
               = data) by congruence.
  subst data. clear E.
  rewrite map_fst_embed. split.
  - intros p Hp. apply in_firstn_l, filter_In in Hp. destruct Hp as [Hp Hf].
    apply andb_true_iff in Hf. split; [exact (proj2 Hf)|exact Hp].
  - intros Hl p Hp Ha Hf. rewrite firstn_all2 by exact Hl.
    apply filter_In. split; [exact Hp|]. now rewrite Ha, Hf.
Qed.

Import MoreSamples.

(** The first page of the sample catalog, cheapest first. *)
Lemma getAllProducts_listing_witness :
  exists data, getAllProducts first_page false Samples.catalog = Listing data 1 10
               /\ (length data <= 10)%nat.
Proof.
  destruct (getAllProducts first_page false Samples.catalog) as [data pg lim| | | |] eqn:E;
    try (vm_compute in E; discriminate E).
  destruct (getAllProducts_listing _ _ _ _ _ _ E) as (_ & -> & -> & L & _).
  exists data. split; [reflexivity | exact L].
Defined.

(** The drones category is answered with its own row. *)
Lemma getByCategory_listing_witness :
  exists data c, getByCategory "drones" false false Samples.catalog = CategoryListing data c
                 /\ c_slug c = "drones".
Proof.
  destruct (getByCategory "drones" false false Samples.catalog) as [| data c| | |] eqn:E;
    try (vm_compute in E; discriminate E).
  destruct (getByCategory_listing _ _ _ _ _ _ E) as (S & _).
  exists data, c. split; [reflexivity | exact S].
Defined.

(** The falcon is answered by its slug, and it is active. *)
Lemma getProductBySlug_found_witness :
  exists p c, getProductBySlug "falcon" false Samples.catalog = ProductData p c
              /\ p_is_active p = true.
Proof.
  destruct (getProductBySlug "falcon" false Samples.catalog) as [| |p c| |] eqn:E;
    try (vm_compute in E; discriminate E).
  destruct (getProductBySlug_found _ _ _ _ _ E) as (_ & A & _).
  exists p, c. split; [reflexivity | exact A].
Defined.

(** The featured listing of the sample catalog has the falcon. *)
Lemma getFeaturedProducts_spec_witness :
  exists data, getFeaturedProducts false Samples.catalog = Featured data
               /\ In falcon (map fst data).
Proof.
  destruct (getFeaturedProducts false Samples.catalog) as [| | |data|] eqn:E;
    try (vm_compute in E; discriminate E).
  destruct (getFeaturedProducts_spec _ _ _ E) as (_ & All).
  exists data. split; [reflexivity|].
  apply All; [vm_compute; lia | left; reflexivity | reflexivity | reflexivity].
Defined.

End CatalogMoreFacts.

Module OtpMoreFacts.
Import Js Otp OtpRun DigitsFacts OtpFacts.

Lemma sendOTP_sent req w uid w1 :
  sendOTP req w = (mkResp 200 (OtpSent uid), w1) ->
  exists user otp exp w2,
    sendOTP_user req w = (inr (user, otp, exp), w2)
    /\ u_id user = uid
    /\ fault_now (w_env w2) = false
    /\ w_db w1 = w_db (snd (otp_codes_upsert (u_id user) otp exp w2)).
Proof.
  unfold sendOTP, bind at 1.
  destruct (sendOTP_user req w) as [[r0|[[user otp] exp]] w2] eqn:E.
  - unfold ret. intro H. injection H as Hr _. apply sendOTP_user_inl in E.
    subst r0. destruct E as [E|[E|E]]; discriminate.
  - cbv beta iota. rewrite (bind_eq _ _ _ _ _ (upsert_eq _ _ _ _)). cbv beta.
    destruct (fault_now (w_env w2)) eqn:F; cbv beta iota.
    { unfold ret. intro H. discriminate H. }
    intro H. exists user, otp, exp, w2. split; [reflexivity|].
    rewrite upsert_eq, F. cbn [snd]. revert H.
    destruct (truthy (sr_email req)).
    2: { unfold ret. intro H. injection H as <- <-. auto. }
    unfold bind, config, resend_emails_send. cbv beta iota.
    destruct (String.eqb _ "").
    { unfold ret. intro H. injection H as <- <-. auto. }
    rewrite next_outcome_eq. cbv beta iota.
    destruct (match faults _ with [] => Done | o :: _ => o end);
      unfold ret; intro H; inversion H; subst; auto.
Qed.

Lemma upsert_then_verify req w user otp exp w2 w1 :
  sendOTP_user req w = (inr (user, otp, exp), w2) ->
  fault_now (w_env w2) = false ->
  w_db w1 = w_db (snd (otp_codes_upsert (u_id user) otp exp w2)) ->
  one_row_per_user (w_db w) ->
  Forall (fun u => u_id u <> "") (users (w_db w)) ->
  exists rec,
    unused_of (u_id user) (otp_codes (w_db w1)) = [rec]
    /\ o_code rec = fst (generateOTP w)
    /\ o_expires_at rec = clock (w_env w) + 600000
    /\ forall e, faults e = [] -> clock e <= o_expires_at rec -> JWT_SECRET e <> "" ->
         fst (verifyOTP (mkVerifyReq None (Some (u_id user)) (Some (o_code rec))) (mkWorld (w_db w1) e))
         = mkResp 200 (Verified (jwt_sign [("userId", u_id user)] (JWT_SECRET e) "7d") user).
Proof.
  intros E F Hdb Hrow Hne.
  destruct (sendOTP_user_inr _ _ _ _ _ _ E Hne) as (Hotp & Hexp & Hu & Hid).
  pose proof (keeps_sendOTP_user req w) as K. rewrite E in K. cbn [snd] in K. destruct K as [K1 K2].
  rewrite upsert_eq, F in Hdb. cbn [snd w_db] in Hdb.
  assert (Hrow2 : NoDup (map o_user_id (otp_codes (w_db w2)))) by (rewrite K1; exact Hrow).
  destruct (upsert_rows_unused (otp_codes (w_db w2)) (u_id user) otp exp (next_id (w_db w2)) Hrow2)
    as [id Hun].
  assert (Hos : otp_codes (w_db w1)
                = if existsb (of_user (u_id user)) (otp_codes (w_db w2))
                  then map (fun r => if of_user (u_id user) r
                                     then mkOtp (o_id r) (u_id user) otp exp false else r)
                           (otp_codes (w_db w2))
                  else (otp_codes (w_db w2) ++ [mkOtp (next_id (w_db w2)) (u_id user) otp exp false])%list)
    by (rewrite Hdb; destruct (existsb _ _); reflexivity).
  assert (Hus : users (w_db w1) = users (w_db w2))
    by (rewrite Hdb; destruct (existsb _ _); reflexivity).
  exists (mkOtp id (u_id user) otp exp false).
  rewrite Hos. split; [exact Hun|]. cbn [o_user_id o_code o_used o_expires_at].
  split; [exact Hotp|]. split; [exact Hexp|].
  intros e He Hc Hj.
  pose proof (randomInt_range 100000 999999 w ltac:(lia)) as R.
  destruct (drawn_otp_string (fst (randomInt 100000 999999 w)) ltac:(lia)) as (L & D & _).
  rewrite <- generateOTP_value, <- Hotp in L, D.
  assert (Ht : trim otp = otp) by (apply trim_digits; exact D).
  assert (Hne_otp : String.eqb otp "" = false)
    by (apply String.eqb_neq; intro Z; rewrite Z in L; discriminate).
  assert (Hne_uid : String.eqb (u_id user) "" = false) by (apply String.eqb_neq; exact Hid).
  assert (T : verifyOTP_target (mkVerifyReq None (Some (u_id user)) (Some otp)) (mkWorld (w_db w1) e)
              = (inr (u_id user), mkWorld (w_db w1) e)).
  { unfold verifyOTP_target. cbn [vr_otp vr_userId vr_email truthy opt_str].
    rewrite Hne_otp, Ht, L, Hne_uid. reflexivity. }
  rewrite (verifyOTP_resolved _ _ _ _ T). cbn [w_env w_db vr_otp opt_str].
  rewrite (fault_now_nil _ He).
  assert (Dd : otp_decision (otp_codes (w_db w1)) (clock e) (u_id user) otp
               = Passed (mkOtp id (u_id user) otp exp false)).
  { unfold otp_decision. rewrite Hos, Hun. cbn [latest fold_left o_expires_at o_code].
    replace (exp <? clock e) with false by (symmetry; apply Z.ltb_ge; lia).
    rewrite String.eqb_refl. reflexivity. }
  rewrite Dd. apply String.eqb_neq in Hj. rewrite Hj.
  rewrite (fault_now_nil _ (pop_env_nil _ (pop_env_nil _ He))).
  rewrite Hus, Hu. reflexivity.
Qed.

(** A customer send-otp answered 200 has stored exactly one unused code for
    the user it names, the drawn code with a ten-minute expiry; a verify-otp
    for that user and code before expiry then logs the user in. *)
Theorem sendOTP_then_verify req w uid w1 :
  sendOTP req w = (mkResp 200 (OtpSent uid), w1) ->
  one_row_per_user (w_db w) ->
  Forall (fun u => u_id u <> "") (users (w_db w)) ->
  exists rec user,
    unused_of uid (otp_codes (w_db w1)) = [rec]
    /\ o_code rec = fst (generateOTP w)
    /\ o_expires_at rec = clock (w_env w) + 600000
    /\ forall e, faults e = [] -> clock e <= o_expires_at rec -> JWT_SECRET e <> "" ->
         fst (verifyOTP (mkVerifyReq None (Some uid) (Some (o_code rec))) (mkWorld (w_db w1) e))
         = mkResp 200 (Verified (jwt_sign [("userId", uid)] (JWT_SECRET e) "7d") user).
Proof.
  intros H Hrow Hne.
  destruct (sendOTP_sent _ _ _ _ H) as (user & otp & exp & w2 & E & <- & F & Hdb).
  destruct (upsert_then_verify _ _ _ _ _ _ _ E F Hdb Hrow Hne) as (rec & U & C & X & V).
  exists rec, user. auto.
Qed.

(** A customer verify-otp answered 400 leaves the stored codes as they were:
    a wrong, expired or missing code never consumes one. *)
Theorem verifyOTP_400_keeps_codes req w resp w1 :
  verifyOTP req w = (resp, w1) -> status resp = 400 ->
  otp_codes (w_db w1) = otp_codes (w_db w).
Proof.
  unfold verifyOTP, bind at 1.
  pose proof (keeps_verifyOTP_target req w) as K.
  destruct (verifyOTP_target req w) as [[r|t] w2]; cbn [snd] in K; destruct K as [K _].
  - unfold ret. intros H _. injection H as _ <-. exact K.
  - unfold bind at 1. pose proof (keeps_fetch t (opt_str (vr_otp req)) w2) as K'.
    destruct (fetch_and_check t _ w2) as [c w3]; cbn [snd] in K'; destruct K' as [K' _].
    destruct c as [| | | |rec];
      try (unfold ret; intros H _; injection H as _ <-; congruence).
    unfold bind, config, ret. destruct (otp_codes_mark_used _ w3) as [b w4].
    destruct (String.eqb _ ""); [intros H S; injection H as <- _; discriminate S|].
    cbv zeta. destruct (users_by_id t w4) as [[u|] w5];
      intros H S; injection H as <- _; discriminate S.
Qed.

(** An admin verify-otp answered 400 leaves the stored codes as they were. *)
Theorem adminVerifyOTP_400_keeps_codes req w resp w1 :
  adminVerifyOTP req w = (resp, w1) -> status resp = 400 ->
  otp_codes (w_db w1) = otp_codes (w_db w).
Proof.
  unfold adminVerifyOTP, bind at 1.
  pose proof (keeps_adminVerifyOTP_target req w) as K.
  destruct (adminVerifyOTP_target req w) as [[r|t] w2]; cbn [snd] in K; destruct K as [K _].
  - unfold ret. intros H _. injection H as _ <-. exact K.
  - unfold bind at 1. pose proof (keeps_fetch t (opt_str (av_otp req)) w2) as K'.
    destruct (fetch_and_check t _ w2) as [c w3]; cbn [snd] in K'; destruct K' as [K' _].
    destruct c as [| | | |rec];
      try (unfold ret; intros H _; injection H as _ <-; congruence).
    unfold bind, config, ret. destruct (otp_codes_mark_used _ w3) as [b w4].
    destruct (admin_users_by_id t w4) as [[[a|]|] w5];
      intros H S; injection H as <- _; discriminate S.
Qed.

Import Samples MoreSamples.

(** Signing up on the sample shop sends a code that then logs the new user in. *)
Lemma sendOTP_then_verify_witness :
  fst (sendOTP signup shop) = mkResp 200 (OtpSent "uu1")
  /\ exists rec user,
       unused_of "uu1" (otp_codes (w_db (snd (sendOTP signup shop)))) = [rec]
       /\ fst (verifyOTP (mkVerifyReq None (Some "uu1") (Some (o_code rec)))
                         (mkWorld (w_db (snd (sendOTP signup shop))) calm_env))
          = mkResp 200 (Verified (jwt_sign [("userId", "uu1")] "jwt-secret" "7d") user).
Proof.
  assert (E : sendOTP signup shop = (mkResp 200 (OtpSent "uu1"), snd (sendOTP signup shop)))
    by (vm_compute; reflexivity).
  rewrite E. split; [reflexivity|]. cbn [snd].
  destruct (sendOTP_then_verify _ _ _ _ E ltac:(repeat constructor; intros []) ltac:(repeat constructor; discriminate))
    as (rec & user & U & _ & X & V).
  exists rec, user. split; [exact U|].
  apply V.
  - reflexivity.
  - rewrite X. cbn. lia.
  - cbn. discriminate.
Defined.

(** A wrong code on the sample shop answers 400 and keeps the pending code. *)
Lemma verifyOTP_400_keeps_codes_witness :
  status (fst (verifyOTP wrong_code shop)) = 400
  /\ otp_codes (w_db (snd (verifyOTP wrong_code shop))) = [pending_code].
Proof.
  assert (S : status (fst (verifyOTP wrong_code shop)) = 400) by (vm_compute; reflexivity).
  split; [exact S|].
  exact (verifyOTP_400_keeps_codes wrong_code shop _ _ (surjective_pairing _) S).
Defined.

(** A wrong admin code answers 400 and keeps the codes. *)
Lemma adminVerifyOTP_400_keeps_codes_witness :
  status (fst (adminVerifyOTP admin_wrong_code shop)) = 400
  /\ otp_codes (w_db (snd (adminVerifyOTP admin_wrong_code shop))) = [pending_code].
Proof.
  assert (S : status (fst (adminVerifyOTP admin_wrong_code shop)) = 400)
    by (vm_compute; reflexivity).
  split; [exact S|].
  exact (adminVerifyOTP_400_keeps_codes admin_wrong_code shop _ _ (surjective_pairing _) S).
Defined.

End OtpMoreFacts.
